(** * OpenFBX geometry core: binary array decoder, polygon triangulator,
      vertex expansion and geometry assembly (ofbxImp.h / ofbxImp.cpp).

    The development is a shallow embedding of the C++ sources.  Machine
    integers are [Z] with the wrap-around of every conversion written out,
    [std::vector] is [list] with the out-of-range accesses made explicit,
    [std::unordered_map] is [gmap], raw memory is a function from addresses to
    bytes and C++ control effects ([assert], undefined behaviour) are the
    constructors of the [Outcome] monad. *)

From Stdlib Require Import ZArith Lia List.
From Stdlib Require Import Strings.Byte Strings.String.
From stdpp Require Import base numbers list gmap strings option.

Open Scope Z_scope.
Set Warnings "-register-all".

(** ** Machine integers *)

(** Conversion to [u32] / [unsigned int]. *)
Definition to_u32 (z : Z) : Z := z mod 2 ^ 32.

(** Conversion to [int] (two's complement, 32 bits). *)
Definition to_int (z : Z) : Z := (z + 2 ^ 31) mod 2 ^ 32 - 2 ^ 31.

(** Conversion to [size_t] (64 bits). *)
Definition to_size_t (z : Z) : Z := z mod 2 ^ 64.

(** ** Outcomes of a call

    [Ok a] is a normal return; [Error msg] is the [return Error(msg)] of a
    function whose result is an [OptionalError]; [AssertFailed] is a failing
    [assert] (the program is aborted, <cassert> without NDEBUG);
    [UndefinedBehaviour] is an access outside a vector or buffer, a null
    dereference, a division by zero or the read of an uninitialised
    variable. *)
Inductive Outcome (A : Type) : Type :=
  | Ok (a : A)
  | Error (msg : string)
  | AssertFailed
  | UndefinedBehaviour.
Arguments Ok {A} a.
Arguments Error {A} msg.
Arguments AssertFailed {A}.
Arguments UndefinedBehaviour {A}.

#[global] Instance Outcome_ret : MRet Outcome := λ A a, Ok a.
#[global] Instance Outcome_bind : MBind Outcome := λ A B f m,
  match m with
  | Ok a => f a
  | Error msg => Error msg
  | AssertFailed => AssertFailed
  | UndefinedBehaviour => UndefinedBehaviour
  end.

(** [assert(c)]. *)
Definition assert (c : bool) : Outcome unit :=
  if c then Ok () else AssertFailed.

(** [v[i]] on a [std::vector] with an index already converted to [size_t]. *)
Definition at_ {A} (v : list A) (i : Z) : Outcome A :=
  if (0 <=? i) && (i <? Z.of_nat (length v))
  then match v !! Z.to_nat i with Some a => Ok a | None => UndefinedBehaviour end
  else UndefinedBehaviour.

(** [v[i] = a] on a [std::vector]. *)
Definition set_at {A} (v : list A) (i : Z) (a : A) : Outcome (list A) :=
  if (0 <=? i) && (i <? Z.of_nat (length v))
  then Ok (<[Z.to_nat i := a]> v)
  else UndefinedBehaviour.

(** ** Memory and the element tree *)

Abbreviation u8 := Byte.byte.

(** The bytes of the loaded file, addressed as the pointers of the source
    address them. *)
Definition memory : Type := Z → u8.

Definition u8_val (b : u8) : Z := Z.of_N (Byte.to_N b).

(** [*(const u32* )p] on a little-endian host. *)
Definition load_u32 (m : memory) (p : Z) : Z :=
  u8_val (m p) + 2 ^ 8 * u8_val (m (p + 1))
  + 2 ^ 16 * u8_val (m (p + 2)) + 2 ^ 24 * u8_val (m (p + 3)).

(** The [n] bytes that start at address [p]. *)
Definition load_bytes (m : memory) (p n : Z) : list u8 := m <$> seqZ p n.

(** [DataView]: a window [begin, end) of the file. *)
Record DataView : Type := mkDataView { begin : Z; end_ : Z }.

(** [Property]: type tag, window and the next sibling property. *)
Inductive Property : Type :=
  mkProperty { type : u8; value : DataView; next : option Property }.

(** [Element]: first-child / next-sibling tree. *)
Inductive Element : Type :=
  mkElement {
    id : DataView;
    child : option Element;
    sibling : option Element;
    first_property : option Property }.

(** External collaborators of the core: the inflate primitive of the
    decompression library, [decompress(in, in_size, out, out_size)], given the
    compressed bytes and the capacity it was told, answers its success flag and
    the bytes it stored at the start of [out]; and the hardware conversion of
    a [float] to a [double] (on bit patterns). *)
Class Collaborators : Type := {
  decompress : list u8 → Z → bool * list u8;
  float_to_double : Z → Z }.

(** Bytes stored at the start of a destination buffer; storing more than the
    buffer holds runs past it. *)
Definition store_bytes (out : list u8) (bs : list u8) : Outcome (list u8) :=
  if (length bs <=? length out)%nat
  then Ok (bs ++ drop (length bs) out)
  else UndefinedBehaviour.

(** [memcpy(out, data, len)]. *)
Definition memcpy (out : list u8) (m : memory) (data len : Z) : Outcome (list u8) :=
  if len <=? Z.of_nat (length out)
  then Ok (load_bytes m data len ++ drop (Z.to_nat len) out)
  else UndefinedBehaviour.

(** ** Typed array decoder (ofbxImp.h) *)

(** [getArrayCount]. *)
Definition getArrayCount (m : memory) (property : Property) : Z :=
  load_u32 m (begin (value property)).

(** [parseBinaryArrayRaw<T>(property, out, max_size)]: [out] is the content of
    the destination buffer (a destination is never the null pointer here, so
    [assert(out)] holds), the result is the returned flag and the content of
    the destination afterwards. *)
Definition parseBinaryArrayRaw `{Collaborators} (m : memory) (property : Property)
    (out : list u8) (max_size : Z) : Outcome (bool * list u8) :=
  let elem_size : option Z :=
    match type property with
    | "l"%byte => Some 8
    | "d"%byte => Some 8
    | "f"%byte => Some 4
    | "i"%byte => Some 4
    | _ => None
    end in
  match elem_size with
  | None => Ok (false, out)
  | Some elem_size =>
    let data := begin (value property) + 4 * 3 in
    if end_ (value property) <? data then Ok (false, out) else
    let count := getArrayCount m property in
    let enc := load_u32 m (begin (value property) + 4) in
    let len := load_u32 m (begin (value property) + 8) in
    if enc =? 0 then
      if max_size <? to_int len then Ok (false, out)
      else if end_ (value property) <? data + len then Ok (false, out)
      else out' ← memcpy out m data len; Ok (true, out')
    else if enc =? 1 then
      if max_size <? to_int (to_u32 (elem_size * count)) then Ok (false, out)
      else
        let r := decompress (load_bytes m data len) (to_u32 (elem_size * count)) in
        out' ← store_bytes out r.2; Ok (r.1, out')
    else Ok (false, out)
  end.

(** ** Plain data stored in vectors

    [sizeof(T)] and the object representation of [T]; a destination
    [std::vector<T>] is handed to the raw decoder as its bytes. *)
Class Pod (T : Type) : Type := {
  sizeof : Z;
  to_bytes : T -> list u8;
  of_bytes : list u8 -> T }.
Arguments sizeof T {_}.

Definition u8_of (z : Z) : u8 :=
  default "000"%byte (Byte.of_N (Z.to_N (z mod 256))).

(** Little-endian representation of an integer on [n] bytes, and back. *)
Fixpoint le_bytes (n : nat) (z : Z) : list u8 :=
  match n with
  | O => []
  | S n => u8_of z :: le_bytes n (z / 256)
  end.

Fixpoint le_value (bs : list u8) : Z :=
  match bs with
  | [] => 0
  | b :: bs => u8_val b + 256 * le_value bs
  end.

(** [float] and [double] are carried as their bit patterns. *)
Record float : Type := mkFloat { float_bits : Z }.
Record double : Type := mkDouble { double_bits : Z }.

(** [int]. *)
#[global] Instance int_Pod : Pod Z := {|
  sizeof := 4;
  to_bytes z := le_bytes 4 z;
  of_bytes bs := to_int (le_value (take 4 bs)) |}.

#[global] Instance float_Pod : Pod float := {|
  sizeof := 4;
  to_bytes f := le_bytes 4 (float_bits f);
  of_bytes bs := mkFloat (le_value (take 4 bs)) |}.

#[global] Instance double_Pod : Pod double := {|
  sizeof := 8;
  to_bytes d := le_bytes 8 (double_bits d);
  of_bytes bs := mkDouble (le_value (take 8 bs)) |}.

(** Modelled from the spec: the vector records of ofbx.h, which is not part
    of the sources at hand; [Vec2], [Vec3] and [Vec4] are records of two,
    three and four [double] fields [x], [y], [z], [w]. *)
Inductive Vec2 : Type := mkVec2 (x y : double).
Inductive Vec3 : Type := mkVec3 (x y z : double).
Inductive Vec4 : Type := mkVec4 (x y z w : double).

(** Records made of [double] fields only, seen as the array of their fields
    ([&v[0].x]). *)
Class DoubleVec (T : Type) : Type := {
  dim : nat;
  fields : T -> list double;
  of_fields : list double -> T }.
Arguments dim T {_}.

Definition nth_double (ds : list double) (i : nat) : double :=
  default (mkDouble 0) (ds !! i).

#[global] Instance Vec2_fields : DoubleVec Vec2 := {|
  dim := 2;
  fields v := match v with mkVec2 x y => [x; y] end;
  of_fields ds := mkVec2 (nth_double ds 0) (nth_double ds 1) |}.

#[global] Instance Vec3_fields : DoubleVec Vec3 := {|
  dim := 3;
  fields v := match v with mkVec3 x y z => [x; y; z] end;
  of_fields ds := mkVec3 (nth_double ds 0) (nth_double ds 1) (nth_double ds 2) |}.

#[global] Instance Vec4_fields : DoubleVec Vec4 := {|
  dim := 4;
  fields v := match v with mkVec4 x y z w => [x; y; z; w] end;
  of_fields ds :=
    mkVec4 (nth_double ds 0) (nth_double ds 1) (nth_double ds 2) (nth_double ds 3) |}.

(** A list cut into [n] consecutive groups of [k] entries. *)
Fixpoint groups {A} (n k : nat) (l : list A) : list (list A) :=
  match n with
  | O => []
  | S n => take k l :: groups n k (drop k l)
  end.

#[global] Instance DoubleVec_Pod `{DoubleVec T} : Pod T := {|
  sizeof := 8 * Z.of_nat (dim T);
  to_bytes v := concat (to_bytes <$> fields v);
  of_bytes bs := of_fields (of_bytes <$> groups (dim T) 8 bs) |}.

(** The bytes of a vector, and the vector of [n] elements held by bytes. *)
Definition vector_bytes `{Pod T} (v : list T) : list u8 :=
  concat (to_bytes <$> v).

Definition bytes_vector `{Pod T} (n : nat) (bs : list u8) : list T :=
  of_bytes <$> groups n (Z.to_nat (sizeof T)) bs.

(** A value-initialised [T]. *)
Definition zero_value `{Pod T} : T :=
  of_bytes (replicate (Z.to_nat (sizeof T)) "000"%byte).

(** [v.resize(n)]. *)
Definition vector_resize `{Pod T} (n : Z) (v : list T) : list T :=
  resize (Z.to_nat n) zero_value v.

(** [for (int i = lo; i < lo + n; ++i) body], the bound being fixed.  The
    counter is kept exact; it is the counter of the source as long as the
    bound is in the range of its type. *)
Fixpoint for_loop {S : Type} (n : nat) (i : Z) (body : Z -> S -> Outcome S) (s : S)
    : Outcome S :=
  match n with
  | O => Ok s
  | Datatypes.S n => s' ← body i s; for_loop n (i + 1) body s'
  end.

(** The turns of [for (int i = 0; i < count; ++i)] when [count] is a
    [size_t]: [i] is converted to [size_t] for the comparison, so that the
    loop goes on while [i] is below [count]; the increment of 2^31 - 1 wraps
    to -2^31, which is 2^64 - 2^31 as a [size_t], more than the size of any
    vector, and the loop ends there.  The counter of the turns taken is
    exact. *)
Definition int_turns (count : nat) : nat :=
  Z.to_nat (Z.min (Z.of_nat count) (2 ^ 31)).

(** [parseBinaryArray<T>(property, out)]: the returned flag and the vector
    afterwards.  [count / elem_count] divides by zero when [T] is smaller
    than an element, and [&( *out)[0]] reads an empty vector when the count is
    smaller than a record. *)
Definition parseBinaryArray `{Collaborators} `{Pod T} (m : memory)
    (property : Property) (out : list T) : Outcome (bool * list T) :=
  let count := getArrayCount m property in
  let elem_size : option Z :=
    match type property with
    | "d"%byte => Some 8
    | "f"%byte => Some 4
    | "i"%byte => Some 4
    | _ => None
    end in
  match elem_size with
  | None => Ok (false, out)
  | Some elem_size =>
    let elem_count := to_int (sizeof T ÷ elem_size) in
    if elem_count =? 0 then UndefinedBehaviour else
    let out := vector_resize (count ÷ to_u32 elem_count) out in
    (* [&( *out)[0]] *)
    if bool_decide (out = []) then UndefinedBehaviour else
    r ← parseBinaryArrayRaw m property (vector_bytes out)
          (to_int (to_size_t (sizeof T * Z.of_nat (length out))));
    Ok (r.1, bytes_vector (length out) r.2)
  end.

(** [parseDoubleVecData<T>(property, out_vec)]. *)
Definition parseDoubleVecData `{Collaborators} `{DoubleVec T} (m : memory)
    (property : Property) (out_vec : list T) : Outcome (bool * list T) :=
  if Byte.eqb (type property) "d"
  then parseBinaryArray m property out_vec
  else
    _ ← assert (Byte.eqb (type property) "f");
    _ ← assert (sizeof double =? 8);
    r ← parseBinaryArray m property ([] : list float);
    let tmp := r.2 in
    if negb r.1 then Ok (false, out_vec) else
    let elem_count := to_int (sizeof T ÷ sizeof double) in
    if elem_count =? 0 then UndefinedBehaviour else
    let out_vec := vector_resize (Z.of_nat (length tmp) ÷ to_size_t elem_count) out_vec in
    (* [double* out = &( *out_vec)[0].x] *)
    if bool_decide (out_vec = []) then UndefinedBehaviour else
    let out := out_vec ≫= fields in
    out ← for_loop (Z.to_nat (to_int (Z.of_nat (length tmp)))) 0
             (λ i out,
                f ← at_ tmp i;
                set_at out i (mkDouble (float_to_double (float_bits f))))
             out;
    Ok (true, of_fields <$> groups (length out_vec) (dim T) out).

(** ** Geometry record (GeometryImpl, ofbxImp.h)

    The members the geometry core reads or writes; [skin], [to_old_vertices]
    and [to_new_vertices] are touched by none of the functions below. *)
Inductive VertexDataMapping : Type := BY_POLYGON_VERTEX | BY_POLYGON | BY_VERTEX.

Record GeometryImpl : Type := mkGeometryImpl {
  vertices : list Vec3;
  normals : list Vec3;
  uvs : list Vec2;
  colors : list Vec4;
  tangents : list Vec3;
  materials : list Z;
  vertex_indices : list Z;
  normal_indices : list Z;
  uv_indices : list Z;
  color_indices : list Z;
  tangent_indices : list Z;
  triangles : list Z }.

Definition empty_geometry : GeometryImpl :=
  mkGeometryImpl [] [] [] [] [] [] [] [] [] [] [] [].

Definition set_vertices (v : list Vec3) (g : GeometryImpl) : GeometryImpl :=
  mkGeometryImpl v (normals g) (uvs g) (colors g) (tangents g) (materials g)
    (vertex_indices g) (normal_indices g) (uv_indices g) (color_indices g)
    (tangent_indices g) (triangles g).
Definition set_normals (v : list Vec3) (g : GeometryImpl) : GeometryImpl :=
  mkGeometryImpl (vertices g) v (uvs g) (colors g) (tangents g) (materials g)
    (vertex_indices g) (normal_indices g) (uv_indices g) (color_indices g)
    (tangent_indices g) (triangles g).
Definition set_uvs (v : list Vec2) (g : GeometryImpl) : GeometryImpl :=
  mkGeometryImpl (vertices g) (normals g) v (colors g) (tangents g) (materials g)
    (vertex_indices g) (normal_indices g) (uv_indices g) (color_indices g)
    (tangent_indices g) (triangles g).
Definition set_colors (v : list Vec4) (g : GeometryImpl) : GeometryImpl :=
  mkGeometryImpl (vertices g) (normals g) (uvs g) v (tangents g) (materials g)
    (vertex_indices g) (normal_indices g) (uv_indices g) (color_indices g)
    (tangent_indices g) (triangles g).
Definition set_tangents (v : list Vec3) (g : GeometryImpl) : GeometryImpl :=
  mkGeometryImpl (vertices g) (normals g) (uvs g) (colors g) v (materials g)
    (vertex_indices g) (normal_indices g) (uv_indices g) (color_indices g)
    (tangent_indices g) (triangles g).
Definition set_materials (v : list Z) (g : GeometryImpl) : GeometryImpl :=
  mkGeometryImpl (vertices g) (normals g) (uvs g) (colors g) (tangents g) v
    (vertex_indices g) (normal_indices g) (uv_indices g) (color_indices g)
    (tangent_indices g) (triangles g).
Definition set_vertex_indices (v : list Z) (g : GeometryImpl) : GeometryImpl :=
  mkGeometryImpl (vertices g) (normals g) (uvs g) (colors g) (tangents g)
    (materials g) v (normal_indices g) (uv_indices g) (color_indices g)
    (tangent_indices g) (triangles g).
Definition set_normal_indices (v : list Z) (g : GeometryImpl) : GeometryImpl :=
  mkGeometryImpl (vertices g) (normals g) (uvs g) (colors g) (tangents g)
    (materials g) (vertex_indices g) v (uv_indices g) (color_indices g)
    (tangent_indices g) (triangles g).
Definition set_uv_indices (v : list Z) (g : GeometryImpl) : GeometryImpl :=
  mkGeometryImpl (vertices g) (normals g) (uvs g) (colors g) (tangents g)
    (materials g) (vertex_indices g) (normal_indices g) v (color_indices g)
    (tangent_indices g) (triangles g).
Definition set_color_indices (v : list Z) (g : GeometryImpl) : GeometryImpl :=
  mkGeometryImpl (vertices g) (normals g) (uvs g) (colors g) (tangents g)
    (materials g) (vertex_indices g) (normal_indices g) (uv_indices g) v
    (tangent_indices g) (triangles g).
Definition set_tangent_indices (v : list Z) (g : GeometryImpl) : GeometryImpl :=
  mkGeometryImpl (vertices g) (normals g) (uvs g) (colors g) (tangents g)
    (materials g) (vertex_indices g) (normal_indices g) (uv_indices g)
    (color_indices g) v (triangles g).
Definition set_triangles (v : list Z) (g : GeometryImpl) : GeometryImpl :=
  mkGeometryImpl (vertices g) (normals g) (uvs g) (colors g) (tangents g)
    (materials g) (vertex_indices g) (normal_indices g) (uv_indices g)
    (color_indices g) (tangent_indices g) v.

(** ** Polygon triangulator (GeometryImpl::triangulate, ofbxImp.h) *)

(** The vectors behind [old_indices], [indices] and [to_old], and the local
    [in_polygon_idx]. *)
Record TriangulateState : Type := mkTriangulateState {
  ts_old_indices : list Z;
  ts_indices : list Z;
  ts_to_old : list Z;
  ts_in_polygon_idx : Z }.

(** The lambda [getIdx]. *)
Definition getIdx (old_indices : list Z) (i : Z) : Outcome Z :=
  idx ← at_ old_indices (to_size_t i);
  Ok (if idx <? 0 then to_int (to_int (- idx) - 1) else idx).

(** One turn of the loop of [triangulate]. *)
Definition triangulate_body (i : Z) (s : TriangulateState) : Outcome TriangulateState :=
  let old_indices := ts_old_indices s in
  let in_polygon_idx := ts_in_polygon_idx s in
  idx ← getIdx old_indices i;
  pushed ←
    (if in_polygon_idx <=? 2
     then Ok (ts_indices s ++ [idx], ts_to_old s ++ [i])
     else
       first ← at_ old_indices (to_size_t (to_int (i - in_polygon_idx)));
       previous ← at_ old_indices (to_size_t (to_int (i - 1)));
       Ok (ts_indices s ++ [first; previous; idx],
           ts_to_old s ++ [to_int (i - in_polygon_idx); to_int (i - 1); i]));
  let in_polygon_idx := to_int (in_polygon_idx + 1) in
  raw ← at_ old_indices (to_size_t i);
  if raw <? 0
  then
    old_indices ← set_at old_indices (to_size_t i) idx;
    Ok (mkTriangulateState old_indices pushed.1 pushed.2 0)
  else Ok (mkTriangulateState old_indices pushed.1 pushed.2 in_polygon_idx).

(** [triangulate(old_indices, indices, to_old)]: the three vectors
    afterwards. *)
Definition triangulate (old_indices indices to_old : list Z)
    : Outcome (list Z * list Z * list Z) :=
  s ← for_loop (length old_indices) 0 triangulate_body
        (mkTriangulateState old_indices indices to_old 0);
  Ok (ts_old_indices s, ts_indices s, ts_to_old s).

(** Modelled from the spec: [getTriCountFromPoly(indices, idx)] is declared in
    ofbxImp.h and defined in ofbx.cpp, which is not part of the sources at
    hand.  From the stream offset [idx] it counts the corners of the polygon
    that begins there, forward until the terminal-sign (negative) entry,
    inclusive; it answers the triangle count, corners - 2, and leaves [idx] at
    the start of the next polygon. *)
Fixpoint polygon_corners (fuel : nat) (indices : list Z) (pos count : Z) : Outcome Z :=
  match fuel with
  | O => UndefinedBehaviour
  | S fuel =>
    e ← at_ indices (to_size_t pos);
    if e <? 0 then Ok (count + 1)
    else polygon_corners fuel indices (pos + 1) (count + 1)
  end.

Definition getTriCountFromPoly (indices : list Z) (idx : Z) : Outcome (Z * Z) :=
  corners ← polygon_corners (S (length indices)) indices idx 0;
  Ok (corners - 2, idx + corners).

(** ** Default indices, vertex signatures, expansion and remap (ofbxImp.cpp) *)

(** [generateIndices<T>(indices, data, mapping, vertiex_indices)]: the vector
    behind [indices] afterwards. *)
Definition generateIndices {T} (indices : list Z) (data : list T)
    (mapping : VertexDataMapping) (vertiex_indices : list Z) : Outcome (list Z) :=
  _ ← assert (negb (bool_decide (length data = 0%nat)));
  _ ← assert (negb (bool_decide (length vertiex_indices = 0%nat)));
  if negb (bool_decide (length indices = 0%nat))
  then
    _ ← assert (bool_decide (length indices = length vertiex_indices));
    Ok indices
  else
    let count := length vertiex_indices in
    let indices := resize count 0 indices in
    match mapping with
    | BY_POLYGON_VERTEX =>
        for_loop count 0 (λ i indices, set_at indices (to_size_t i) i) indices
    | BY_VERTEX =>
        (* [memcpy] of [count] ints *)
        Ok (take count vertiex_indices ++ drop count indices)
    | BY_POLYGON =>
        _ ← assert false; Ok indices
    end.

(** [class VertexData]. *)
Record VertexData : Type := mkVertexData {
  pos : Z; nrm : Z; tan : Z; clr : Z; uv : Z }.

Definition EXCLUDE_VERTEX : Z := 0x01.
Definition EXCLUDE_NORMAL : Z := 0x02.
Definition EXCLUDE_TANGENT : Z := 0x04.
Definition EXCLUDE_COLOR : Z := 0x08.
Definition EXCLUDE_UV : Z := 0x10.

(** One field of the constructor [VertexData(geom, index, mask)]. *)
Definition signature_field (indices : list Z) (index mask exclude : Z) : Outcome Z :=
  if bool_decide (length indices = 0%nat) || negb (Z.land mask exclude =? 0)
  then Ok (-1)
  else at_ indices index.

(** The constructor [VertexData(geom, index, mask)]. *)
Definition VertexData_of (geom : GeometryImpl) (index mask : Z) : Outcome VertexData :=
  pos ← signature_field (vertex_indices geom) index mask EXCLUDE_VERTEX;
  nrm ← signature_field (normal_indices geom) index mask EXCLUDE_NORMAL;
  tan ← signature_field (tangent_indices geom) index mask EXCLUDE_TANGENT;
  clr ← signature_field (color_indices geom) index mask EXCLUDE_COLOR;
  uv ← signature_field (uv_indices geom) index mask EXCLUDE_UV;
  Ok (mkVertexData pos nrm tan clr uv).

(** [VertexData::operator!=]. *)
Definition VertexData_ne (a p : VertexData) : bool :=
  negb (pos a =? pos p) || negb (nrm a =? nrm p) || negb (tan a =? tan p)
  || negb (clr a =? clr p) || negb (uv a =? uv p).

(** The index vector of the geometry that the reference [indices] of [expand]
    is bound to: every call passes a member of the very [geom] it also passes
    as the read-only [geom], so a store through [indices] is seen by the
    later reads of [geom]. *)
Inductive IndexMember : Type :=
  | VERTEX_INDICES | NORMAL_INDICES | TANGENT_INDICES | COLOR_INDICES | UV_INDICES.

Definition get_indices (f : IndexMember) (g : GeometryImpl) : list Z :=
  match f with
  | VERTEX_INDICES => vertex_indices g
  | NORMAL_INDICES => normal_indices g
  | TANGENT_INDICES => tangent_indices g
  | COLOR_INDICES => color_indices g
  | UV_INDICES => uv_indices g
  end.

Definition set_indices (f : IndexMember) (v : list Z) (g : GeometryImpl) : GeometryImpl :=
  match f with
  | VERTEX_INDICES => set_vertex_indices v g
  | NORMAL_INDICES => set_normal_indices v g
  | TANGENT_INDICES => set_tangent_indices v g
  | COLOR_INDICES => set_color_indices v g
  | UV_INDICES => set_uv_indices v g
  end.

(** The local [map], the vector behind [data] and the geometry (with the
    vector behind [indices] in it). *)
Record ExpandState (T : Type) : Type := mkExpandState {
  es_map : gmap Z VertexData;
  es_data : list T;
  es_geom : GeometryImpl }.
Arguments mkExpandState {T}.
Arguments es_map {T}.
Arguments es_data {T}.
Arguments es_geom {T}.

(** One turn of the loop of [expand]. *)
Definition expand_body {T} (indices : IndexMember) (mask : Z) (i : Z)
    (s : ExpandState T) : Outcome (ExpandState T) :=
  e ← at_ (get_indices indices (es_geom s)) i;
  let idx := to_size_t e in
  vtx ← VertexData_of (es_geom s) i mask;
  match es_map s !! idx with
  | None => Ok (mkExpandState (<[idx := vtx]> (es_map s)) (es_data s) (es_geom s))
  | Some found =>
    if VertexData_ne found vtx
    then
      let new_idx := to_int (Z.of_nat (length (es_data s))) in
      d ← at_ (es_data s) idx;
      let data := es_data s ++ [d] in
      new_indices ← set_at (get_indices indices (es_geom s)) i new_idx;
      Ok (mkExpandState (<[to_size_t new_idx := vtx]> (es_map s)) data
            (set_indices indices new_indices (es_geom s)))
    else Ok s
  end.

(** [expand<T>(data, indices, geom, mask)]: the vector behind [data] and the
    geometry afterwards. *)
Definition expand {T} (data : list T) (indices : IndexMember) (geom : GeometryImpl)
    (mask : Z) : Outcome (list T * GeometryImpl) :=
  let count := length (get_indices indices geom) in
  vtx ← VertexData_of geom 0 mask;
  e ← at_ (get_indices indices geom) 0;
  s ← for_loop (count - 1) 1 (expand_body indices mask)
        (mkExpandState (<[to_size_t e := vtx]> ∅) data geom);
  Ok (es_data s, es_geom s).

(** [remapForRendering<T>(out, indices, mapping)]: the vector behind [out]
    afterwards. *)
Definition remapForRendering {T} (out : list T) (indices mapping : list Z)
    : Outcome (list T) :=
  if bool_decide (length out = 0%nat) then Ok out else
  let old := out in
  for_loop (length indices) 0
    (λ i out,
       idx ← at_ mapping i;
       ref ← at_ indices i;
       v ← at_ old (to_size_t ref);
       set_at out (to_size_t idx) v)
    out.

(** ** Element tree accessors *)

#[global] Instance u8_eq_dec : EqDecision u8 := Byte.byte_eq_dec.

(** Modelled from the spec: [DataView::operator==(const char* )] is declared in
    ofbx.h and defined in ofbx.cpp, which are not part of the sources at hand;
    a window equals a string when its bytes are the characters of the
    string. *)
Definition DataView_eq (m : memory) (v : DataView) (rhs : string) : bool :=
  bool_decide (load_bytes m (begin v) (end_ v - begin v) = list_byte_of_string rhs).

(** Modelled from the spec: [findChild(element, id)] is declared in ofbxImp.h
    and defined in ofbx.cpp, which is not part of the sources at hand; it
    finds the first child by name, walking the chain of siblings from the
    first child. *)
Fixpoint find_sibling (m : memory) (name : string) (e : Element) : option Element :=
  match e with
  | mkElement eid _ next_sibling _ =>
    if DataView_eq m eid name then Some e
    else match next_sibling with
         | Some e' => find_sibling m name e'
         | None => None
         end
  end.

Definition findChild (m : memory) (element : Element) (name : string) : option Element :=
  match child element with
  | Some e => find_sibling m name e
  | None => None
  end.

(** Dereference of a pointer that may be null, and read of a local that may
    be uninitialised. *)
Definition deref {A} (p : option A) : Outcome A :=
  match p with
  | Some a => Ok a
  | None => UndefinedBehaviour
  end.

(** ** Attribute layer parser (parseVertexData, ofbxImp.h)

    The returned flag with the vectors behind [out] and [out_indices] and the
    local behind [mapping] afterwards. *)
Definition parseVertexData `{Collaborators} `{DoubleVec T} (m : memory)
    (element : Element) (name index_name : string)
    (out : list T) (out_indices : list Z) (mapping : option VertexDataMapping)
    : Outcome (bool * (list T * list Z * option VertexDataMapping)) :=
  match findChild m element name ≫= first_property with
  | None => Ok (false, (out, out_indices, mapping))
  | Some data_property =>
    let mapping_element := findChild m element "MappingInformationType" in
    let reference_element := findChild m element "ReferenceInformationType" in
    let parsed_mapping : option (option VertexDataMapping) :=
      match mapping_element ≫= first_property with
      | Some p =>
        if DataView_eq m (value p) "ByPolygonVertex" then Some (Some BY_POLYGON_VERTEX)
        else if DataView_eq m (value p) "ByPolygon" then Some (Some BY_POLYGON)
        else if DataView_eq m (value p) "ByVertice" || DataView_eq m (value p) "ByVertex"
        then Some (Some BY_VERTEX)
        else None
      | None => Some mapping
      end in
    match parsed_mapping with
    | None => Ok (false, (out, out_indices, mapping))
    | Some mapping =>
      r ← match reference_element ≫= first_property with
          | Some p =>
            if DataView_eq m (value p) "IndexToDirect" then
              match findChild m element index_name ≫= first_property with
              | Some indices_property => parseBinaryArray m indices_property out_indices
              | None => Ok (true, out_indices)
              end
            else if negb (DataView_eq m (value p) "Direct") then Ok (false, out_indices)
            else Ok (true, out_indices)
          | None => Ok (true, out_indices)
          end;
      if negb r.1 then Ok (false, (out, r.2, mapping)) else
      d ← parseDoubleVecData m data_property out;
      Ok (d.1, (d.2, r.2, mapping))
    end
  end.

(** ** Geometry assembly (parseGeometryForRendering, ofbxImp.cpp) *)

(** Lines 150-185: the material layer. *)
Definition decodeMaterialLayer `{Collaborators} (m : memory) (element : Element)
    (geom : GeometryImpl) : Outcome GeometryImpl :=
  match findChild m element "LayerElementMaterial" with
  | None => Ok geom
  | Some layer_material_element =>
    let mapping_element := findChild m layer_material_element "MappingInformationType" in
    let reference_element := findChild m layer_material_element "ReferenceInformationType" in
    let tmp : list Z := [] in
    match mapping_element, reference_element with
    | Some mapping_element, Some reference_element =>
      mapping_property ← deref (first_property mapping_element);
      by_polygon ←
        (if DataView_eq m (value mapping_property) "ByPolygon"
         then
           reference_property ← deref (first_property reference_element);
           Ok (DataView_eq m (value reference_property) "IndexToDirect")
         else Ok false);
      if (by_polygon : bool) then
        match findChild m layer_material_element "Materials" ≫= first_property with
        | None => Error "Invalid LayerElementMaterial"
        | Some indices_property =>
          r ← parseBinaryArray m indices_property tmp;
          if negb r.1 then Error "Failed to parse material indices" else
          let tmp := r.2 in
          s ← for_loop (Z.to_nat (to_int (Z.of_nat (length tmp)))) 0
                (λ poly (s : Z * list Z),
                   t ← getTriCountFromPoly (vertex_indices geom) s.1;
                   v ← at_ tmp (to_size_t poly);
                   Ok (t.2, s.2 ++ replicate (Z.to_nat t.1) v))
                (0, (λ _, -1) <$> materials geom);
          Ok (set_materials s.2 geom)
        end
      else
        if negb (DataView_eq m (value mapping_property) "AllSame")
        then Error "Mapping not supported"
        else Ok geom
    | _, _ => Error "Invalid LayerElementMaterial"
    end
  end.

(** Lines 187-227: the UV, tangent, colour and normal layers, each followed
    by the generation of its default indices. *)
Definition decodeAttributeLayers `{Collaborators} (m : memory) (element : Element)
    (geom : GeometryImpl) : Outcome GeometryImpl :=
  let mapping : option VertexDataMapping := None in
  s ← match findChild m element "LayerElementUV" with
      | None => Ok (geom, mapping)
      | Some layer_uv_element =>
        r ← parseVertexData m layer_uv_element "UV" "UVIndex"
              (uvs geom) (uv_indices geom) mapping;
        if negb r.1 then Error "Invalid UVs" else
        let geom := set_uv_indices r.2.1.2 (set_uvs r.2.1.1 geom) in
        let mapping := r.2.2 in
        mapping_value ← deref mapping;
        indices ← generateIndices (uv_indices geom) (uvs geom) mapping_value
                    (vertex_indices geom);
        Ok (set_uv_indices indices geom, mapping)
      end;
  let geom := s.1 in
  let mapping := s.2 in
  s ← match findChild m element "LayerElementTangents" with
      | None => Ok (geom, mapping)
      | Some layer_tangent_element =>
        r ← (if bool_decide (is_Some (findChild m layer_tangent_element "Tangents"))
             then parseVertexData m layer_tangent_element "Tangents" "TangentsIndex"
                    (tangents geom) (tangent_indices geom) mapping
             else parseVertexData m layer_tangent_element "Tangent" "TangentIndex"
                    (tangents geom) (tangent_indices geom) mapping);
        if negb r.1 then Error "Invalid tangets" else
        let geom := set_tangent_indices r.2.1.2 (set_tangents r.2.1.1 geom) in
        let mapping := r.2.2 in
        mapping_value ← deref mapping;
        indices ← generateIndices (tangent_indices geom) (tangents geom) mapping_value
                    (vertex_indices geom);
        Ok (set_tangent_indices indices geom, mapping)
      end;
  let geom := s.1 in
  let mapping := s.2 in
  s ← match findChild m element "LayerElementColor" with
      | None => Ok (geom, mapping)
      | Some layer_color_element =>
        r ← parseVertexData m layer_color_element "Colors" "ColorIndex"
              (colors geom) (color_indices geom) mapping;
        if negb r.1 then Error "Invalid colors" else
        let geom := set_color_indices r.2.1.2 (set_colors r.2.1.1 geom) in
        let mapping := r.2.2 in
        mapping_value ← deref mapping;
        indices ← generateIndices (color_indices geom) (colors geom) mapping_value
                    (vertex_indices geom);
        Ok (set_color_indices indices geom, mapping)
      end;
  let geom := s.1 in
  let mapping := s.2 in
  s ← match findChild m element "LayerElementNormal" with
      | None => Ok (geom, mapping)
      | Some layer_normal_element =>
        r ← parseVertexData m layer_normal_element "Normals" "NormalsIndex"
              (normals geom) (normal_indices geom) mapping;
        if negb r.1 then Error "Invalid normals" else
        let geom := set_normal_indices r.2.1.2 (set_normals r.2.1.1 geom) in
        let mapping := r.2.2 in
        mapping_value ← deref mapping;
        indices ← generateIndices (normal_indices geom) (normals geom) mapping_value
                    (vertex_indices geom);
        Ok (set_normal_indices indices geom, mapping)
      end;
  Ok s.1.

(** Lines 135-227: everything decoded from the element tree, with the local
    [to_old_indices]. *)
Definition decodeGeometry `{Collaborators} (m : memory) (element : Element)
    : Outcome (GeometryImpl * list Z) :=
  match findChild m element "Vertices" ≫= first_property with
  | None => Error "Vertices missing"
  | Some vertices_property =>
    match findChild m element "PolygonVertexIndex" ≫= first_property with
    | None => Error "Indices missing"
    | Some polys_property =>
      let geom := empty_geometry in
      r ← parseDoubleVecData m vertices_property (vertices geom);
      if negb r.1 then Error "Failed to parse vertices" else
      let geom := set_vertices r.2 geom in
      r ← parseBinaryArray m polys_property (vertex_indices geom);
      if negb r.1 then Error "Failed to parse indices" else
      let geom := set_vertex_indices r.2 geom in
      let to_old_indices : list Z := [] in
      t ← triangulate (vertex_indices geom) (triangles geom) to_old_indices;
      let geom := set_triangles t.1.2 (set_vertex_indices t.1.1 geom) in
      let to_old_indices := t.2 in
      geom ← decodeMaterialLayer m element geom;
      geom ← decodeAttributeLayers m element geom;
      Ok (geom, to_old_indices)
    end
  end.

(** Lines 229-261: expansion of every buffer, remap of the attributes onto
    the vertex indices and rewriting of the triangle list.  The counter of
    the last loop is an [int] compared with a [size_t]: the loop takes
    [int_turns count] turns. *)
Definition expandForRendering (geom : GeometryImpl) (to_old_indices : list Z)
    : Outcome GeometryImpl :=
  r ← expand (vertices geom) VERTEX_INDICES geom EXCLUDE_VERTEX;
  let geom := set_vertices r.1 r.2 in
  geom ←
    (if negb (bool_decide (length (normals geom) = 0%nat)) then
       r ← expand (normals geom) NORMAL_INDICES geom EXCLUDE_NORMAL;
       let geom := set_normals r.1 r.2 in
       v ← remapForRendering (normals geom) (normal_indices geom) (vertex_indices geom);
       Ok (set_normals v geom)
     else Ok geom);
  geom ←
    (if negb (bool_decide (length (tangents geom) = 0%nat)) then
       r ← expand (tangents geom) TANGENT_INDICES geom EXCLUDE_TANGENT;
       let geom := set_tangents r.1 r.2 in
       v ← remapForRendering (tangents geom) (tangent_indices geom) (vertex_indices geom);
       Ok (set_tangents v geom)
     else Ok geom);
  geom ←
    (if negb (bool_decide (length (colors geom) = 0%nat)) then
       r ← expand (colors geom) COLOR_INDICES geom EXCLUDE_COLOR;
       let geom := set_colors r.1 r.2 in
       v ← remapForRendering (colors geom) (color_indices geom) (vertex_indices geom);
       Ok (set_colors v geom)
     else Ok geom);
  geom ←
    (if negb (bool_decide (length (uvs geom) = 0%nat)) then
       r ← expand (uvs geom) UV_INDICES geom EXCLUDE_UV;
       let geom := set_uvs r.1 r.2 in
       v ← remapForRendering (uvs geom) (uv_indices geom) (vertex_indices geom);
       Ok (set_uvs v geom)
     else Ok geom);
  let count := length (triangles geom) in
  triangles ← for_loop (int_turns count) 0
    (λ i triangles,
       old ← at_ to_old_indices (to_size_t i);
       v ← at_ (vertex_indices geom) (to_size_t old);
       set_at triangles (to_size_t i) v)
    (triangles geom);
  Ok (set_triangles triangles geom).

(** [parseGeometryForRendering(scene, element)]; the scene is only handed to
    the constructor of the geometry. *)
Definition parseGeometryForRendering `{Collaborators} (m : memory) (element : Element)
    : Outcome GeometryImpl :=
  _ ← assert (bool_decide (is_Some (first_property element)));
  d ← decodeGeometry m element;
  expandForRendering d.1 d.2.

(** ** Strings, property chains and the accessors of the scene (ofbxImp.h) *)

(** The loop [while ( *src && length > 1)] of [copyString], by recursion on
    [length], which every turn decrements: [src] is the address the source
    is read at, [dest] the offset in the array behind [destination] the copy
    is stored at. *)
Fixpoint copyString_loop (m : memory) (src dest : Z) (length : nat)
    (destination : list u8) : Outcome (Z * Z * list u8) :=
  match length with
  | S (S _ as length) =>
    if u8_val (m src) =? 0 then Ok (src, dest, destination) else
    destination ← set_at destination dest (m src);
    copyString_loop m (src + 1) (dest + 1) length destination
  | _ => Ok (src, dest, destination)
  end.

(** [copyString<SIZE>(destination, source)]: the returned flag and the array
    behind [destination] afterwards; [source] is [None] for the null
    pointer. *)
Definition copyString (SIZE : nat) (m : memory) (destination : list u8)
    (source : option Z) : Outcome (bool * list u8) :=
  match source with
  | None => Ok (false, destination)
  | Some src =>
    r ← copyString_loop m src 0 SIZE destination;
    destination ← set_at r.2 r.1.2 "000"%byte;
    Ok (u8_val (m r.1.1) =? 0, destination)
  end.

(** The loop of [Element::getProperty]: [n] turns are left, [prop] is the
    property the walk stands on. *)
Fixpoint getProperty_loop (n : nat) (prop : option Property) : option Property :=
  match n with
  | O => prop
  | S n =>
    match prop with
    | None => None
    | Some p => getProperty_loop n (next p)
    end
  end.

(** [Element::getProperty(idx)]; the loop [for (int i = 0; i < idx; ++i)]
    takes no turn when [idx] is negative. *)
Definition getProperty (this : Element) (idx : Z) : option Property :=
  getProperty_loop (Z.to_nat idx) (first_property this).

(** [Scene]: the vectors its accessors read.  The objects, the meshes and
    the animation stacks are held by pointer; what they point to is left
    open. *)
Record Scene (Object Mesh AnimationStack : Type) : Type := mkScene {
  m_all_objects : list Object;
  m_meshes : list Mesh;
  m_animation_stacks : list AnimationStack }.
Arguments mkScene {Object Mesh AnimationStack}.
Arguments m_all_objects {Object Mesh AnimationStack}.
Arguments m_meshes {Object Mesh AnimationStack}.
Arguments m_animation_stacks {Object Mesh AnimationStack}.

(** [Scene::getAnimationStackCount] and [Scene::getMeshCount]: the size of
    the vector as an [int]. *)
Definition getAnimationStackCount {O M A} (this : Scene O M A) : Z :=
  to_int (Z.of_nat (length (m_animation_stacks this))).

Definition getMeshCount {O M A} (this : Scene O M A) : Z :=
  to_int (Z.of_nat (length (m_meshes this))).

(** [Scene::getAnimationStack(index)] and [Scene::getMesh(index)]; the
    second assertion compares the [int] with the size as a [size_t]. *)
Definition getAnimationStack {O M A} (this : Scene O M A) (index : Z) : Outcome A :=
  _ ← assert (0 <=? index);
  _ ← assert (to_size_t index <? Z.of_nat (length (m_animation_stacks this)));
  at_ (m_animation_stacks this) (to_size_t index).

Definition getMesh {O M A} (this : Scene O M A) (index : Z) : Outcome M :=
  _ ← assert (0 <=? index);
  _ ← assert (to_size_t index <? Z.of_nat (length (m_meshes this)));
  at_ (m_meshes this) (to_size_t index).

(** [GeometryImpl::getTriangleCount]. *)
Definition getTriangleCount (this : GeometryImpl) : Z :=
  Z.of_nat (length (triangles this)) ÷ 3.

(** ** The triangulator as the specification words it

    These definitions follow the specification, not the source; the
    theorems on [triangulate] compare the two. *)

(** The decoded value of a stream entry: a negative entry [e] stands for the
    corner [-e - 1]. *)
Definition decode_entry (e : Z) : Z := if e <? 0 then - e - 1 else e.

(** The stream of a polygon given by its corners: every corner as it is, the
    last one as its complement. *)
Definition encode_polygon (p : list Z) : list Z :=
  match p with
  | [] => []
  | _ => removelast p ++ [- List.last p 0 - 1]
  end.

(** Fan triangulation anchored at the first corner: triangle [t] of a polygon
    is (first corner, corner [t + 1], corner [t + 2]). *)
Definition fan_triangles (p : list Z) : list Z :=
  flat_map (λ t, [p !!! 0%nat; p !!! (t + 1)%nat; p !!! (t + 2)%nat])
    (seq 0 (length p - 2)).

(** The stream positions of the corners of the fan of a polygon of [n]
    corners that starts at stream position [start]. *)
Definition fan_positions (start : Z) (n : nat) : list Z :=
  flat_map (λ t, [start; start + Z.of_nat t + 1; start + Z.of_nat t + 2])
    (seq 0 (n - 2)).

Fixpoint stream_fan_positions (start : Z) (polys : list (list Z)) : list Z :=
  match polys with
  | [] => []
  | p :: polys =>
    fan_positions start (length p)
    ++ stream_fan_positions (start + Z.of_nat (length p)) polys
  end.

(** A well-formed stream is made of polygons of three corners or more, every
    corner being a non-negative [int]. *)
Definition well_formed_polygon (p : list Z) : Prop :=
  (3 <= length p)%nat ∧ Forall (λ c, 0 <= c < 2 ^ 31) p.

(** The in-polygon counter after the first [n] turns of the loop of
    [triangulate]. *)
Definition counter_after (old_indices : list Z) (n : nat) : Outcome Z :=
  s ← for_loop n 0 triangulate_body (mkTriangulateState old_indices [] [] 0);
  Ok (ts_in_polygon_idx s).

(** The values of type [int]. *)
Definition is_int (e : Z) : Prop := - 2 ^ 31 <= e < 2 ^ 31.

(** The vector behind [old_indices] after [k] turns of the loop: decoded
    before position [k], untouched from there on. *)
Definition half_decoded (old : list Z) (k : nat) : list Z :=
  (decode_entry <$> take k old) ++ drop k old.

(** What the turn of the loop for corner [k] of the polygon [p] pushes on
    [indices], and on [to_old] when the polygon starts at [start]. *)
Definition corner_output (p : list Z) (k : nat) : list Z :=
  if (k <=? 2)%nat then [p !!! k]
  else [p !!! 0%nat; p !!! (k - 1)%nat; p !!! k].

Definition corner_positions (start : Z) (k : nat) : list Z :=
  if (k <=? 2)%nat then [start + Z.of_nat k]
  else [start; start + Z.of_nat k - 1; start + Z.of_nat k].

(** ** Vertex signatures, member by member *)

(** The exclusion bit and the signature field that go with an index vector of
    the geometry. *)
Definition exclude_bit (f : IndexMember) : Z :=
  match f with
  | VERTEX_INDICES => EXCLUDE_VERTEX
  | NORMAL_INDICES => EXCLUDE_NORMAL
  | TANGENT_INDICES => EXCLUDE_TANGENT
  | COLOR_INDICES => EXCLUDE_COLOR
  | UV_INDICES => EXCLUDE_UV
  end.

Definition field_of (f : IndexMember) (v : VertexData) : Z :=
  match f with
  | VERTEX_INDICES => pos v
  | NORMAL_INDICES => nrm v
  | TANGENT_INDICES => tan v
  | COLOR_INDICES => clr v
  | UV_INDICES => uv v
  end.

#[global] Instance IndexMember_eq_dec : EqDecision IndexMember.
Proof. solve_decision. Defined.

(** The loop position [i], which held the index [e] on entry, is in conflict
    when an earlier position holds that index with a signature that differs
    from the signature of [i]. *)
Definition in_conflict (geom : GeometryImpl) (mask : Z) (final : list Z)
    (i : nat) (e : Z) : Prop :=
  ∃ (j : nat) e' v' v,
    (j < i)%nat ∧ final !! j = Some e' ∧ to_size_t e' = to_size_t e
    ∧ VertexData_of geom (Z.of_nat j) mask = Ok v'
    ∧ VertexData_of geom (Z.of_nat i) mask = Ok v
    ∧ VertexData_ne v' v = true.

(** What holds of the state of the loop of [expand] before the turn of
    position [i], whatever the input: only the vector behind [indices]
    changed in the geometry, and only before [i]; the data grew by copies of
    its entries; every key of the map is the index of an earlier position and
    is bound to the signature of that position; an index that changed is in
    conflict. *)
Definition expand_invariant {T} (data : list T) (f : IndexMember)
    (geom : GeometryImpl) (mask : Z) (i : Z) (s : ExpandState T) : Prop :=
  let cur := get_indices f (es_geom s) in
  es_geom s = set_indices f cur geom
  ∧ length cur = length (get_indices f geom)
  ∧ (∀ j : nat, i <= Z.of_nat j → cur !! j = get_indices f geom !! j)
  ∧ cur !! 0%nat = get_indices f geom !! 0%nat
  ∧ (∃ ext, es_data s = data ++ ext ∧ ∀ x, x ∈ ext → x ∈ data)
  ∧ (∀ k v, es_map s !! k = Some v →
       ∃ (j : nat) e, Z.of_nat j < i ∧ cur !! j = Some e ∧ to_size_t e = k
         ∧ VertexData_of geom (Z.of_nat j) mask = Ok v)
  ∧ (∀ (j : nat) e e0, Z.of_nat j < i → cur !! j = Some e →
       get_indices f geom !! j = Some e0 → e ≠ e0 →
       in_conflict geom mask cur j e0).

(** What holds besides when the indices are valid on entry: they stay
    valid, and the index of every earlier position is bound in the map to
    the signature of that position. *)
Definition expand_valid {T} (data : list T) (f : IndexMember)
    (geom : GeometryImpl) (mask : Z) (i : Z) (s : ExpandState T) : Prop :=
  let cur := get_indices f (es_geom s) in
  Forall (λ e, 0 <= e < Z.of_nat (length (es_data s))) cur
  ∧ Z.of_nat (length (es_data s)) <= Z.of_nat (length data) + (i - 1)
  ∧ (∀ (j : nat) e, Z.of_nat j < i → cur !! j = Some e →
       ∃ v, es_map s !! e = Some v ∧ VertexData_of geom (Z.of_nat j) mask = Ok v).

(** The input that [expand] is written for: at least one loop position,
    indices that are valid for the data, sizes in the range of [int], and
    every other index vector of the geometry empty or as long as the loop. *)
Definition expand_ready {T} (data : list T) (f : IndexMember)
    (geom : GeometryImpl) : Prop :=
  let indices := get_indices f geom in
  (1 <= length indices)%nat
  ∧ Forall (λ e, 0 <= e < Z.of_nat (length data)) indices
  ∧ Z.of_nat (length data) + Z.of_nat (length indices) < 2 ^ 31
  ∧ ∀ f', get_indices f' geom = []
          ∨ (length indices <= length (get_indices f' geom))%nat.

(** ** The decoder as the specification words it *)

(** The element size that goes with the type tag of an array property: 8
    bytes for int64 and double, 4 bytes for int32 and float. *)
Definition array_elem_size (t : u8) : option Z :=
  match t with
  | "l"%byte => Some 8
  | "d"%byte => Some 8
  | "f"%byte => Some 4
  | "i"%byte => Some 4
  | _ => None
  end.

(** The three header words of an array property and the start of its
    payload. *)
Definition header_count (m : memory) (p : Property) : Z := load_u32 m (begin (value p)).
Definition header_encoding (m : memory) (p : Property) : Z :=
  load_u32 m (begin (value p) + 4).
Definition header_byte_length (m : memory) (p : Property) : Z :=
  load_u32 m (begin (value p) + 8).
Definition payload_start (p : Property) : Z := begin (value p) + 12.

(** ** Validity of the geometry record *)

(** The number of entries of the data that goes with an index vector. *)
Definition member_size (f : IndexMember) (g : GeometryImpl) : nat :=
  match f with
  | VERTEX_INDICES => length (vertices g)
  | NORMAL_INDICES => length (normals g)
  | TANGENT_INDICES => length (tangents g)
  | COLOR_INDICES => length (colors g)
  | UV_INDICES => length (uvs g)
  end.

(** Every entry of [indices] is a valid index into a vector of [size]
    entries. *)
Definition indices_below (size : nat) (indices : list Z) : Prop :=
  Forall (λ e, 0 <= e < Z.of_nat size) indices.

(** The decoded arrays refer to entries that exist: every index vector is
    valid for its own data, and the sizes are in the range of [int]. *)
Definition decoded_valid (g : GeometryImpl) : Prop :=
  ∀ f, indices_below (member_size f g) (get_indices f g)
       ∧ Z.of_nat (member_size f g) + Z.of_nat (length (get_indices f g)) < 2 ^ 31.

(** What the assembled record guarantees: every index vector is valid for
    its own data, the vertex indices and the triangles are valid for the
    positions and for every attribute array that is not empty. *)
Definition rendering_valid (g : GeometryImpl) : Prop :=
  (∀ f, indices_below (member_size f g) (get_indices f g))
  ∧ indices_below (length (vertices g)) (triangles g)
  ∧ ∀ f, member_size f g ≠ 0%nat →
         indices_below (member_size f g) (vertex_indices g)
         ∧ indices_below (member_size f g) (triangles g).

(** The shape of the decoded record: every index vector is empty or has one
    entry per loop vertex, there is a loop vertex, and (the loop vertices
    being fewer than 2^31) [to_old_indices] holds one loop position per
    triangle corner. *)
Definition decoded_shape (g : GeometryImpl) (to_old_indices : list Z) : Prop :=
  (∀ f, get_indices f g = []
        ∨ length (get_indices f g) = length (vertex_indices g))
  ∧ vertex_indices g ≠ []
  ∧ (Z.of_nat (length (vertex_indices g)) < 2 ^ 31 →
     length (triangles g) = length to_old_indices
     ∧ (length (triangles g) <= 3 * length (vertex_indices g))%nat
     ∧ indices_below (length (vertex_indices g)) to_old_indices).

(** What the decoding of the attribute layers leaves of a geometry: the
    positions, the loop vertices and the triangles as they were, every other
    index vector as it was or with one entry per loop vertex. *)
Definition layers_decoded (g g' : GeometryImpl) : Prop :=
  vertices g' = vertices g
  ∧ vertex_indices g' = vertex_indices g
  ∧ triangles g' = triangles g
  ∧ ∀ f, get_indices f g' = get_indices f g
         ∨ length (get_indices f g') = length (vertex_indices g).

(** What holds of the geometry between the blocks of the expansion, [n]
    being the number of loop vertices and [pending] the index vectors whose
    block has not run yet: the shape is kept, every index vector is valid
    for its own data, the data of a pending vector leaves room for one new
    entry per index, and the vertex indices are valid for the data of every
    attribute whose block has run. *)
Definition assembly_invariant (n : nat) (pending : list IndexMember)
    (g : GeometryImpl) : Prop :=
  length (vertex_indices g) = n
  ∧ (∀ f, get_indices f g = [] ∨ length (get_indices f g) = n)
  ∧ (∀ f, indices_below (member_size f g) (get_indices f g))
  ∧ Z.of_nat (member_size VERTEX_INDICES g) < 2 ^ 31
  ∧ (∀ f, f ∈ pending →
          Z.of_nat (member_size f g) + Z.of_nat (length (get_indices f g)) < 2 ^ 31)
  ∧ (∀ f, f ∉ pending → member_size f g ≠ 0%nat →
          indices_below (member_size f g) (vertex_indices g)).

(** ** Strings and property chains as their users see them *)

(** The memory holds at [p] the characters [s], none of them zero, and then
    the zero that ends the string. *)
Definition c_string (m : memory) (p : Z) (s : list u8) : Prop :=
  load_bytes m p (Z.of_nat (length s)) = s
  ∧ Forall (λ c, c ≠ "000"%byte) s
  ∧ m (p + Z.of_nat (length s)) = "000"%byte.

(** The string a character array holds: its characters before the first
    zero. *)
Fixpoint array_string (a : list u8) : list u8 :=
  match a with
  | [] => []
  | c :: a => if bool_decide (c = "000"%byte) then [] else c :: array_string a
  end.

(** The properties of an element, in the order of the chain. *)
Fixpoint property_chain (p : Property) : list Property :=
  match p with
  | mkProperty _ _ next_property =>
    p :: match next_property with
         | Some q => property_chain q
         | None => []
         end
  end.

Definition properties (e : Element) : list Property :=
  match first_property e with
  | Some p => property_chain p
  | None => []
  end.

(** ** Values and their bytes *)

(** Every value of the type is stored on [sizeof T] bytes. *)
Definition pod_sized (T : Type) `{Pod T} : Prop :=
  ∀ v : T, length (to_bytes v) = Z.to_nat (sizeof T).

(** A value that its bytes give back. *)
Definition pod_exact `{Pod T} (v : T) : Prop := of_bytes (to_bytes v) = v.

(** A [double] is a pattern of 64 bits, a [float] one of 32 bits. *)
Definition is_double (d : double) : Prop := 0 <= double_bits d < 2 ^ 64.
Definition is_float (f : float) : Prop := 0 <= float_bits f < 2 ^ 32.

(** Every record of the type has [dim T] fields, at least one and fewer
    than 2^31, and is given back by them. *)
Definition fields_sized (T : Type) `{DoubleVec T} : Prop :=
  0 < Z.of_nat (dim T) < 2 ^ 31
  ∧ (∀ v : T, length (fields v) = dim T)
  ∧ (∀ v : T, of_fields (fields v) = v)
  ∧ (∀ ds, length ds = dim T → fields (of_fields (T := T) ds) = ds).

(** The [double] a [float] is converted to. *)
Definition widen `{Collaborators} (f : float) : double :=
  mkDouble (float_to_double (float_bits f)).

(** ** Corners and the stream positions they come from *)

(** The corner [idx], emitted with the stream position [pos]: the position
    is one of the first [k] of the stream [old], and the corner is the
    decoded entry at that position. *)
Definition corner_of (old : list Z) (k : nat) (idx pos : Z) : Prop :=
  0 <= pos < Z.of_nat k ∧ (decode_entry <$> old) !! Z.to_nat pos = Some idx.

(** What a polygon of any number of corners is turned into: a polygon of one
    or two corners is emitted as it is, a polygon of three corners or more
    as its fan. *)
Definition polygon_output (p : list Z) : list Z :=
  if (length p <=? 2)%nat then p else fan_triangles p.

(** ** Values seen through the indices *)

(** Every loop position sees, through its index, the value it saw on
    entry. *)
Definition expand_values {T} (data : list T) (f : IndexMember)
    (geom : GeometryImpl) (s : ExpandState T) : Prop :=
  ∀ (j : nat) e e0,
    get_indices f (es_geom s) !! j = Some e →
    get_indices f geom !! j = Some e0 →
    es_data s !! Z.to_nat e = data !! Z.to_nat e0.

(** No two loop positions that hold the same index have different
    signatures. *)
Definition conflict_free (f : IndexMember) (geom : GeometryImpl) (mask : Z) : Prop :=
  ∀ (i j : nat) e e' v v',
    (j < i)%nat →
    get_indices f geom !! j = Some e' →
    get_indices f geom !! i = Some e →
    to_size_t e' = to_size_t e →
    VertexData_of geom (Z.of_nat j) mask = Ok v' →
    VertexData_of geom (Z.of_nat i) mask = Ok v →
    v' = v.

(** ** Remap *)

(** What [remapForRendering] needs of its arguments: a mapping entry for
    each index, every index and every mapping entry used valid for the
    vector. *)
Definition remap_valid {T} (out : list T) (indices mapping : list Z) : Prop :=
  (length indices <= length mapping)%nat
  ∧ indices_below (length out) indices
  ∧ indices_below (length out) (take (length indices) mapping).

(** The slots that the mapping writes more than once are written the same
    value each time. *)
Definition remap_consistent {T} (out : list T) (indices mapping : list Z) : Prop :=
  ∀ (i j : nat) e ref ref',
    mapping !! i = Some e → mapping !! j = Some e →
    indices !! i = Some ref → indices !! j = Some ref' →
    out !! Z.to_nat ref = out !! Z.to_nat ref'.

(** ** Control points that are all in use *)

(** Every entry of a vector of [size] entries is referred to by one of the
    indices. *)
Definition all_referenced (size : nat) (indices : list Z) : Prop :=
  ∀ e, 0 <= e < Z.of_nat size → e ∈ indices.

(** What holds of the state of the loop of [expand] besides: an index that
    changed refers to a new entry, and every new entry is referred to. *)
Definition expand_covers {T} (data : list T) (f : IndexMember)
    (geom : GeometryImpl) (s : ExpandState T) : Prop :=
  let cur := get_indices f (es_geom s) in
  (∀ (j : nat) e e0,
     cur !! j = Some e → get_indices f geom !! j = Some e0 → e ≠ e0 →
     Z.of_nat (length data) <= e)
  ∧ (∀ e, Z.of_nat (length data) <= e < Z.of_nat (length (es_data s)) → e ∈ cur).

(** Every vector of the geometry that holds data comes with indices, and
    there is a loop vertex. *)
Definition layers_indexed (g : GeometryImpl) : Prop :=
  vertex_indices g ≠ []
  ∧ ∀ f, member_size f g ≠ 0%nat → get_indices f g ≠ [].

(** ** Sample files *)

(** A file image as the memory it is loaded in. *)
Definition memory_of (image : list u8) : memory :=
  λ a, if a <? 0 then "000"%byte else default "000"%byte (image !! Z.to_nat a).

(** The window of the [k]-th chunk of an image made of consecutive chunks. *)
Definition chunk_view (chunks : list (list u8)) (k : nat) : DataView :=
  let start := Z.of_nat (length (concat (take k chunks))) in
  mkDataView start (start + Z.of_nat (length (default [] (chunks !! k)))).

(** An array payload: count, encoding, byte length and the bytes. *)
Definition array_payload (count enc : Z) (bytes : list u8) : list u8 :=
  le_bytes 4 count ++ le_bytes 4 enc ++ le_bytes 4 (Z.of_nat (length bytes)) ++ bytes.

Definition int_array (l : list Z) : list u8 :=
  array_payload (Z.of_nat (length l)) 0 (l ≫= le_bytes 4).

Definition double_array (l : list Z) : list u8 :=
  array_payload (Z.of_nat (length l)) 0 (l ≫= le_bytes 8).

(** A leaf element with one property. *)
Definition leaf (chunks : list (list u8)) (name : nat) (ty : u8) (payload : nat)
    (next_sibling : option Element) : Element :=
  mkElement (chunk_view chunks name) None next_sibling
    (Some (mkProperty ty (chunk_view chunks payload) None)).

(** The collaborators of the samples: nothing inflates, bit patterns are
    kept. *)
Definition sample_collaborators : Collaborators :=
  {| decompress := λ _ _, (false, []); float_to_double := λ z, z |}.

(** A geometry holding only index vectors, for the samples of [expand]. *)
Definition geometry_of_indices (vertex uv : list Z) : GeometryImpl :=
  set_uv_indices uv (set_vertex_indices vertex empty_geometry).

(** Two control points, three loop positions: position 1 shares the control
    point 0 with position 0 under another UV. *)
Definition shared_corner_geometry : GeometryImpl :=
  geometry_of_indices [0; 0; 1] [0; 1; 2].

(** Two control points and a first loop position whose index, 2, is not
    valid for them. *)
Definition stray_index_geometry : GeometryImpl :=
  geometry_of_indices [2; 0; 0] [0; 1; 2].

(** An [int] array property whose header declares a raw payload of 2^31
    bytes (count 2^29, encoding 0, byte length 0x80000000) and whose window
    holds all of it. *)
Definition huge_raw_memory : memory :=
  λ a, if a =? 3 then "032"%byte else if a =? 11 then "128"%byte else "000"%byte.

Definition huge_raw_property : Property :=
  mkProperty "i" (mkDataView 0 (12 + 2 ^ 31)) None.

(** A [double] array property whose header declares a compressed payload of
    0x10000000 elements (encoding 1, no compressed byte). *)
Definition wide_count_memory : memory :=
  memory_of (le_bytes 4 0x10000000 ++ le_bytes 4 1 ++ le_bytes 4 0).

Definition wide_count_property : Property :=
  mkProperty "d" (mkDataView 0 12) None.

(** An inflate that stores as many bytes as the capacity it is told allows,
    up to sixteen. *)
Definition greedy_collaborators : Collaborators :=
  {| decompress := λ _ out_size, (true, replicate (Z.to_nat (Z.min out_size 16)) "255"%byte);
     float_to_double := λ z, z |}.

(** A [double] array property that declares four elements and a raw payload
    of 24 bytes, the bytes of three. *)
Definition short_payload_memory : memory :=
  memory_of (array_payload 4 0 ([1; 2; 3] ≫= le_bytes 8)).

Definition short_payload_property : Property :=
  mkProperty "d" (mkDataView 0 36) None.

(** A well-formed [int] array property of three elements, raw. *)
Definition three_ints_memory : memory := memory_of (int_array [7; 8; 9]).

Definition three_ints_property : Property :=
  mkProperty "i" (mkDataView 0 24) None.

(** A [double] array property that declares four elements, compressed. *)
Definition four_doubles_memory : memory :=
  memory_of (le_bytes 4 4 ++ le_bytes 4 1 ++ le_bytes 4 0).

Definition four_doubles_property : Property :=
  mkProperty "d" (mkDataView 0 12) None.

(** Two triangles on four positions that share an edge, with one normal
    shared by the six corners (mapping ByPolygonVertex, reference
    IndexToDirect, every index 0). *)
Definition flat_quad_chunks : list (list u8) :=
  [ list_byte_of_string "Geometry";
    list_byte_of_string "Vertices";
    double_array [0; 0; 0; 1; 0; 0; 1; 1; 0; 0; 1; 0];
    list_byte_of_string "PolygonVertexIndex";
    int_array [0; 1; -3; 0; 2; -4];
    list_byte_of_string "LayerElementNormal";
    list_byte_of_string "Normals";
    double_array [0; 0; 1];
    list_byte_of_string "MappingInformationType";
    list_byte_of_string "ByPolygonVertex";
    list_byte_of_string "ReferenceInformationType";
    list_byte_of_string "IndexToDirect";
    list_byte_of_string "NormalsIndex";
    int_array [0; 0; 0; 0; 0; 0];
    list_byte_of_string "1" ].

Definition flat_quad_memory : memory := memory_of (concat flat_quad_chunks).

Definition flat_quad_geometry : Element :=
  let c := flat_quad_chunks in
  let normal_layer :=
    mkElement (chunk_view c 5)
      (Some (leaf c 6 "d" 7
        (Some (leaf c 8 "S" 9
          (Some (leaf c 10 "S" 11
            (Some (leaf c 12 "i" 13 None))))))))
      None None in
  mkElement (chunk_view c 0)
    (Some (leaf c 1 "d" 2 (Some (leaf c 3 "i" 4 (Some normal_layer)))))
    None
    (Some (mkProperty "L" (chunk_view c 14) None)).

Definition flat_quad_decoded : GeometryImpl * list Z :=
  Eval vm_compute in
    match @decodeGeometry sample_collaborators flat_quad_memory flat_quad_geometry with
    | Ok d => d
    | _ => (empty_geometry, [])
    end.

Definition flat_quad_assembled : GeometryImpl :=
  Eval vm_compute in
    match @parseGeometryForRendering sample_collaborators flat_quad_memory
            flat_quad_geometry with
    | Ok g => g
    | _ => empty_geometry
    end.

(** ** Further sample files *)

(** A [float] array: count, raw encoding, and the bit patterns. *)
Definition float_array (l : list Z) : list u8 :=
  array_payload (Z.of_nat (length l)) 0 (l ≫= le_bytes 4).

(** A [float] array property of six elements, and one of four. *)
Definition six_floats_memory : memory := memory_of (float_array [1; 2; 3; 4; 5; 6]).
Definition six_floats_property : Property := mkProperty "f" (mkDataView 0 36) None.

Definition four_floats_memory : memory := memory_of (float_array [1; 2; 3; 4]).
Definition four_floats_property : Property := mkProperty "f" (mkDataView 0 28) None.

(** One triangle on three positions, and nothing else. *)
Definition plain_triangle_chunks : list (list u8) :=
  [ list_byte_of_string "Geometry";
    list_byte_of_string "Vertices";
    double_array [0; 0; 0; 1; 0; 0; 0; 1; 0];
    list_byte_of_string "PolygonVertexIndex";
    int_array [0; 1; -3];
    list_byte_of_string "1" ].

Definition plain_triangle_memory : memory := memory_of (concat plain_triangle_chunks).

Definition plain_triangle_geometry : Element :=
  let c := plain_triangle_chunks in
  mkElement (chunk_view c 0)
    (Some (leaf c 1 "d" 2 (Some (leaf c 3 "i" 4 None))))
    None
    (Some (mkProperty "L" (chunk_view c 5) None)).

(** The same triangle with its positions stored as an [int] array. *)
Definition int_positions_chunks : list (list u8) :=
  [ list_byte_of_string "Geometry";
    list_byte_of_string "Vertices";
    int_array [0; 0; 0; 1; 0; 0; 0; 1; 0];
    list_byte_of_string "PolygonVertexIndex";
    int_array [0; 1; -3];
    list_byte_of_string "1" ].

Definition int_positions_memory : memory := memory_of (concat int_positions_chunks).

Definition int_positions_geometry : Element :=
  let c := int_positions_chunks in
  mkElement (chunk_view c 0)
    (Some (leaf c 1 "i" 2 (Some (leaf c 3 "i" 4 None))))
    None
    (Some (mkProperty "L" (chunk_view c 5) None)).

(** A geometry whose only layer is a normal layer that names its reference
    ("Direct") and no mapping. *)
Definition unmapped_normals_chunks : list (list u8) :=
  [ list_byte_of_string "Geometry";
    list_byte_of_string "LayerElementNormal";
    list_byte_of_string "Normals";
    double_array [0; 0; 1];
    list_byte_of_string "ReferenceInformationType";
    list_byte_of_string "Direct" ].

Definition unmapped_normals_memory : memory :=
  memory_of (concat unmapped_normals_chunks).

Definition unmapped_normals_layer : Element :=
  let c := unmapped_normals_chunks in
  mkElement (chunk_view c 1)
    (Some (leaf c 2 "d" 3 (Some (leaf c 4 "S" 5 None))))
    None None.

Definition unmapped_normals_geometry : Element :=
  mkElement (chunk_view unmapped_normals_chunks 0)
    (Some unmapped_normals_layer) None None.

(** One triangle on the positions 0, 1 and 4 of five, with one normal for
    each of its three corners (mapping ByPolygonVertex, reference Direct):
    the positions 2 and 3 are in no polygon. *)
Definition spare_position_chunks : list (list u8) :=
  [ list_byte_of_string "Geometry";
    list_byte_of_string "Vertices";
    double_array [0; 0; 0; 1; 0; 0; 2; 0; 0; 3; 0; 0; 0; 1; 0];
    list_byte_of_string "PolygonVertexIndex";
    int_array [0; 1; -5];
    list_byte_of_string "LayerElementNormal";
    list_byte_of_string "Normals";
    double_array [0; 0; 1; 0; 0; 1; 0; 0; 1];
    list_byte_of_string "MappingInformationType";
    list_byte_of_string "ByPolygonVertex";
    list_byte_of_string "ReferenceInformationType";
    list_byte_of_string "Direct";
    list_byte_of_string "1" ].

Definition spare_position_memory : memory := memory_of (concat spare_position_chunks).

Definition spare_position_geometry : Element :=
  let c := spare_position_chunks in
  let normal_layer :=
    mkElement (chunk_view c 5)
      (Some (leaf c 6 "d" 7
        (Some (leaf c 8 "S" 9
          (Some (leaf c 10 "S" 11 None))))))
      None None in
  mkElement (chunk_view c 0)
    (Some (leaf c 1 "d" 2 (Some (leaf c 3 "i" 4 (Some normal_layer)))))
    None
    (Some (mkProperty "L" (chunk_view c 12) None)).

Definition spare_position_decoded : GeometryImpl * list Z :=
  Eval vm_compute in
    match @decodeGeometry sample_collaborators spare_position_memory
            spare_position_geometry with
    | Ok d => d
    | _ => (empty_geometry, [])
    end.

(** * Properties *)

(** ** Machine integers and vector accesses *)

Lemma to_int_small z : - 2 ^ 31 <= z < 2 ^ 31 → to_int z = z.
Proof.
  intros Hz. unfold to_int.
  rewrite Z.mod_small by lia. lia.
Qed.

Lemma to_int_range z : - 2 ^ 31 <= to_int z < 2 ^ 31.
Proof.
  unfold to_int.
  pose proof (Z.mod_pos_bound (z + 2 ^ 31) (2 ^ 32)). lia.
Qed.

Lemma to_size_t_small z : 0 <= z < 2 ^ 64 → to_size_t z = z.
Proof. intros Hz. unfold to_size_t. apply Z.mod_small. lia. Qed.

Lemma to_u32_small z : 0 <= z < 2 ^ 32 → to_u32 z = z.
Proof. intros Hz. unfold to_u32. apply Z.mod_small. lia. Qed.

Lemma at_lookup {A} (v : list A) (n : nat) a :
  v !! n = Some a → at_ v (Z.of_nat n) = Ok a.
Proof.
  intros Hl. unfold at_.
  pose proof (lookup_lt_Some _ _ _ Hl) as Hlt.
  replace (0 <=? Z.of_nat n) with true by (symmetry; apply Z.leb_le; lia).
  replace (Z.of_nat n <? Z.of_nat (length v)) with true
    by (symmetry; apply Z.ltb_lt; lia).
  simpl. rewrite Nat2Z.id, Hl. reflexivity.
Qed.

Lemma at_Ok {A} (v : list A) i a :
  at_ v i = Ok a → 0 <= i < Z.of_nat (length v) ∧ v !! Z.to_nat i = Some a.
Proof.
  unfold at_. intros H.
  destruct (0 <=? i) eqn:H0; [|discriminate].
  destruct (i <? Z.of_nat (length v)) eqn:H1; [|discriminate].
  simpl in H. apply Z.leb_le in H0. apply Z.ltb_lt in H1.
  destruct (v !! Z.to_nat i) eqn:Hl; [|discriminate].
  split; [lia|congruence].
Qed.

Lemma at_in_range {A} (v : list A) i :
  0 <= i < Z.of_nat (length v) → ∃ a, at_ v i = Ok a ∧ v !! Z.to_nat i = Some a.
Proof.
  intros Hi.
  destruct (lookup_lt_is_Some_2 v (Z.to_nat i)) as [a Ha]; [lia|].
  exists a. split; [|done].
  rewrite <- (Z2Nat.id i) by lia. by apply at_lookup.
Qed.

Lemma set_at_Ok {A} (v : list A) i a v' :
  set_at v i a = Ok v' →
  0 <= i < Z.of_nat (length v) ∧ v' = <[Z.to_nat i := a]> v.
Proof.
  unfold set_at. intros H.
  destruct (0 <=? i) eqn:H0; [|discriminate].
  destruct (i <? Z.of_nat (length v)) eqn:H1; [|discriminate].
  simpl in H. apply Z.leb_le in H0. apply Z.ltb_lt in H1.
  split; [lia|congruence].
Qed.

Lemma set_at_in_range {A} (v : list A) i a :
  0 <= i < Z.of_nat (length v) → set_at v i a = Ok (<[Z.to_nat i := a]> v).
Proof.
  intros Hi. unfold set_at.
  replace (0 <=? i) with true by (symmetry; apply Z.leb_le; lia).
  replace (i <? Z.of_nat (length v)) with true by (symmetry; apply Z.ltb_lt; lia).
  reflexivity.
Qed.

Lemma bind_Ok {A B} (m : Outcome A) (f : A → Outcome B) b :
  m ≫= f = Ok b → ∃ a, m = Ok a ∧ f a = Ok b.
Proof. destruct m; simpl; intros H; try discriminate. eauto. Qed.

(** Inversion of a chain of binds that returned normally. *)
Tactic Notation "inv_bind" hyp(H) :=
  let a := fresh "a" in
  let Ha := fresh "Ha" in
  apply bind_Ok in H; destruct H as (a & Ha & H).

Tactic Notation "inv_bind" hyp(H) "as" ident(a) ident(Ha) :=
  apply bind_Ok in H; destruct H as (a & Ha & H).

(** ** Loops with a fixed bound *)

Section for_loop.
Context {St : Type}.
Implicit Types (body : Z → St → Outcome St) (s : St).

Lemma for_loop_app n1 n2 lo body s :
  for_loop (n1 + n2) lo body s =
  s' ← for_loop n1 lo body s; for_loop n2 (lo + Z.of_nat n1) body s'.
Proof.
  revert lo s. induction n1 as [|n1 IH]; intros lo s.
  - simpl. f_equal. lia.
  - simpl. destruct (body lo s) as [s'| | |]; simpl; try reflexivity.
    rewrite IH. replace (lo + 1 + Z.of_nat n1) with (lo + Z.of_nat (S n1)) by lia.
    reflexivity.
Qed.

Lemma for_loop_snoc n lo body s :
  for_loop (S n) lo body s =
  s' ← for_loop n lo body s; body (lo + Z.of_nat n) s'.
Proof.
  replace (S n) with (n + 1)%nat by lia. rewrite for_loop_app.
  destruct (for_loop n lo body s) as [s'| | |]; simpl; try reflexivity.
  destruct (body (lo + Z.of_nat n) s'); reflexivity.
Qed.

(** A loop that returns establishes its invariant. *)
Lemma for_loop_invariant (P : Z → St → Prop) n lo body s r :
  P lo s →
  (∀ i s s', lo <= i < lo + Z.of_nat n → P i s → body i s = Ok s' → P (i + 1) s') →
  for_loop n lo body s = Ok r →
  P (lo + Z.of_nat n) r.
Proof.
  revert lo s. induction n as [|n IH]; intros lo s HP Hstep Hrun.
  - simpl in Hrun. injection Hrun as <-. by replace (lo + Z.of_nat 0) with lo by lia.
  - simpl in Hrun. inv_bind Hrun.
    replace (lo + Z.of_nat (S n)) with (lo + 1 + Z.of_nat n) by lia.
    apply (IH (lo + 1) a); [|intros i s1 s2 Hi; apply Hstep; lia|done].
    apply (Hstep lo s a); [lia|done|done].
Qed.

(** A loop whose body returns under the invariant returns. *)
Lemma for_loop_total (P : Z → St → Prop) n lo body s :
  P lo s →
  (∀ i s, lo <= i < lo + Z.of_nat n → P i s → ∃ s', body i s = Ok s' ∧ P (i + 1) s') →
  ∃ r, for_loop n lo body s = Ok r ∧ P (lo + Z.of_nat n) r.
Proof.
  revert lo s. induction n as [|n IH]; intros lo s HP Hstep.
  - exists s. simpl. split; [done|]. by replace (lo + Z.of_nat 0) with lo by lia.
  - destruct (Hstep lo s) as (s' & Hs' & HP'); [lia|done|].
    destruct (IH (lo + 1) s') as (r & Hr & HPr); [done|intros i s1 Hi; apply Hstep; lia|].
    exists r. simpl. rewrite Hs'. simpl. split; [done|].
    by replace (lo + Z.of_nat (S n)) with (lo + 1 + Z.of_nat n) by lia.
Qed.
End for_loop.

(** ** Default index generation *)

Lemma identity_loop (count : nat) :
  Z.of_nat count <= 2 ^ 31 →
  for_loop count 0 (λ i indices, set_at indices (to_size_t i) i) (replicate count 0)
  = Ok (seqZ 0 (Z.of_nat count)).
Proof.
  intros Hc.
  destruct (for_loop_total
    (λ i (l : list Z), ∃ k : nat, i = Z.of_nat k ∧ (k <= count)%nat ∧
       l = seqZ 0 i ++ replicate (count - k) 0)
    count 0 (λ i indices, set_at indices (to_size_t i) i) (replicate count 0))
    as (r & Hr & k & Hk & Hle & ->).
  - exists 0%nat. split; [done|]. split; [lia|]. simpl. by rewrite Nat.sub_0_r.
  - intros i l Hi (k & -> & Hle & ->).
    rewrite to_size_t_small by lia.
    rewrite set_at_in_range
      by (rewrite length_app, length_seqZ, length_replicate; lia).
    eexists. split; [reflexivity|]. exists (S k). split; [lia|]. split; [lia|].
    rewrite Nat2Z.id.
    replace k with (length (seqZ 0 (Z.of_nat k)) + 0)%nat at 1
      by (rewrite length_seqZ; lia).
    rewrite insert_app_r.
    replace (count - k)%nat with (S (count - S k)) by lia. simpl.
    replace (Z.of_nat k + 1) with (Z.of_nat (S k)) by lia.
    rewrite seqZ_S, <- app_assoc. reflexivity.
  - rewrite Hr. f_equal.
    assert (k = count) as -> by lia.
    rewrite Nat.sub_diag. simpl. by rewrite app_nil_r.
Qed.

(** C5.  When the index vector of a layer is empty, [generateIndices] stores
    the identity sequence 0 .. N-1 over the N loop vertices for the mapping
    BY_POLYGON_VERTEX, a copy of [vertex_indices] for BY_VERTEX, and stops on
    a failed assertion for BY_POLYGON.  The layer holds data and the
    geometry holds loop vertices (the two assertions at the head of the
    function), N being in the range of the [int] counter. *)
Theorem generateIndices_default {T} (data : list T) (vertiex_indices : list Z) :
  data ≠ [] →
  vertiex_indices ≠ [] →
  Z.of_nat (length vertiex_indices) <= 2 ^ 31 →
  generateIndices [] data BY_POLYGON_VERTEX vertiex_indices
    = Ok (seqZ 0 (Z.of_nat (length vertiex_indices)))
  ∧ generateIndices [] data BY_VERTEX vertiex_indices = Ok vertiex_indices
  ∧ generateIndices [] data BY_POLYGON vertiex_indices = AssertFailed.
Proof.
  intros Hd Hv Hn. unfold generateIndices.
  rewrite (bool_decide_eq_false_2 (length data = 0%nat)) by (by destruct data).
  rewrite (bool_decide_eq_false_2 (length vertiex_indices = 0%nat))
    by (by destruct vertiex_indices).
  rewrite (bool_decide_eq_true_2 (length (@nil Z) = 0%nat)) by done.
  cbn [negb assert mbind Outcome_bind]. rewrite resize_nil.
  split; [|split].
  - by apply identity_loop.
  - rewrite firstn_all. rewrite drop_ge by (rewrite length_replicate; lia).
    by rewrite app_nil_r.
  - reflexivity.
Qed.

Lemma generateIndices_default_witness :
  generateIndices [] [mkVec2 (mkDouble 0) (mkDouble 0)] BY_POLYGON_VERTEX [4; 7; 4]
    = Ok [0; 1; 2]
  ∧ generateIndices [] [mkVec2 (mkDouble 0) (mkDouble 0)] BY_VERTEX [4; 7; 4]
    = Ok [4; 7; 4]
  ∧ generateIndices [] [mkVec2 (mkDouble 0) (mkDouble 0)] BY_POLYGON [4; 7; 4]
    = AssertFailed.
Proof.
  apply (generateIndices_default [mkVec2 (mkDouble 0) (mkDouble 0)] [4; 7; 4]).
  - discriminate.
  - discriminate.
  - simpl. lia.
Defined.

(** Whatever [generateIndices] leaves behind has one entry per loop vertex. *)
Lemma generateIndices_length {T} indices (data : list T) mapping vertiex_indices r :
  generateIndices indices data mapping vertiex_indices = Ok r →
  length r = length vertiex_indices.
Proof.
  unfold generateIndices. intros H.
  inv_bind H. inv_bind H.
  destruct (bool_decide (length indices = 0%nat)) eqn:He; cbn [negb] in H.
  - destruct mapping.
    + apply (for_loop_invariant (λ _ (l : list Z), length l = length vertiex_indices))
        in H; [done| |].
      * by rewrite length_resize.
      * intros i s s' _ Hs Hset. apply set_at_Ok in Hset as [_ ->].
        by rewrite length_insert.
    + inv_bind H. discriminate.
    + injection H as <-.
      rewrite length_app, length_take, length_drop, length_resize. lia.
  - inv_bind H. injection H as <-.
    unfold assert in Ha1. case_bool_decide; [done|discriminate].
Qed.

(** ** Polygon triangulator *)

Lemma getIdx_decode e :
  is_int e → (if e <? 0 then to_int (to_int (- e) - 1) else e) = decode_entry e.
Proof.
  unfold is_int, decode_entry. intros He.
  destruct (e <? 0) eqn:Hneg; [|done]. apply Z.ltb_lt in Hneg.
  destruct (decide (e = - 2 ^ 31)) as [->|Hne]; [done|].
  rewrite (to_int_small (- e)) by lia. apply to_int_small. lia.
Qed.

Lemma decode_entry_nonneg e : is_int e → 0 <= decode_entry e < 2 ^ 31.
Proof.
  unfold is_int, decode_entry. intros He.
  destruct (e <? 0) eqn:Hneg; [apply Z.ltb_lt in Hneg|apply Z.ltb_ge in Hneg]; lia.
Qed.

Lemma length_half_decoded old k : length (half_decoded old k) = length old.
Proof.
  unfold half_decoded.
  rewrite length_app, length_fmap, length_take, length_drop. lia.
Qed.

Lemma half_decoded_lookup_ge old k j :
  (k <= j)%nat → half_decoded old k !! j = old !! j.
Proof.
  intros Hj. unfold half_decoded.
  destruct (decide (k <= length old)%nat) as [Hk|Hk].
  - rewrite lookup_app_r; rewrite length_fmap, length_take; [|lia].
    rewrite lookup_drop. f_equal. lia.
  - rewrite drop_ge by lia. rewrite app_nil_r, take_ge by lia.
    rewrite list_lookup_fmap. rewrite (lookup_ge_None_2 old j) by lia. done.
Qed.

Lemma half_decoded_step old k e :
  old !! k = Some e →
  <[k := decode_entry e]> (half_decoded old k) = half_decoded old (S k).
Proof.
  intros He. unfold half_decoded.
  pose proof (lookup_lt_Some _ _ _ He) as Hlt.
  rewrite (take_S_r _ _ _ He), fmap_app, <- app_assoc. simpl.
  rewrite (drop_S _ _ _ He).
  replace k with (length (decode_entry <$> take k old) + 0)%nat at 1
    by (rewrite length_fmap, length_take; lia).
  by rewrite insert_app_r.
Qed.

Lemma half_decoded_keep old k e :
  old !! k = Some e → 0 <= e → half_decoded old k = half_decoded old (S k).
Proof.
  intros He Hpos. rewrite <- (half_decoded_step old k e He).
  symmetry. apply list_insert_id.
  rewrite half_decoded_lookup_ge by lia. rewrite He. f_equal.
  unfold decode_entry. by rewrite (proj2 (Z.ltb_ge e 0)).
Qed.

(** One turn of the loop on a stream of [int]s shorter than 2^31. *)
Lemma triangulate_body_turn old k s e :
  Forall is_int old →
  Z.of_nat (length old) < 2 ^ 31 →
  old !! k = Some e →
  ts_old_indices s = half_decoded old k →
  0 <= ts_in_polygon_idx s <= Z.of_nat k →
  ∃ s', triangulate_body (Z.of_nat k) s = Ok s'
    ∧ ts_old_indices s' = half_decoded old (S k)
    ∧ ts_in_polygon_idx s' = (if e <? 0 then 0 else ts_in_polygon_idx s + 1).
Proof.
  intros Hint Hlen He Hold Hipi.
  pose proof (lookup_lt_Some _ _ _ He) as Hlt.
  assert (is_int e) as Hie by (eapply Forall_lookup_1; eauto).
  unfold triangulate_body, getIdx. rewrite Hold.
  rewrite (to_size_t_small (Z.of_nat k)) by lia.
  rewrite (at_lookup _ k e) by (by rewrite half_decoded_lookup_ge).
  cbn [mbind Outcome_bind]. rewrite getIdx_decode by done.
  destruct (ts_in_polygon_idx s <=? 2) eqn:Hcase.
  - cbn [mbind Outcome_bind fst snd].
    rewrite (to_int_small (ts_in_polygon_idx s + 1)) by lia.
    destruct (e <? 0) eqn:Hneg.
    + rewrite set_at_in_range by (rewrite length_half_decoded; lia).
      cbn [mbind Outcome_bind]. eexists. split; [reflexivity|].
      cbn [ts_old_indices ts_in_polygon_idx ts_indices ts_to_old].
      rewrite Nat2Z.id.
      split; [by apply half_decoded_step|done].
    + eexists. split; [reflexivity|].
      cbn [ts_old_indices ts_in_polygon_idx ts_indices ts_to_old].
      apply Z.ltb_ge in Hneg.
      split; [by apply (half_decoded_keep old k e)|done].
  - apply Z.leb_gt in Hcase.
    rewrite (to_int_small (Z.of_nat k - ts_in_polygon_idx s)) by lia.
    rewrite (to_int_small (Z.of_nat k - 1)) by lia.
    rewrite !to_size_t_small by lia.
    destruct (at_in_range (half_decoded old k) (Z.of_nat k - ts_in_polygon_idx s))
      as (c0 & -> & _); [rewrite length_half_decoded; lia|].
    destruct (at_in_range (half_decoded old k) (Z.of_nat k - 1))
      as (c1 & -> & _); [rewrite length_half_decoded; lia|].
    cbn [mbind Outcome_bind fst snd].
    rewrite (to_int_small (ts_in_polygon_idx s + 1)) by lia.
    destruct (e <? 0) eqn:Hneg.
    + rewrite set_at_in_range by (rewrite length_half_decoded; lia).
      cbn [mbind Outcome_bind]. eexists. split; [reflexivity|].
      cbn [ts_old_indices ts_in_polygon_idx ts_indices ts_to_old].
      rewrite Nat2Z.id.
      split; [by apply half_decoded_step|done].
    + eexists. split; [reflexivity|].
      cbn [ts_old_indices ts_in_polygon_idx ts_indices ts_to_old].
      apply Z.ltb_ge in Hneg.
      split; [by apply (half_decoded_keep old k e)|done].
Qed.

(** The first [n] turns of the loop return. *)
Lemma triangulate_prefix old indices to_old (n : nat) :
  Forall is_int old →
  Z.of_nat (length old) < 2 ^ 31 →
  (n <= length old)%nat →
  ∃ s, for_loop n 0 triangulate_body (mkTriangulateState old indices to_old 0) = Ok s
    ∧ ts_old_indices s = half_decoded old n
    ∧ 0 <= ts_in_polygon_idx s <= Z.of_nat n.
Proof.
  intros Hint Hlen Hn.
  destruct (for_loop_total
    (λ i s, ∃ k : nat, i = Z.of_nat k ∧ ts_old_indices s = half_decoded old k
       ∧ 0 <= ts_in_polygon_idx s <= Z.of_nat k)
    n 0 triangulate_body (mkTriangulateState old indices to_old 0))
    as (r & Hr & k & Hk & Hold & Hipi).
  - exists 0%nat. split; [done|]. split; [|simpl; lia].
    unfold half_decoded. by rewrite take_0, drop_0.
  - intros i s Hi (k & -> & Hold & Hipi).
    destruct (lookup_lt_is_Some_2 old k) as [e He]; [lia|].
    destruct (triangulate_body_turn old k s e) as (s' & Hs' & Hold' & Hipi');
      try done.
    exists s'. split; [done|]. exists (S k). split; [lia|]. split; [done|].
    rewrite Hipi'. destruct (e <? 0); lia.
  - exists r. split; [done|]. assert (k = n) as -> by lia. done.
Qed.

Lemma half_decoded_all old : half_decoded old (length old) = decode_entry <$> old.
Proof. unfold half_decoded. by rewrite firstn_all, drop_all, app_nil_r. Qed.

(** C4.  A negative entry [e] of the stream is decoded as [-e - 1] and closes
    its polygon (the in-polygon counter is zero after an entry exactly when
    the entry is negative); the stream [2, 5, -4] decodes to the corners
    [2, 5, 3] with the boundary at position 2; every negative entry is
    rewritten in place with its decoded value, so the stream holds no
    negative entry when [triangulate] returns. *)
Theorem triangulate_decodes_terminals (old_indices indices to_old : list Z) :
  Forall is_int old_indices →
  Z.of_nat (length old_indices) < 2 ^ 31 →
  (∃ indices' to_old',
      triangulate old_indices indices to_old
      = Ok (decode_entry <$> old_indices, indices', to_old'))
  ∧ Forall (λ e, 0 <= e) (decode_entry <$> old_indices)
  ∧ (∀ k e, old_indices !! k = Some e →
       (counter_after old_indices (S k) = Ok 0 ↔ e < 0))
  ∧ triangulate [2; 5; -4] [] [] = Ok ([2; 5; 3], [2; 5; 3], [0; 1; 2])
  ∧ counter_after [2; 5; -4] <$> [1; 2; 3]%nat = [Ok 1; Ok 2; Ok 0].
Proof.
  intros Hint Hlen. repeat split.
  - destruct (triangulate_prefix old_indices indices to_old (length old_indices))
      as (s & Hs & Hold & _); [done|done|lia|].
    exists (ts_indices s), (ts_to_old s). unfold triangulate.
    rewrite Hs. cbn [mbind Outcome_bind]. by rewrite Hold, half_decoded_all.
  - apply Forall_fmap. eapply Forall_impl; [|exact Hint].
    intros e He. simpl. apply decode_entry_nonneg in He. lia.
  - intros Hc. unfold counter_after in Hc. rewrite for_loop_snoc in Hc.
    pose proof (lookup_lt_Some _ _ _ H) as Hlt.
    destruct (triangulate_prefix old_indices [] [] k) as (s & Hs & Hold & Hipi);
      [done|done|lia|].
    rewrite Hs in Hc. cbn [mbind Outcome_bind] in Hc.
    destruct (triangulate_body_turn old_indices k s e) as (s' & Hs' & _ & Hipi');
      try done.
    rewrite Z.add_0_l, Hs' in Hc. cbn [mbind Outcome_bind] in Hc.
    injection Hc as Hc. rewrite Hipi' in Hc.
    destruct (e <? 0) eqn:Hneg; [by apply Z.ltb_lt|lia].
  - intros Hneg. unfold counter_after. rewrite for_loop_snoc.
    pose proof (lookup_lt_Some _ _ _ H) as Hlt.
    destruct (triangulate_prefix old_indices [] [] k) as (s & Hs & Hold & Hipi);
      [done|done|lia|].
    rewrite Hs. cbn [mbind Outcome_bind].
    destruct (triangulate_body_turn old_indices k s e) as (s' & Hs' & _ & Hipi');
      try done.
    rewrite Z.add_0_l, Hs'. cbn [mbind Outcome_bind]. rewrite Hipi'.
    by rewrite (proj2 (Z.ltb_lt e 0)).
Qed.

Lemma triangulate_decodes_terminals_witness :
  (∃ indices' to_old',
      triangulate [0; 1; 2; -4; 7; 8; -10] [] []
      = Ok (decode_entry <$> [0; 1; 2; -4; 7; 8; -10], indices', to_old'))
  ∧ Forall (λ e, 0 <= e) (decode_entry <$> [0; 1; 2; -4; 7; 8; -10]).
Proof.
  assert (Forall is_int [0; 1; 2; -4; 7; 8; -10]) as Hint
    by (repeat constructor; unfold is_int; lia).
  assert (Z.of_nat (length [0; 1; 2; -4; 7; 8; -10]) < 2 ^ 31) as Hlen
    by (simpl; lia).
  destruct (triangulate_decodes_terminals [0; 1; 2; -4; 7; 8; -10] [] [] Hint Hlen)
    as (Hrun & Hpos & _).
  split; [exact Hrun|exact Hpos].
Defined.

(** *** Fan triangulation of a well-formed stream *)

Lemma encode_polygon_snoc b l : encode_polygon (b ++ [l]) = b ++ [- l - 1].
Proof.
  unfold encode_polygon.
  destruct (b ++ [l]) eqn:Hb; [by destruct b|].
  rewrite <- Hb, removelast_last, last_last. reflexivity.
Qed.

Lemma length_encode_polygon p : length (encode_polygon p) = length p.
Proof.
  destruct p as [|c p] using rev_ind; [done|].
  rewrite encode_polygon_snoc, !length_app. reflexivity.
Qed.

Lemma at_stream (pre mid post : list Z) (j : nat) x :
  mid !! j = Some x →
  Z.of_nat (length pre + length mid) < 2 ^ 31 →
  at_ (pre ++ mid ++ post) (to_size_t (Z.of_nat (length pre) + Z.of_nat j)) = Ok x.
Proof.
  intros Hx Hlen. pose proof (lookup_lt_Some _ _ _ Hx) as Hlt.
  rewrite to_size_t_small by lia.
  replace (Z.of_nat (length pre) + Z.of_nat j) with (Z.of_nat (length pre + j)) by lia.
  apply at_lookup.
  rewrite lookup_app_r by lia.
  replace (length pre + j - length pre)%nat with j by lia.
  by rewrite lookup_app_l.
Qed.

(** The turns of the loop on the corners of a polygon that come before its
    last one. *)
Lemma polygon_inner_corners pre b l post indices to_old (k : nat) :
  (k <= length b)%nat →
  Z.of_nat (length pre + length (b ++ [l])) < 2 ^ 31 →
  Forall (λ c, 0 <= c < 2 ^ 31) (b ++ [l]) →
  for_loop k (Z.of_nat (length pre)) triangulate_body
    (mkTriangulateState (pre ++ (b ++ [- l - 1]) ++ post) indices to_old 0)
  = Ok (mkTriangulateState (pre ++ (b ++ [- l - 1]) ++ post)
          (indices ++ flat_map (corner_output (b ++ [l])) (seq 0 k))
          (to_old ++ flat_map (corner_positions (Z.of_nat (length pre))) (seq 0 k))
          (Z.of_nat k)).
Proof.
  intros Hk Hlen Hp. induction k as [|k IH].
  - simpl. by rewrite !app_nil_r.
  - rewrite for_loop_snoc, IH by lia. cbn [mbind Outcome_bind].
    rewrite length_app in Hlen. simpl in Hlen.
    destruct (lookup_lt_is_Some_2 b k) as [c Hc]; [lia|].
    assert (0 <= c < 2 ^ 31) as Hcr.
    { apply (proj1 (Forall_lookup _ _) Hp k). by apply lookup_app_l_Some. }
    assert ((b ++ [- l - 1]) !! k = Some c) as Hmid by (by apply lookup_app_l_Some).
    assert ((b ++ [l]) !!! k = c) as Hpk
      by (apply list_lookup_total_correct; by apply lookup_app_l_Some).
    assert (Z.of_nat (length pre + length (b ++ [- l - 1])) < 2 ^ 31) as Hlen'
      by (rewrite length_app; simpl; lia).
    unfold triangulate_body, getIdx.
    cbn [ts_old_indices ts_in_polygon_idx ts_indices ts_to_old].
    rewrite (at_stream pre (b ++ [- l - 1]) post k c) by done.
    cbn [mbind Outcome_bind].
    rewrite (proj2 (Z.ltb_ge c 0)) by lia.
    rewrite (to_int_small (Z.of_nat k + 1)) by lia.
    assert (∀ (acc : list Z) (f : nat → list Z),
      acc ++ flat_map f (seq 0 (S k)) = (acc ++ flat_map f (seq 0 k)) ++ f k) as Hsnoc.
    { intros acc f. rewrite seq_S, flat_map_app. simpl. by rewrite app_nil_r, app_assoc. }
    rewrite !Hsnoc. clear Hsnoc.
    destruct (Z.of_nat k <=? 2) eqn:Hcase.
    + apply Z.leb_le in Hcase.
      assert (corner_output (b ++ [l]) k = [c]) as ->.
      { unfold corner_output. rewrite (proj2 (Nat.leb_le k 2)) by lia. by rewrite Hpk. }
      assert (corner_positions (Z.of_nat (length pre)) k
              = [Z.of_nat (length pre) + Z.of_nat k]) as ->.
      { unfold corner_positions. by rewrite (proj2 (Nat.leb_le k 2)) by lia. }
      cbn [mbind Outcome_bind fst snd].
      do 2 f_equal. lia.
    + apply Z.leb_gt in Hcase.
      destruct (lookup_lt_is_Some_2 b 0) as [c0 Hc0]; [lia|].
      destruct (lookup_lt_is_Some_2 b (k - 1)) as [c1 Hc1]; [lia|].
      assert (corner_output (b ++ [l]) k = [c0; c1; c]) as ->.
      { unfold corner_output. rewrite (proj2 (Nat.leb_gt k 2)) by lia.
        rewrite Hpk.
        rewrite (list_lookup_total_correct (b ++ [l]) 0 c0)
          by (by apply lookup_app_l_Some).
        by rewrite (list_lookup_total_correct (b ++ [l]) (k - 1) c1)
          by (by apply lookup_app_l_Some). }
      assert (corner_positions (Z.of_nat (length pre)) k
              = [Z.of_nat (length pre); Z.of_nat (length pre) + Z.of_nat k - 1;
                 Z.of_nat (length pre) + Z.of_nat k]) as ->.
      { unfold corner_positions. by rewrite (proj2 (Nat.leb_gt k 2)) by lia. }
      rewrite (to_int_small (_ - Z.of_nat k)) by lia.
      rewrite (to_int_small (_ - 1)) by lia.
      replace (Z.of_nat (length pre) + Z.of_nat k - Z.of_nat k)
        with (Z.of_nat (length pre) + Z.of_nat 0) by lia.
      replace (Z.of_nat (length pre) + Z.of_nat k - 1)
        with (Z.of_nat (length pre) + Z.of_nat (k - 1)) by lia.
      rewrite (at_stream pre (b ++ [- l - 1]) post 0 c0)
        by (done || by apply lookup_app_l_Some).
      rewrite (at_stream pre (b ++ [- l - 1]) post (k - 1) c1)
        by (done || by apply lookup_app_l_Some).
      cbn [mbind Outcome_bind fst snd].
      replace (Z.of_nat (length pre) + Z.of_nat 0) with (Z.of_nat (length pre)) by lia.
      replace (Z.of_nat k + 1) with (Z.of_nat (S k)) by lia.
      reflexivity.
Qed.

(** All the turns of the loop on one polygon. *)
Lemma polygon_turns pre b l post indices to_old :
  Z.of_nat (length pre + length (b ++ [l])) < 2 ^ 31 →
  Forall (λ c, 0 <= c < 2 ^ 31) (b ++ [l]) →
  for_loop (length (b ++ [l])) (Z.of_nat (length pre)) triangulate_body
    (mkTriangulateState (pre ++ (b ++ [- l - 1]) ++ post) indices to_old 0)
  = Ok (mkTriangulateState (pre ++ (b ++ [l]) ++ post)
          (indices ++ flat_map (corner_output (b ++ [l])) (seq 0 (length (b ++ [l]))))
          (to_old ++ flat_map (corner_positions (Z.of_nat (length pre)))
                       (seq 0 (length (b ++ [l]))))
          0).
Proof.
  intros Hlen Hp.
  assert (length (b ++ [l]) = S (length b)) as Hn by (rewrite length_app; simpl; lia).
  rewrite Hn, for_loop_snoc, (polygon_inner_corners pre b l post) by (done || lia).
  cbn [mbind Outcome_bind]. rewrite <- Hn.
  set (k := length b) in *.
  assert (0 <= l < 2 ^ 31) as Hl.
  { apply (proj1 (Forall_lookup _ _) Hp k). unfold k. by rewrite lookup_app_r, Nat.sub_diag. }
  assert ((b ++ [- l - 1]) !! k = Some (- l - 1)) as Hmid
    by (unfold k; by rewrite lookup_app_r, Nat.sub_diag).
  assert ((b ++ [l]) !!! k = l) as Hpk
    by (apply list_lookup_total_correct; unfold k; by rewrite lookup_app_r, Nat.sub_diag).
  assert (Z.of_nat (length pre + length (b ++ [- l - 1])) < 2 ^ 31) as Hlen'.
  { rewrite length_app in *. simpl in *. lia. }
  unfold triangulate_body, getIdx.
  cbn [ts_old_indices ts_in_polygon_idx ts_indices ts_to_old].
  rewrite (at_stream pre (b ++ [- l - 1]) post k (- l - 1)) by done.
  cbn [mbind Outcome_bind].
  rewrite getIdx_decode by (unfold is_int; lia).
  assert (decode_entry (- l - 1) = l) as ->.
  { unfold decode_entry. rewrite (proj2 (Z.ltb_lt (- l - 1) 0)) by lia. lia. }
  rewrite (proj2 (Z.ltb_lt (- l - 1) 0)) by lia.
  assert (∀ (acc : list Z) (f : nat → list Z),
    acc ++ flat_map f (seq 0 (S k)) = (acc ++ flat_map f (seq 0 k)) ++ f k) as Hsnoc.
  { intros acc f. rewrite seq_S, flat_map_app. simpl. by rewrite app_nil_r, app_assoc. }
  rewrite Hn, !Hsnoc. clear Hsnoc.
  assert (set_at (pre ++ (b ++ [- l - 1]) ++ post)
            (to_size_t (Z.of_nat (length pre) + Z.of_nat k)) l
          = Ok (pre ++ (b ++ [l]) ++ post)) as Hset.
  { rewrite to_size_t_small by lia.
    rewrite set_at_in_range by (rewrite !length_app; simpl; lia).
    f_equal.
    replace (Z.to_nat (Z.of_nat (length pre) + Z.of_nat k))
      with (length pre + (length b + 0))%nat by (unfold k; lia).
    rewrite insert_app_r, <- !app_assoc, insert_app_r. reflexivity. }
  rewrite Hn in Hlen.
  destruct (Z.of_nat k <=? 2) eqn:Hcase.
  - apply Z.leb_le in Hcase.
    assert (corner_output (b ++ [l]) k = [l]) as ->.
    { unfold corner_output. rewrite (proj2 (Nat.leb_le k 2)) by lia. by rewrite Hpk. }
    assert (corner_positions (Z.of_nat (length pre)) k
            = [Z.of_nat (length pre) + Z.of_nat k]) as ->.
    { unfold corner_positions. by rewrite (proj2 (Nat.leb_le k 2)) by lia. }
    cbn [mbind Outcome_bind fst snd]. rewrite Hset. reflexivity.
  - apply Z.leb_gt in Hcase.
    destruct (lookup_lt_is_Some_2 b 0) as [c0 Hc0]; [unfold k in *; lia|].
    destruct (lookup_lt_is_Some_2 b (k - 1)) as [c1 Hc1]; [unfold k in *; lia|].
    assert (corner_output (b ++ [l]) k = [c0; c1; l]) as ->.
    { unfold corner_output. rewrite (proj2 (Nat.leb_gt k 2)) by lia.
      rewrite Hpk.
      rewrite (list_lookup_total_correct (b ++ [l]) 0 c0)
        by (by apply lookup_app_l_Some).
      by rewrite (list_lookup_total_correct (b ++ [l]) (k - 1) c1)
        by (by apply lookup_app_l_Some). }
    assert (corner_positions (Z.of_nat (length pre)) k
            = [Z.of_nat (length pre); Z.of_nat (length pre) + Z.of_nat k - 1;
               Z.of_nat (length pre) + Z.of_nat k]) as ->.
    { unfold corner_positions. by rewrite (proj2 (Nat.leb_gt k 2)) by lia. }
    rewrite (to_int_small (_ - Z.of_nat k)) by lia.
    rewrite (to_int_small (_ - 1)) by lia.
    replace (Z.of_nat (length pre) + Z.of_nat k - Z.of_nat k)
      with (Z.of_nat (length pre) + Z.of_nat 0) by lia.
    replace (Z.of_nat (length pre) + Z.of_nat k - 1)
      with (Z.of_nat (length pre) + Z.of_nat (k - 1)) by lia.
    rewrite (at_stream pre (b ++ [- l - 1]) post 0 c0)
      by (done || by apply lookup_app_l_Some).
    rewrite (at_stream pre (b ++ [- l - 1]) post (k - 1) c1)
      by (done || by apply lookup_app_l_Some).
    cbn [mbind Outcome_bind fst snd]. rewrite Hset.
    replace (Z.of_nat (length pre) + Z.of_nat 0) with (Z.of_nat (length pre)) by lia.
    reflexivity.
Qed.

(** The pushes of the corners of a polygon of three corners or more are the
    fan of the polygon. *)
Lemma flat_map_shift (f g : nat → list Z) (a m : nat) :
  (∀ t, (a <= t)%nat → f (t + 2)%nat = g t) →
  flat_map f (seq (a + 2) m) = flat_map g (seq a m).
Proof.
  revert a. induction m as [|m IH]; intros a Hfg; [done|].
  simpl. rewrite (Hfg a) by lia. f_equal.
  apply (IH (S a)). intros t Ht. apply Hfg. lia.
Qed.

Lemma corner_output_fan p :
  (3 <= length p)%nat →
  flat_map (corner_output p) (seq 0 (length p)) = fan_triangles p.
Proof.
  intros Hn. unfold fan_triangles.
  replace (length p) with (3 + (length p - 3))%nat at 1 by lia.
  replace (length p - 2)%nat with (1 + (length p - 3))%nat by lia.
  rewrite !seq_app, !flat_map_app. simpl.
  f_equal. f_equal. f_equal.
  apply (flat_map_shift _ _ 1). intros t Ht.
  unfold corner_output. rewrite (proj2 (Nat.leb_gt (t + 2) 2)) by lia.
  replace (t + 2 - 1)%nat with (t + 1)%nat by lia. reflexivity.
Qed.

Lemma corner_positions_fan start n :
  (3 <= n)%nat →
  flat_map (corner_positions start) (seq 0 n) = fan_positions start n.
Proof.
  intros Hn. unfold fan_positions.
  replace n with (3 + (n - 3))%nat at 1 by lia.
  replace (n - 2)%nat with (1 + (n - 3))%nat by lia.
  rewrite !seq_app, !flat_map_app. simpl.
  f_equal; [lia|]. f_equal; [lia|]. f_equal; [lia|].
  apply (flat_map_shift _ _ 1). intros t Ht.
  unfold corner_positions. rewrite (proj2 (Nat.leb_gt (t + 2) 2)) by lia.
  repeat (f_equal; try lia).
Qed.

(** The loop on a whole well-formed stream, polygon after polygon. *)
Lemma stream_turns polys pre indices to_old :
  Forall well_formed_polygon polys →
  Z.of_nat (length pre + length (concat polys)) < 2 ^ 31 →
  for_loop (length (concat polys)) (Z.of_nat (length pre)) triangulate_body
    (mkTriangulateState (pre ++ concat (encode_polygon <$> polys)) indices to_old 0)
  = Ok (mkTriangulateState (pre ++ concat polys)
          (indices ++ concat (fan_triangles <$> polys))
          (to_old ++ stream_fan_positions (Z.of_nat (length pre)) polys)
          0).
Proof.
  intros Hwf. revert pre indices to_old.
  induction Hwf as [|p polys [Hn Hp] Hwf IH]; intros pre indices to_old Hlen.
  - simpl. by rewrite !app_nil_r.
  - destruct p as [|l b _] using rev_ind; [simpl in Hn; lia|].
    cbn [concat fmap list_fmap stream_fan_positions] in *.
    rewrite length_app in Hlen.
    rewrite length_app, for_loop_app, encode_polygon_snoc.
    rewrite polygon_turns by (done || lia).
    cbn [mbind Outcome_bind].
    rewrite corner_output_fan, corner_positions_fan by done.
    replace (Z.of_nat (length pre) + Z.of_nat (length (b ++ [l])))
      with (Z.of_nat (length (pre ++ b ++ [l]))) by (rewrite (length_app pre); lia).
    rewrite (app_assoc pre (b ++ [l])).
    rewrite IH by (rewrite (length_app pre); lia).
    by rewrite <- !app_assoc.
Qed.

Lemma fan_positions_paired (stream pre p : list Z) (a m : nat) :
  (∀ j, (j < length p)%nat → stream !!! (length pre + j)%nat = p !!! j) →
  (a + m + 2 <= length p)%nat →
  (λ pos, stream !!! Z.to_nat pos)
    <$> flat_map (λ t, [Z.of_nat (length pre); Z.of_nat (length pre) + Z.of_nat t + 1;
                        Z.of_nat (length pre) + Z.of_nat t + 2]) (seq a m)
  = flat_map (λ t, [p !!! 0%nat; p !!! (t + 1)%nat; p !!! (t + 2)%nat]) (seq a m).
Proof.
  intros Hs. revert a. induction m as [|m IH]; intros a Ha; [done|].
  cbn [seq flat_map app fmap list_fmap].
  replace (Z.to_nat (Z.of_nat (length pre))) with (length pre + 0)%nat by lia.
  replace (Z.to_nat (Z.of_nat (length pre) + Z.of_nat a + 1))
    with (length pre + (a + 1))%nat by lia.
  replace (Z.to_nat (Z.of_nat (length pre) + Z.of_nat a + 2))
    with (length pre + (a + 2))%nat by lia.
  rewrite !Hs by lia. do 3 f_equal.
  apply IH. lia.
Qed.

Lemma stream_fan_positions_paired polys pre :
  (λ pos, (pre ++ concat polys) !!! Z.to_nat pos)
    <$> stream_fan_positions (Z.of_nat (length pre)) polys
  = concat (fan_triangles <$> polys).
Proof.
  revert pre. induction polys as [|p polys IH]; intros pre; [done|].
  cbn [concat fmap list_fmap stream_fan_positions]. rewrite fmap_app. f_equal.
  - unfold fan_positions, fan_triangles.
    destruct (decide (length p <= 2)%nat) as [Hle|Hgt].
    + by replace (length p - 2)%nat with 0%nat by lia.
    + apply fan_positions_paired; [|lia].
      intros j Hj. rewrite lookup_total_app_r by lia.
      replace (length pre + j - length pre)%nat with j by lia.
      by rewrite lookup_total_app_l.
  - replace (Z.of_nat (length pre) + Z.of_nat (length p))
      with (Z.of_nat (length (pre ++ p))) by (rewrite length_app; lia).
    rewrite (app_assoc pre p). apply IH.
Qed.

Lemma length_fan_triangles p : length (fan_triangles p) = (3 * (length p - 2))%nat.
Proof.
  unfold fan_triangles.
  rewrite (flat_map_constant_length (c := 3)) by done.
  rewrite length_seq. lia.
Qed.

(** C3.  On a well-formed stream [triangulate] emits, for each polygon of
    n >= 3 corners, the n - 2 triangles of the fan anchored at the first
    corner of the polygon: triangle t is (first corner, corner t + 1, corner
    t + 2), so a polygon of three corners gives the one triangle of its
    corners in order and the triangle of every later corner is (first,
    previous, current); [to_old] holds, for each emitted corner, the stream
    position the corner came from. *)
Theorem triangulate_fan (polys : list (list Z)) :
  Forall well_formed_polygon polys →
  Z.of_nat (length (concat polys)) < 2 ^ 31 →
  triangulate (concat (encode_polygon <$> polys)) [] []
  = Ok (concat polys, concat (fan_triangles <$> polys), stream_fan_positions 0 polys)
  ∧ Forall (λ p, length (fan_triangles p) = (3 * (length p - 2))%nat) polys
  ∧ (∀ a b c, fan_triangles [a; b; c] = [a; b; c])
  ∧ (λ pos, concat polys !!! Z.to_nat pos) <$> stream_fan_positions 0 polys
    = concat (fan_triangles <$> polys).
Proof.
  intros Hwf Hlen. split; [|split; [|split]].
  - unfold triangulate.
    assert (length (concat (encode_polygon <$> polys)) = length (concat polys)) as ->.
    { clear. induction polys as [|p polys IH]; [done|].
      cbn [concat fmap list_fmap]. by rewrite !length_app, IH, length_encode_polygon. }
    pose proof (stream_turns polys [] [] [] Hwf) as Hrun.
    cbn [app length] in Hrun. change (Z.of_nat 0) with 0 in Hrun.
    rewrite Hrun by lia. reflexivity.
  - apply Forall_forall. intros p _. apply length_fan_triangles.
  - reflexivity.
  - apply (stream_fan_positions_paired polys []).
Qed.

Lemma triangulate_fan_witness :
  triangulate [0; 1; -3; 4; 5; 6; 7; -9] [] []
  = Ok ([0; 1; 2; 4; 5; 6; 7; 8],
        [0; 1; 2; 4; 5; 6; 4; 6; 7; 4; 7; 8],
        [0; 1; 2; 3; 4; 5; 3; 5; 6; 3; 6; 7]).
Proof.
  assert (Forall well_formed_polygon [[0; 1; 2]; [4; 5; 6; 7; 8]]) as Hwf.
  { repeat constructor; simpl; lia. }
  assert (Z.of_nat (length (concat [[0; 1; 2]; [4; 5; 6; 7; 8]])) < 2 ^ 31) as Hlen
    by (simpl; lia).
  exact (proj1 (triangulate_fan [[0; 1; 2]; [4; 5; 6; 7; 8]] Hwf Hlen)).
Defined.

(** ** Vertex expansion *)

Lemma get_set_indices f v g : get_indices f (set_indices f v g) = v.
Proof. by destruct f. Qed.

Lemma get_set_indices_ne f f' v g :
  f ≠ f' → get_indices f' (set_indices f v g) = get_indices f' g.
Proof. by destruct f, f'. Qed.

Lemma set_set_indices f v w g : set_indices f v (set_indices f w g) = set_indices f v g.
Proof. by destruct f. Qed.

Lemma set_get_indices f g : set_indices f (get_indices f g) g = g.
Proof. by destruct f, g. Qed.

Lemma VertexData_of_members g i mask :
  VertexData_of g i mask =
  pos ← signature_field (get_indices VERTEX_INDICES g) i mask (exclude_bit VERTEX_INDICES);
  nrm ← signature_field (get_indices NORMAL_INDICES g) i mask (exclude_bit NORMAL_INDICES);
  tan ← signature_field (get_indices TANGENT_INDICES g) i mask (exclude_bit TANGENT_INDICES);
  clr ← signature_field (get_indices COLOR_INDICES g) i mask (exclude_bit COLOR_INDICES);
  uv ← signature_field (get_indices UV_INDICES g) i mask (exclude_bit UV_INDICES);
  Ok (mkVertexData pos nrm tan clr uv).
Proof. reflexivity. Qed.

(** A signature is made of one field for each index vector. *)
Lemma VertexData_of_fields g i mask v :
  VertexData_of g i mask = Ok v ↔
  ∀ f, signature_field (get_indices f g) i mask (exclude_bit f) = Ok (field_of f v).
Proof.
  rewrite VertexData_of_members. split.
  - intros H. do 5 inv_bind H. injection H as <-.
    intros []; simpl; assumption.
  - intros H.
    rewrite (H VERTEX_INDICES), (H NORMAL_INDICES), (H TANGENT_INDICES),
      (H COLOR_INDICES), (H UV_INDICES).
    simpl. by destruct v.
Qed.

Lemma signature_field_agree l l' i mask ex :
  length l = length l' →
  l !! Z.to_nat i = l' !! Z.to_nat i →
  signature_field l i mask ex = signature_field l' i mask ex.
Proof.
  intros Hlen Hi. unfold signature_field, at_. by rewrite Hlen, Hi.
Qed.

(** Storing in the vector behind [indices] away from position [i] leaves the
    signature of position [i] as it was. *)
Lemma VertexData_of_frame f cur g i mask :
  length cur = length (get_indices f g) →
  cur !! Z.to_nat i = get_indices f g !! Z.to_nat i →
  VertexData_of (set_indices f cur g) i mask = VertexData_of g i mask.
Proof.
  intros Hlen Hi.
  assert (∀ f', signature_field (get_indices f' (set_indices f cur g)) i mask
                  (exclude_bit f')
                = signature_field (get_indices f' g) i mask (exclude_bit f')) as Hf.
  { intros f'. destruct (decide (f = f')) as [<-|Hne].
    - rewrite get_set_indices. by apply signature_field_agree.
    - by rewrite get_set_indices_ne. }
  rewrite !VertexData_of_members.
  rewrite (Hf VERTEX_INDICES), (Hf NORMAL_INDICES), (Hf TANGENT_INDICES),
    (Hf COLOR_INDICES), (Hf UV_INDICES).
  reflexivity.
Qed.

(** Two positions that hold the same index and had the same signature on
    entry have the same signature on return. *)
Lemma VertexData_of_final f cur g i j mask v e :
  length cur = length (get_indices f g) →
  cur !! Z.to_nat i = Some e → cur !! Z.to_nat j = Some e →
  0 <= i → 0 <= j →
  VertexData_of g i mask = Ok v →
  VertexData_of g j mask = Ok v →
  VertexData_of (set_indices f cur g) i mask
  = VertexData_of (set_indices f cur g) j mask.
Proof.
  intros Hlen Hi Hj Hi0 Hj0 Hvi Hvj.
  rewrite VertexData_of_fields in Hvi, Hvj.
  assert (∀ f', signature_field (get_indices f' (set_indices f cur g)) i mask
                  (exclude_bit f')
                = signature_field (get_indices f' (set_indices f cur g)) j mask
                  (exclude_bit f')) as Hf.
  { intros f'. destruct (decide (f = f')) as [<-|Hne].
    - rewrite get_set_indices. unfold signature_field, at_.
      pose proof (lookup_lt_Some _ _ _ Hi). pose proof (lookup_lt_Some _ _ _ Hj).
      rewrite Hi, Hj.
      rewrite (proj2 (Z.leb_le 0 i)), (proj2 (Z.leb_le 0 j)) by done.
      rewrite (proj2 (Z.ltb_lt i _)), (proj2 (Z.ltb_lt j _)) by lia.
      reflexivity.
    - rewrite get_set_indices_ne by done. by rewrite Hvi, Hvj. }
  rewrite !VertexData_of_members.
  rewrite (Hf VERTEX_INDICES), (Hf NORMAL_INDICES), (Hf TANGENT_INDICES),
    (Hf COLOR_INDICES), (Hf UV_INDICES).
  reflexivity.
Qed.

Lemma in_conflict_mono geom mask final final' i e :
  (∀ j, (j < i)%nat → final' !! j = final !! j) →
  in_conflict geom mask final i e → in_conflict geom mask final' i e.
Proof.
  intros Hagree (j & e' & v' & v & Hj & Hl & Hrest).
  exists j, e', v', v. rewrite Hagree by done. by split.
Qed.

(** One turn of the loop of [expand] keeps the invariant. *)
Lemma expand_body_invariant {T} (data : list T) f geom mask i s s' :
  1 <= i →
  expand_invariant data f geom mask i s →
  expand_body f mask i s = Ok s' →
  expand_invariant data f geom mask (i + 1) s'.
Proof.
  intros Hi (Hgeom & Hlen & Hrest & Hzero & (ext & Hdata & Hext) & Hmap & Hconf) Hbody.
  unfold expand_body in Hbody.
  set (cur := get_indices f (es_geom s)) in *.
  inv_bind Hbody. rename a into e. apply at_Ok in Ha as [Hir He].
  inv_bind Hbody. rename a into vtx.
  rewrite Hgeom, VertexData_of_frame in Ha by (done || by apply Hrest; lia).
  assert (cur !! Z.to_nat i = get_indices f geom !! Z.to_nat i) as Hcur_i
    by (apply Hrest; lia).
  destruct (es_map s !! to_size_t e) as [found|] eqn:Hfound.
  - destruct (VertexData_ne found vtx) eqn:Hne.
    + (* the index is shared with another signature: split *)
      inv_bind Hbody. rename a into d. apply at_Ok in Ha0 as [_ Hd].
      inv_bind Hbody. rename a into new_indices. apply set_at_Ok in Ha0 as [_ ->].
      injection Hbody as <-. fold cur.
      unfold expand_invariant.
      cbn [es_geom es_data es_map]. rewrite Hgeom, set_set_indices, get_set_indices.
      split; [done|]. split; [by rewrite length_insert|].
      split; [intros j Hj; rewrite list_lookup_insert_ne by lia; apply Hrest; lia|].
      split; [by rewrite list_lookup_insert_ne by lia|].
      split.
      { exists (ext ++ [d]). rewrite Hdata, app_assoc. split; [done|].
        intros x [Hx| ->%list_elem_of_singleton]%elem_of_app; [by apply Hext|].
        apply list_elem_of_lookup_2 in Hd. rewrite Hdata in Hd.
        apply elem_of_app in Hd as [Hd|Hd]; [done|by apply Hext]. }
      split.
      { intros k v Hk.
        destruct (decide (to_size_t (to_int (Z.of_nat (length (es_data s)))) = k))
          as [<-|Hnk].
        - rewrite lookup_insert_eq in Hk. injection Hk as <-.
          exists (Z.to_nat i), (to_int (Z.of_nat (length (es_data s)))).
          split; [lia|]. split; [by rewrite list_lookup_insert_eq by lia|].
          split; [done|]. by rewrite Z2Nat.id by lia.
        - rewrite lookup_insert_ne in Hk by done.
          destruct (Hmap k v Hk) as (j & e' & Hj & Hl & Hkey & Hsig).
          exists j, e'. split; [lia|].
          by rewrite list_lookup_insert_ne by lia. }
      intros j e1 e0 Hj Hl H0 Hdiff.
      destruct (decide (j = Z.to_nat i)) as [->|Hnj].
      * (* the position that was split *)
        rewrite <- Hcur_i, He in H0. injection H0 as <-.
        destruct (Hmap _ _ Hfound) as (j' & e' & Hj' & Hl' & Hkey & Hsig).
        exists j', e', found, vtx.
        split; [lia|]. split; [by rewrite list_lookup_insert_ne by lia|].
        split; [done|]. split; [done|]. split; [by rewrite Z2Nat.id by lia|done].
      * rewrite list_lookup_insert_ne in Hl by done.
        eapply in_conflict_mono; [|apply (Hconf j e1 e0); (done || lia)].
        intros j' Hj'. by rewrite list_lookup_insert_ne by lia.
    + (* the index is shared with the same signature *)
      injection Hbody as <-. unfold expand_invariant. fold cur.
      split; [done|]. split; [done|].
      split; [intros j Hj; apply Hrest; lia|]. split; [done|].
      split; [by exists ext|]. split.
      { intros k v Hk. destruct (Hmap k v Hk) as (j & e' & Hj & Hrest').
        exists j, e'. split; [lia|done]. }
      intros j e1 e0 Hj Hl H0 Hdiff.
      destruct (decide (j = Z.to_nat i)) as [->|Hnj]; [congruence|].
      apply (Hconf j e1 e0); (done || lia).
  - (* the index is met for the first time *)
    injection Hbody as <-. unfold expand_invariant.
    cbn [es_geom es_data es_map]. fold cur.
    split; [done|]. split; [done|].
    split; [intros j Hj; apply Hrest; lia|]. split; [done|].
    split; [by exists ext|]. split.
    { intros k v Hk. destruct (decide (to_size_t e = k)) as [<-|Hnk].
      - rewrite lookup_insert_eq in Hk. injection Hk as <-.
        exists (Z.to_nat i), e. split; [lia|]. split; [done|]. split; [done|].
        by rewrite Z2Nat.id by lia.
      - rewrite lookup_insert_ne in Hk by done.
        destruct (Hmap k v Hk) as (j & e' & Hj & Hrest').
        exists j, e'. split; [lia|done]. }
    intros j e1 e0 Hj Hl H0 Hdiff.
    destruct (decide (j = Z.to_nat i)) as [->|Hnj]; [congruence|].
    apply (Hconf j e1 e0); (done || lia).
Qed.

(** The state the loop of [expand] starts from satisfies the invariant. *)
Lemma expand_invariant_start {T} (data : list T) f geom mask vtx e :
  VertexData_of geom 0 mask = Ok vtx →
  at_ (get_indices f geom) 0 = Ok e →
  expand_invariant data f geom mask 1
    (mkExpandState (<[to_size_t e := vtx]> ∅) data geom).
Proof.
  intros Hvtx He. apply at_Ok in He as [_ He]. unfold expand_invariant.
  cbn [es_geom es_data es_map].
  split; [by rewrite set_get_indices|]. split; [done|]. split; [done|]. split; [done|].
  split; [exists []; rewrite app_nil_r; split; [done|by intros x ?%elem_of_nil]|].
  split.
  - intros k v Hk. destruct (decide (to_size_t e = k)) as [<-|Hnk].
    + rewrite lookup_insert_eq in Hk. injection Hk as <-. by exists 0%nat, e.
    + by rewrite lookup_insert_ne, lookup_empty in Hk.
  - intros j e1 e0 Hj Hl H0 Hdiff. congruence.
Qed.

Lemma expand_returns_invariant {T} (data : list T) f geom mask data' geom' :
  expand data f geom mask = Ok (data', geom') →
  ∃ s, es_data s = data' ∧ es_geom s = geom'
    ∧ expand_invariant data f geom mask
        (1 + Z.of_nat (length (get_indices f geom) - 1)) s.
Proof.
  unfold expand. intros H.
  inv_bind H. rename a into vtx. inv_bind H. rename a into e.
  inv_bind H. rename a into s. injection H as <- <-.
  exists s. split; [done|]. split; [done|].
  eapply (for_loop_invariant (expand_invariant data f geom mask)); [| |exact Ha1].
  - by apply expand_invariant_start.
  - intros i s1 s2 Hi Hinv Hbody. eapply expand_body_invariant; [lia|done|done].
Qed.

(** C10.  [expand] only appends to the data: what was there is still there,
    every new entry is a copy of an entry; in the geometry only the vector
    behind [indices] changes, entry by entry, position 0 never, and a
    position whose index changed is in conflict, an earlier position holding
    the index it had with another signature. *)
Theorem expand_only_appends {T} (data : list T) (f : IndexMember)
    (geom : GeometryImpl) (mask : Z) (data' : list T) (geom' : GeometryImpl) :
  expand data f geom mask = Ok (data', geom') →
  (∃ ext, data' = data ++ ext ∧ ∀ x, x ∈ ext → x ∈ data)
  ∧ (length data <= length data')%nat
  ∧ geom' = set_indices f (get_indices f geom') geom
  ∧ length (get_indices f geom') = length (get_indices f geom)
  ∧ get_indices f geom' !! 0%nat = get_indices f geom !! 0%nat
  ∧ ∀ (i : nat) e e0,
      get_indices f geom' !! i = Some e →
      get_indices f geom !! i = Some e0 →
      e ≠ e0 →
      in_conflict geom mask (get_indices f geom') i e0.
Proof.
  intros H.
  destruct (expand_returns_invariant _ _ _ _ _ _ H)
    as (s & <- & <- & Hgeom & Hlen & _ & Hzero & (ext & Hdata & Hext) & _ & Hconf).
  split; [by exists ext|]. split; [rewrite Hdata, length_app; lia|].
  split; [done|]. split; [done|]. split; [done|].
  intros i e e0 Hl H0 Hdiff. apply (Hconf i e e0); try done.
  pose proof (lookup_lt_Some _ _ _ H0). lia.
Qed.

Lemma VertexData_ne_false a p : VertexData_ne a p = false → a = p.
Proof.
  unfold VertexData_ne. destruct a, p. simpl.
  rewrite !orb_false_iff, !negb_false_iff, !Z.eqb_eq.
  intros ((((-> & ->) & ->) & ->) & ->). reflexivity.
Qed.

Lemma signature_field_defined l i mask ex (n : nat) :
  l = [] ∨ (n <= length l)%nat →
  0 <= i < Z.of_nat n →
  ∃ x, signature_field l i mask ex = Ok x.
Proof.
  intros Hl Hi. unfold signature_field.
  destruct (bool_decide (length l = 0%nat) || negb (Z.land mask ex =? 0)) eqn:Hc;
    [by eexists|].
  apply orb_false_iff in Hc as [Hne _]. apply bool_decide_eq_false in Hne.
  destruct Hl as [->|Hl]; [done|].
  destruct (at_in_range l i) as (x & Hx & _); [lia|]. by exists x.
Qed.

(** Every loop position has a signature when the index vectors of the
    geometry are empty or as long as the loop. *)
Lemma VertexData_of_defined geom i mask (n : nat) :
  (∀ f, get_indices f geom = [] ∨ (n <= length (get_indices f geom))%nat) →
  0 <= i < Z.of_nat n →
  ∃ v, VertexData_of geom i mask = Ok v.
Proof.
  intros Hall Hi. rewrite VertexData_of_members.
  destruct (signature_field_defined _ i mask (exclude_bit VERTEX_INDICES) n
              (Hall VERTEX_INDICES) Hi) as [x1 ->].
  destruct (signature_field_defined _ i mask (exclude_bit NORMAL_INDICES) n
              (Hall NORMAL_INDICES) Hi) as [x2 ->].
  destruct (signature_field_defined _ i mask (exclude_bit TANGENT_INDICES) n
              (Hall TANGENT_INDICES) Hi) as [x3 ->].
  destruct (signature_field_defined _ i mask (exclude_bit COLOR_INDICES) n
              (Hall COLOR_INDICES) Hi) as [x4 ->].
  destruct (signature_field_defined _ i mask (exclude_bit UV_INDICES) n
              (Hall UV_INDICES) Hi) as [x5 ->].
  by eexists.
Qed.

(** One turn of the loop of [expand] on valid indices returns and keeps them
    valid. *)
Lemma expand_body_valid {T} (data : list T) f geom mask i s :
  expand_ready data f geom →
  1 <= i < Z.of_nat (length (get_indices f geom)) →
  expand_invariant data f geom mask i s →
  expand_valid data f geom mask i s →
  ∃ s', expand_body f mask i s = Ok s' ∧ expand_valid data f geom mask (i + 1) s'.
Proof.
  intros (Hn & Hrange & Hsize & Hall) Hi
    (Hgeom & Hlen & Hrest & Hzero & (ext & Hdata & Hext) & Hmap & Hconf)
    (Hcur & Hgrow & Hbound).
  set (cur := get_indices f (es_geom s)) in *.
  destruct (at_in_range cur i) as (e & Hat & He); [lia|].
  assert (cur !! Z.to_nat i = get_indices f geom !! Z.to_nat i) as Hcur_i
    by (apply Hrest; lia).
  assert (0 <= e < Z.of_nat (length (es_data s))) as He_range
    by (by apply (proj1 (Forall_lookup _ _) Hcur (Z.to_nat i))).
  destruct (VertexData_of_defined geom i mask _ Hall) as [vtx Hvtx]; [lia|].
  unfold expand_body. fold cur. rewrite Hat. cbn [mbind Outcome_bind].
  rewrite Hgeom, VertexData_of_frame by done. rewrite Hvtx. cbn [mbind Outcome_bind].
  rewrite to_size_t_small by lia.
  destruct (es_map s !! e) as [found|] eqn:Hfound.
  - destruct (VertexData_ne found vtx) eqn:Hne.
    + rewrite (to_int_small (Z.of_nat (length (es_data s)))) by lia.
      destruct (at_in_range (es_data s) e) as (d & -> & _); [lia|].
      cbn [mbind Outcome_bind]. rewrite <- Hgeom. fold cur.
      rewrite set_at_in_range by lia. cbn [mbind Outcome_bind].
      eexists. split; [reflexivity|]. unfold expand_valid.
      cbn [es_geom es_data es_map]. rewrite get_set_indices, length_app. simpl.
      split.
      { apply Forall_insert; [|lia].
        eapply Forall_impl; [|exact Hcur]. simpl. intros; lia. }
      split; [lia|].
      intros j e1 Hj Hl. rewrite to_size_t_small by lia.
      destruct (decide (j = Z.to_nat i)) as [->|Hnj].
      * rewrite list_lookup_insert_eq in Hl by lia. injection Hl as <-.
        exists vtx. rewrite lookup_insert_eq. by rewrite Z2Nat.id by lia.
      * rewrite list_lookup_insert_ne in Hl by done.
        pose proof (proj1 (Forall_lookup _ _) Hcur j e1 Hl) as He1. simpl in He1.
        rewrite lookup_insert_ne by lia. apply Hbound; [lia|done].
    + eexists. split; [reflexivity|]. unfold expand_valid. fold cur.
      split; [done|]. split; [lia|].
      intros j e1 Hj Hl.
      destruct (decide (j = Z.to_nat i)) as [->|Hnj].
      * rewrite He in Hl. injection Hl as <-. exists found. split; [done|].
        apply VertexData_ne_false in Hne as ->. by rewrite Z2Nat.id by lia.
      * apply Hbound; [lia|done].
  - eexists. split; [reflexivity|]. unfold expand_valid.
    cbn [es_geom es_data es_map]. rewrite get_set_indices.
    split; [done|]. split; [lia|].
    intros j e1 Hj Hl.
    destruct (decide (j = Z.to_nat i)) as [->|Hnj].
    + rewrite He in Hl. injection Hl as <-. exists vtx.
      rewrite lookup_insert_eq. by rewrite Z2Nat.id by lia.
    + destruct (Hbound j e1) as (v & Hv & Hsig); [lia|done|].
      exists v. rewrite lookup_insert_ne by congruence. done.
Qed.

(** [expand] on valid indices returns, with both invariants. *)
Lemma expand_ready_returns {T} (data : list T) f geom mask :
  expand_ready data f geom →
  ∃ s, expand data f geom mask = Ok (es_data s, es_geom s)
    ∧ expand_invariant data f geom mask
        (Z.of_nat (length (get_indices f geom))) s
    ∧ expand_valid data f geom mask (Z.of_nat (length (get_indices f geom))) s.
Proof.
  intros Hready. pose proof Hready as (Hn & Hrange & Hsize & Hall).
  destruct (VertexData_of_defined geom 0 mask _ Hall) as [vtx Hvtx]; [lia|].
  destruct (at_in_range (get_indices f geom) 0) as (e & He & Hl); [lia|].
  change (Z.to_nat 0) with 0%nat in Hl.
  pose proof (proj1 (Forall_lookup _ _) Hrange _ _ Hl) as He_range. simpl in He_range.
  destruct (for_loop_total
    (λ i s, expand_invariant data f geom mask i s ∧ expand_valid data f geom mask i s)
    (length (get_indices f geom) - 1) 1 (expand_body f mask)
    (mkExpandState (<[to_size_t e := vtx]> ∅) data geom))
    as (s & Hs & Hinv & Hvalid).
  - split; [by apply expand_invariant_start|].
    unfold expand_valid. cbn [es_geom es_data es_map].
    split; [done|]. split; [lia|].
    intros j e1 Hj Hl1. assert (j = 0%nat) as -> by lia.
    rewrite Hl in Hl1. injection Hl1 as <-. exists vtx.
    rewrite to_size_t_small by lia. by rewrite lookup_insert_eq.
  - intros i s Hi [Hinv Hvalid].
    destruct (expand_body_valid data f geom mask i s) as (s' & Hs' & Hvalid');
      [done|lia|done|done|].
    exists s'. split; [done|]. split; [|done].
    eapply expand_body_invariant; [lia|done|done].
  - exists s. unfold expand. rewrite Hvtx, He. cbn [mbind Outcome_bind].
    rewrite Hs. cbn [mbind Outcome_bind]. split; [done|].
    replace (Z.of_nat (length (get_indices f geom)))
      with (1 + Z.of_nat (length (get_indices f geom) - 1)) by lia.
    done.
Qed.

Lemma expand_only_appends_witness :
  expand [10; 20] VERTEX_INDICES shared_corner_geometry EXCLUDE_VERTEX
  = Ok ([10; 20; 10], set_vertex_indices [0; 2; 1] shared_corner_geometry)
  ∧ in_conflict shared_corner_geometry EXCLUDE_VERTEX [0; 2; 1] 1 0.
Proof.
  assert (expand [10; 20] VERTEX_INDICES shared_corner_geometry EXCLUDE_VERTEX
          = Ok ([10; 20; 10], set_vertex_indices [0; 2; 1] shared_corner_geometry))
    as Hrun by (vm_compute; reflexivity).
  split; [exact Hrun|].
  destruct (expand_only_appends _ _ _ _ _ _ Hrun) as (_ & _ & _ & _ & _ & Hconf).
  apply (Hconf 1%nat 2 0); [reflexivity|reflexivity|lia].
Defined.

(** C2, as the code has it.  On indices that are valid for the data on
    entry [expand] returns; every index is valid for the grown data, and two
    loop positions that hold the same index have the same signature, on the
    geometry as it was and on the geometry as it is left. *)
Theorem expand_consistent {T} (data : list T) (f : IndexMember)
    (geom : GeometryImpl) (mask : Z) :
  expand_ready data f geom →
  ∃ data' geom',
    expand data f geom mask = Ok (data', geom')
    ∧ Forall (λ e, 0 <= e < Z.of_nat (length data')) (get_indices f geom')
    ∧ ∀ (i j : nat) e,
        get_indices f geom' !! i = Some e →
        get_indices f geom' !! j = Some e →
        ∃ v v',
          VertexData_of geom (Z.of_nat i) mask = Ok v
          ∧ VertexData_of geom (Z.of_nat j) mask = Ok v
          ∧ VertexData_of geom' (Z.of_nat i) mask = Ok v'
          ∧ VertexData_of geom' (Z.of_nat j) mask = Ok v'.
Proof.
  intros Hready.
  destruct (expand_ready_returns data f geom mask Hready)
    as (s & Hrun & (Hgeom & Hlen & _) & (Hcur & _ & Hbound)).
  destruct Hready as (Hn & Hrange & Hsize & Hall).
  exists (es_data s), (es_geom s). split; [done|]. split; [done|].
  intros i j e Hi Hj.
  pose proof (lookup_lt_Some _ _ _ Hi) as Hilt.
  pose proof (lookup_lt_Some _ _ _ Hj) as Hjlt.
  destruct (Hbound i e) as (v & Hv & Hsi); [lia|done|].
  destruct (Hbound j e) as (v2 & Hv2 & Hsj); [lia|done|].
  assert (v2 = v) as -> by congruence.
  assert (∃ v', VertexData_of (es_geom s) (Z.of_nat i) mask = Ok v') as [v' Hv'].
  { apply (VertexData_of_defined _ _ _ (length (get_indices f geom))); [|lia].
    intros f'. rewrite Hgeom. destruct (decide (f = f')) as [<-|Hne].
    - rewrite get_set_indices. right. lia.
    - rewrite get_set_indices_ne by done. apply Hall. }
  exists v, v'. split; [done|]. split; [done|]. split; [done|].
  rewrite <- Hv', Hgeom. symmetry.
  apply (VertexData_of_final f _ geom _ _ mask v e); rewrite ?Nat2Z.id; (done || lia).
Qed.

Lemma expand_consistent_witness :
  ∃ data' geom',
    expand [10; 20] VERTEX_INDICES shared_corner_geometry EXCLUDE_VERTEX
    = Ok (data', geom')
    ∧ Forall (λ e, 0 <= e < Z.of_nat (length data')) (get_indices VERTEX_INDICES geom').
Proof.
  assert (expand_ready [10; 20] VERTEX_INDICES shared_corner_geometry) as Hready.
  { split; [simpl; lia|]. split; [repeat constructor; simpl; lia|].
    split; [simpl; lia|]. intros []; simpl; (by left) || (right; lia). }
  destruct (expand_consistent [10; 20] VERTEX_INDICES shared_corner_geometry
              EXCLUDE_VERTEX Hready) as (data' & geom' & Hrun & Hvalid & _).
  by exists data', geom'.
Defined.

(** C2, as it is stated, fails on indices that are not valid on entry: with
    two entries of data and the indices [2, 0, 0], the split at position 2
    creates the entry 2 that position 0 already refers to, and the two
    positions end on the same index with different signatures; with one
    entry of data and the single index 5, nothing is split and the index is
    left out of range. *)
Lemma expand_stray_index_counterexample :
  expand [10; 20] VERTEX_INDICES stray_index_geometry EXCLUDE_VERTEX
  = Ok ([10; 20; 10], set_vertex_indices [2; 0; 2] stray_index_geometry)
  ∧ VertexData_of (set_vertex_indices [2; 0; 2] stray_index_geometry) 0 EXCLUDE_VERTEX
    = Ok (mkVertexData (-1) (-1) (-1) (-1) 0)
  ∧ VertexData_of (set_vertex_indices [2; 0; 2] stray_index_geometry) 2 EXCLUDE_VERTEX
    = Ok (mkVertexData (-1) (-1) (-1) (-1) 2)
  ∧ expand [10] VERTEX_INDICES (geometry_of_indices [5] []) EXCLUDE_VERTEX
    = Ok ([10], geometry_of_indices [5] []).
Proof. repeat split; vm_compute; reflexivity. Qed.

(** ** Typed array decoder *)

Lemma u8_val_range b : 0 <= u8_val b < 256.
Proof.
  unfold u8_val. pose proof (Byte.to_N_bounded b). lia.
Qed.

Lemma load_u32_range m p : 0 <= load_u32 m p < 2 ^ 32.
Proof.
  unfold load_u32.
  pose proof (u8_val_range (m p)). pose proof (u8_val_range (m (p + 1))).
  pose proof (u8_val_range (m (p + 2))). pose proof (u8_val_range (m (p + 3))).
  lia.
Qed.

(** The raw decoder on a property of an array kind, as one case analysis on
    the header. *)
Lemma parseBinaryArrayRaw_cases `{Collaborators} m p out max_size elem_size :
  array_elem_size (type p) = Some elem_size →
  parseBinaryArrayRaw m p out max_size =
  if end_ (value p) <? payload_start p then Ok (false, out)
  else if header_encoding m p =? 0 then
    if max_size <? to_int (header_byte_length m p) then Ok (false, out)
    else if end_ (value p) <? payload_start p + header_byte_length m p then Ok (false, out)
    else out' ← memcpy out m (payload_start p) (header_byte_length m p); Ok (true, out')
  else if header_encoding m p =? 1 then
    if max_size <? to_int (to_u32 (elem_size * header_count m p)) then Ok (false, out)
    else
      let r := decompress (load_bytes m (payload_start p) (header_byte_length m p))
                 (to_u32 (elem_size * header_count m p)) in
      out' ← store_bytes out r.2; Ok (r.1, out')
  else Ok (false, out).
Proof.
  intros Hty. unfold parseBinaryArrayRaw, array_elem_size in *.
  destruct (type p); try discriminate; injection Hty as <-; reflexivity.
Qed.

(** On a window shorter than 2^31 bytes a raw payload is refused exactly
    when it runs past the window or when its byte length exceeds the
    capacity; otherwise it is copied byte for byte. *)
Lemma parseBinaryArrayRaw_raw_bounded `{Collaborators} m p out max_size elem_size :
  array_elem_size (type p) = Some elem_size →
  header_encoding m p = 0 →
  end_ (value p) - begin (value p) < 2 ^ 31 →
  max_size <= Z.of_nat (length out) →
  (end_ (value p) < payload_start p + header_byte_length m p
     ∨ max_size < header_byte_length m p →
   parseBinaryArrayRaw m p out max_size = Ok (false, out))
  ∧ (¬ (end_ (value p) < payload_start p + header_byte_length m p
          ∨ max_size < header_byte_length m p) →
     parseBinaryArrayRaw m p out max_size
     = Ok (true, load_bytes m (payload_start p) (header_byte_length m p)
                 ++ drop (Z.to_nat (header_byte_length m p)) out)).
Proof.
  intros Hty Henc Hwin Hcap.
  rewrite (parseBinaryArrayRaw_cases m p out max_size elem_size Hty), Henc.
  pose proof (load_u32_range m (begin (value p) + 8)) as Hlen.
  fold (header_byte_length m p) in Hlen.
  unfold payload_start in *. cbn [Z.eqb].
  split.
  - intros Hfail.
    destruct (end_ (value p) <? begin (value p) + 12) eqn:H0; [done|].
    apply Z.ltb_ge in H0.
    destruct (max_size <? to_int (header_byte_length m p)) eqn:H1; [done|].
    apply Z.ltb_ge in H1.
    destruct (end_ (value p) <? begin (value p) + 12 + header_byte_length m p) eqn:H2;
      [done|].
    apply Z.ltb_ge in H2. rewrite to_int_small in H1 by lia. lia.
  - intros Hok.
    rewrite (proj2 (Z.ltb_ge (end_ (value p)) (begin (value p) + 12))) by lia.
    rewrite to_int_small by lia.
    rewrite (proj2 (Z.ltb_ge max_size (header_byte_length m p))) by lia.
    rewrite (proj2 (Z.ltb_ge (end_ (value p)) (begin (value p) + 12 + _))) by lia.
    unfold memcpy. rewrite (proj2 (Z.leb_le (header_byte_length m p) _)) by lia.
    reflexivity.
Qed.

(** C6.  On the property whose header declares a raw payload of 2^31 bytes,
    all inside its window, the byte length is compared as the [int] -2^31:
    the payload is not refused though it exceeds the capacity of four bytes,
    and the copy runs past the destination. *)
Theorem parseBinaryArrayRaw_huge_raw_payload `{Collaborators} :
  header_encoding huge_raw_memory huge_raw_property = 0
  ∧ header_byte_length huge_raw_memory huge_raw_property = 2 ^ 31
  ∧ to_int (header_byte_length huge_raw_memory huge_raw_property) = - 2 ^ 31
  ∧ payload_start huge_raw_property
      + header_byte_length huge_raw_memory huge_raw_property
    = end_ (value huge_raw_property)
  ∧ parseBinaryArrayRaw huge_raw_memory huge_raw_property (le_bytes 4 0) 4
    = UndefinedBehaviour.
Proof. repeat split. Qed.

(** When the product of the element size and the count is in the range of
    [int], a compressed payload is refused when the product exceeds the
    capacity, and is otherwise handed to the inflate with the product as the
    capacity of the destination. *)
Lemma parseBinaryArrayRaw_compressed_bounded `{Collaborators} m p out max_size elem_size :
  array_elem_size (type p) = Some elem_size →
  header_encoding m p = 1 →
  elem_size * header_count m p < 2 ^ 31 →
  (max_size < elem_size * header_count m p →
   parseBinaryArrayRaw m p out max_size = Ok (false, out))
  ∧ (elem_size * header_count m p <= max_size →
     payload_start p <= end_ (value p) →
     parseBinaryArrayRaw m p out max_size
     = (let r := decompress (load_bytes m (payload_start p) (header_byte_length m p))
                   (elem_size * header_count m p) in
        out' ← store_bytes out r.2; Ok (r.1, out'))).
Proof.
  intros Hty Henc Hprod.
  rewrite (parseBinaryArrayRaw_cases m p out max_size elem_size Hty), Henc.
  pose proof (load_u32_range m (begin (value p))) as Hcount.
  fold (header_count m p) in Hcount.
  assert (0 < elem_size) as Hes.
  { unfold array_elem_size in Hty. destruct (type p); try discriminate;
      injection Hty as <-; lia. }
  cbn [Z.eqb Pos.eqb].
  rewrite to_u32_small, to_int_small by nia.
  split.
  - intros Hfail. destruct (end_ (value p) <? payload_start p); [done|].
    by rewrite (proj2 (Z.ltb_lt max_size _)).
  - intros Hfit Hwin.
    rewrite (proj2 (Z.ltb_ge (end_ (value p)) (payload_start p))) by lia.
    by rewrite (proj2 (Z.ltb_ge max_size _)).
Qed.

(** C7.  On the property whose header declares 0x10000000 compressed
    doubles, the product 8 * count is 2^31 and is compared as the [int]
    -2^31: the payload is not refused though the product exceeds the
    capacity of eight bytes; the inflate is told a capacity of 2^31 bytes,
    and an inflate that stores sixteen bytes runs past the destination. *)
Theorem parseBinaryArrayRaw_wide_count :
  (∀ C : Collaborators,
     header_encoding wide_count_memory wide_count_property = 1
     ∧ 8 * header_count wide_count_memory wide_count_property = 2 ^ 31
     ∧ to_int (to_u32 (8 * header_count wide_count_memory wide_count_property))
       = - 2 ^ 31
     ∧ @parseBinaryArrayRaw C wide_count_memory wide_count_property
         (replicate 8 "000"%byte) 8
       = (let r := @decompress C [] (2 ^ 31) in
          out' ← store_bytes (replicate 8 "000"%byte) r.2; Ok (r.1, out')))
  ∧ @parseBinaryArrayRaw greedy_collaborators wide_count_memory wide_count_property
      (replicate 8 "000"%byte) 8
    = UndefinedBehaviour.
Proof.
  split.
  - intros C. repeat split.
  - vm_compute. reflexivity.
Qed.

(** ** Records of several elements *)

Lemma parseBinaryArray_cases `{Collaborators} `{Pod T} m p (out : list T) elem_size :
  array_elem_size (type p) = Some elem_size →
  type p ≠ "l"%byte →
  parseBinaryArray m p out =
  let elem_count := to_int (sizeof T ÷ elem_size) in
  if elem_count =? 0 then UndefinedBehaviour else
  let out := vector_resize (header_count m p ÷ to_u32 elem_count) out in
  if bool_decide (out = []) then UndefinedBehaviour else
  r ← parseBinaryArrayRaw m p (vector_bytes out)
        (to_int (to_size_t (sizeof T * Z.of_nat (length out))));
  Ok (r.1, bytes_vector (length out) r.2).
Proof.
  intros Hty Hl. unfold parseBinaryArray, array_elem_size in *.
  destruct (type p); try discriminate; try done; injection Hty as <-; reflexivity.
Qed.

Lemma length_bytes_vector `{Pod T} n bs : length (bytes_vector (T := T) n bs) = n.
Proof.
  unfold bytes_vector. rewrite length_fmap.
  generalize (Z.to_nat (sizeof T)). intros k. revert bs.
  induction n as [|n IH]; intros bs; [done|]. simpl. by rewrite IH.
Qed.

(** C8, as the code has it.  [parseBinaryArray] makes room for
    floor(C / W) records and leaves the refusal to the capacity check of
    the raw decoder: when the count C is not a multiple of the width W, a
    compressed payload, and a raw payload whose byte length is the C
    elements the header declares, are refused (the product of the element
    size and C being in the range of [int]). *)
Theorem parseBinaryArray_indivisible `{Collaborators} `{Pod T} m p (out : list T)
    (elem_size W : Z) :
  array_elem_size (type p) = Some elem_size →
  type p ≠ "l"%byte →
  1 <= W < 2 ^ 31 →
  sizeof T = W * elem_size →
  header_count m p mod W ≠ 0 →
  elem_size * header_count m p < 2 ^ 31 →
  header_encoding m p ≠ 0
    ∨ header_byte_length m p = elem_size * header_count m p →
  (∀ v, parseBinaryArray m p out ≠ Ok (true, v))
  ∧ (W <= header_count m p →
     ∃ v, parseBinaryArray m p out = Ok (false, v)
          ∧ Z.of_nat (length v) = header_count m p / W).
Proof.
  intros Hty Hl HW Hsize Hmod Hprod Hheader.
  pose proof (load_u32_range m (begin (value p))) as Hcount.
  fold (header_count m p) in Hcount.
  assert (0 < elem_size) as Hes.
  { unfold array_elem_size in Hty. destruct (type p); try discriminate;
      injection Hty as <-; lia. }
  rewrite (parseBinaryArray_cases m p out elem_size Hty Hl). cbn zeta.
  rewrite Hsize, Z.quot_mul by lia.
  rewrite (to_int_small W), (to_u32_small W) by lia.
  rewrite (proj2 (Z.eqb_neq W 0)) by lia.
  rewrite Z.quot_div_nonneg by lia.
  set (n := header_count m p / W).
  assert (0 <= n) as Hn by (apply Z.div_pos; lia).
  pose proof (Z.div_mod (header_count m p) W ltac:(lia)) as Hdm.
  pose proof (Z.mod_pos_bound (header_count m p) W ltac:(lia)) as Hmb.
  fold n in Hdm.
  assert (length (vector_resize n out) = Z.to_nat n) as Hlen
    by (unfold vector_resize; apply length_resize).
  destruct (decide (n = 0)) as [Hn0|Hn0].
  - (* fewer elements than one record *)
    assert (vector_resize n out = []) as ->.
    { apply length_zero_iff_nil. rewrite Hlen. lia. }
    rewrite bool_decide_eq_true_2 by done.
    split; [done|]. intros Hle. apply Z.div_small_iff in Hn0; lia.
  - rewrite bool_decide_eq_false_2
      by (intros Hnil; rewrite Hnil in Hlen; simpl in Hlen; lia).
    rewrite Hlen, Z2Nat.id by lia.
    assert (W * elem_size * n < elem_size * header_count m p) as Hshort by nia.
    rewrite to_size_t_small, to_int_small by nia.
    rewrite (parseBinaryArrayRaw_cases m p _ _ elem_size Hty).
    assert (∃ bs, (if end_ (value p) <? payload_start p then Ok (false, vector_bytes (vector_resize n out))
       else if header_encoding m p =? 0 then
         if W * elem_size * n <? to_int (header_byte_length m p)
         then Ok (false, vector_bytes (vector_resize n out))
         else if end_ (value p) <? payload_start p + header_byte_length m p
              then Ok (false, vector_bytes (vector_resize n out))
              else out' ← memcpy (vector_bytes (vector_resize n out)) m
                            (payload_start p) (header_byte_length m p);
                   Ok (true, out')
       else if header_encoding m p =? 1 then
         if W * elem_size * n <? to_int (to_u32 (elem_size * header_count m p))
         then Ok (false, vector_bytes (vector_resize n out))
         else
           let r := decompress (load_bytes m (payload_start p) (header_byte_length m p))
                      (to_u32 (elem_size * header_count m p)) in
           out' ← store_bytes (vector_bytes (vector_resize n out)) r.2; Ok (r.1, out')
       else Ok (false, vector_bytes (vector_resize n out))) = Ok (false, bs)) as [bs ->].
    { destruct (end_ (value p) <? payload_start p); [by eexists|].
      destruct (header_encoding m p =? 0) eqn:Henc0.
      - apply Z.eqb_eq in Henc0. destruct Hheader as [Hne|Hlen']; [done|].
        rewrite Hlen', to_int_small by nia.
        rewrite (proj2 (Z.ltb_lt _ _)) by lia. by eexists.
      - destruct (header_encoding m p =? 1); [|by eexists].
        rewrite to_u32_small, to_int_small by nia.
        rewrite (proj2 (Z.ltb_lt _ _)) by lia. by eexists. }
    cbn [mbind Outcome_bind fst snd].
    split; [done|]. intros _. eexists. split; [reflexivity|].
    rewrite length_bytes_vector. lia.
Qed.

Lemma parseBinaryArray_indivisible_witness :
  header_count four_doubles_memory four_doubles_property mod 3 ≠ 0
  ∧ ∃ v, @parseBinaryArray sample_collaborators Vec3 _ four_doubles_memory
           four_doubles_property [] = Ok (false, v)
         ∧ Z.of_nat (length v) = 1.
Proof.
  assert (header_count four_doubles_memory four_doubles_property mod 3 ≠ 0) as Hmod
    by (vm_compute; discriminate).
  split; [exact Hmod|].
  destruct (@parseBinaryArray_indivisible sample_collaborators Vec3 _
              four_doubles_memory four_doubles_property [] 8 3) as [_ Hfail].
  - reflexivity.
  - discriminate.
  - lia.
  - reflexivity.
  - exact Hmod.
  - vm_compute. reflexivity.
  - left. vm_compute. discriminate.
  - destruct Hfail as (v & Hv & Hlen); [vm_compute; discriminate|].
    exists v. split; [exact Hv|]. rewrite Hlen. reflexivity.
Defined.

(** C8, as it is stated, fails: the header that declares four doubles and a
    raw payload of 24 bytes is decoded into one three-wide record, the
    fourth element being dropped. *)
Lemma parseBinaryArray_truncates_counterexample :
  header_count short_payload_memory short_payload_property = 4
  ∧ header_encoding short_payload_memory short_payload_property = 0
  ∧ header_byte_length short_payload_memory short_payload_property = 24
  ∧ @parseBinaryArray sample_collaborators Vec3 _ short_payload_memory
      short_payload_property []
    = Ok (true, [mkVec3 (mkDouble 1) (mkDouble 2) (mkDouble 3)]).
Proof. repeat split; vm_compute; reflexivity. Qed.

(** ** Geometry assembly *)

(** *** Shape of what the triangulator leaves *)

Lemma triangulate_shape old indices to_old old' indices' to_old' :
  Z.of_nat (length old) < 2 ^ 31 →
  triangulate old indices to_old = Ok (old', indices', to_old') →
  length old' = length old
  ∧ (length indices' + length to_old = length to_old' + length indices)%nat
  ∧ (length indices' <= length indices + 3 * length old)%nat
  ∧ (indices_below (length old) to_old → indices_below (length old) to_old').
Proof.
  intros Hlen Hrun. unfold triangulate in Hrun.
  inv_bind Hrun. rename a into s. injection Hrun as <- <- <-.
  apply (for_loop_invariant
    (λ i s, 0 <= ts_in_polygon_idx s <= i
       ∧ length (ts_old_indices s) = length old
       ∧ (length (ts_indices s) + length to_old
          = length (ts_to_old s) + length indices)%nat
       ∧ Z.of_nat (length (ts_indices s)) <= Z.of_nat (length indices) + 3 * i
       ∧ (indices_below (length old) to_old →
          indices_below (length old) (ts_to_old s)))) in Ha.
  - destruct Ha as (_ & H1 & H2 & H3 & H4). split; [done|]. split; [done|].
    split; [lia|done].
  - cbn. split; [lia|]. split; [done|]. split; [lia|]. split; [lia|done].
  - clear Ha. intros i s1 s2 Hi (Hipi & Hlo & Hli & Hsz & Hto) Hbody.
    unfold triangulate_body in Hbody.
    inv_bind Hbody. rename a into idx.
    inv_bind Hbody. rename a into pushed.
    assert ((length pushed.1 + length to_old = length pushed.2 + length indices)%nat
            ∧ Z.of_nat (length pushed.1) <= Z.of_nat (length indices) + 3 * (i + 1)
            ∧ (indices_below (length old) to_old →
               indices_below (length old) pushed.2)) as (Hpl & Hps & Hpt).
    { destruct (ts_in_polygon_idx s1 <=? 2) eqn:Hcase;
        [apply Z.leb_le in Hcase|apply Z.leb_gt in Hcase].
      - injection Ha0 as <-. cbn [fst snd]. rewrite !length_app. simpl.
        split; [lia|]. split; [lia|]. intros Hv. apply Forall_app. split; [by apply Hto|].
        repeat constructor; lia.
      - inv_bind Ha0. inv_bind Ha0. injection Ha0 as <-.
        cbn [fst snd]. rewrite !length_app. simpl.
        split; [lia|]. split; [lia|].
        intros Hv. apply Forall_app. split; [by apply Hto|].
        apply at_Ok in Ha2 as [Hr2 _].
        rewrite (to_int_small (i - 1)) in * by lia.
        rewrite to_size_t_small in Hr2 by lia.
        rewrite (to_int_small (i - ts_in_polygon_idx s1)) by lia.
        repeat constructor; lia. }
    inv_bind Hbody. rename a into raw.
    rewrite (to_int_small (ts_in_polygon_idx s1 + 1)) in Hbody by lia.
    destruct (raw <? 0).
    + inv_bind Hbody. apply set_at_Ok in Ha2 as [_ ->]. injection Hbody as <-.
      cbn. rewrite length_insert. split; [lia|done].
    + injection Hbody as <-. cbn. split; [lia|done].
Qed.

(** *** Remap and triangle rewriting *)

Lemma remapForRendering_result {T} (out : list T) indices mapping out' :
  remapForRendering out indices mapping = Ok out' →
  length out' = length out
  ∧ (out ≠ [] → length mapping = length indices →
     Forall (λ e, 0 <= e < 2 ^ 31) mapping →
     indices_below (length out) mapping).
Proof.
  unfold remapForRendering. intros Hrun.
  destruct (bool_decide (length out = 0%nat)) eqn:Hempty.
  - injection Hrun as <-. split; [done|]. intros Hne.
    apply bool_decide_eq_true in Hempty. by destruct out.
  - apply (for_loop_invariant
      (λ i (o : list T), length o = length out
         ∧ ∀ k e, Z.of_nat k < i → mapping !! k = Some e → 0 <= e < 2 ^ 31 →
             0 <= e < Z.of_nat (length out))) in Hrun.
    + destruct Hrun as [Hlen Hall]. split; [done|].
      intros _ Hml Hint. apply Forall_lookup. intros k e Hk.
      apply (Hall k e); [|done|].
      * pose proof (lookup_lt_Some _ _ _ Hk). lia.
      * apply (proj1 (Forall_lookup _ _) Hint _ _ Hk).
    + split; [done|]. intros; lia.
    + clear Hrun. intros i o o' Hi [Hlen Hall] Hbody.
      inv_bind Hbody. rename a into idx. inv_bind Hbody. rename a into ref.
      inv_bind Hbody. rename a into v.
      apply set_at_Ok in Hbody as [Hr ->]. rewrite length_insert.
      split; [done|]. intros k e Hk Hl Hint.
      destruct (decide (Z.of_nat k = i)) as [<-|Hne]; [|apply (Hall k e); (done || lia)].
      apply at_Ok in Ha as [_ Hidx]. rewrite Nat2Z.id, Hl in Hidx.
      injection Hidx as <-. rewrite to_size_t_small in Hr by lia. lia.
Qed.

Lemma rewrite_triangles_result (to_old_indices vertex_indices triangles triangles' : list Z)
    (P : Z → Prop) (turns : nat) :
  Forall P vertex_indices →
  Forall P triangles →
  for_loop turns 0
    (λ i triangles,
       old ← at_ to_old_indices (to_size_t i);
       v ← at_ vertex_indices (to_size_t old);
       set_at triangles (to_size_t i) v)
    triangles = Ok triangles' →
  Forall P triangles'.
Proof.
  intros HP Hold Hrun.
  apply (for_loop_invariant (λ _ (t : list Z), Forall P t)) in Hrun; [done|done|].
  clear Hrun. intros i t t' Hi Hall Hbody.
  inv_bind Hbody. rename a into old. inv_bind Hbody. rename a into v.
  apply set_at_Ok in Hbody as [Hr ->].
  apply at_Ok in Ha0 as [_ Hv].
  apply Forall_insert; [done|].
  apply (proj1 (Forall_lookup _ _) HP _ _ Hv).
Qed.

(** *** Shape of what the decoding leaves *)

Lemma parseBinaryArray_nonempty `{Collaborators} `{Pod T} m p (out : list T) v :
  parseBinaryArray m p out = Ok (true, v) → v ≠ [].
Proof.
  unfold parseBinaryArray. intros Hrun.
  destruct (match type p with
            | "d"%byte => Some 8 | "f"%byte => Some 4 | "i"%byte => Some 4
            | _ => None end) as [elem_size|]; [|congruence].
  destruct (to_int (sizeof T ÷ elem_size) =? 0); [discriminate|].
  case_bool_decide as Hne; [discriminate|].
  inv_bind Hrun. injection Hrun as _ <-.
  intros Hnil. apply Hne. apply length_zero_iff_nil.
  rewrite <- (length_bytes_vector (T := T) _ a.2), Hnil. reflexivity.
Qed.

Lemma layers_decoded_refl g : layers_decoded g g.
Proof. repeat split. by left. Qed.

Lemma layers_decoded_trans g1 g2 g3 :
  layers_decoded g1 g2 → layers_decoded g2 g3 → layers_decoded g1 g3.
Proof.
  intros (Hv & Hi & Ht & Hf) (Hv' & Hi' & Ht' & Hf').
  split; [congruence|]. split; [congruence|]. split; [congruence|].
  intros f. destruct (Hf' f) as [->|Hlen]; [apply Hf|]. right. congruence.
Qed.

(** A layer whose default indices were generated has one index per loop
    vertex. *)
Lemma layers_decoded_set (f : IndexMember) (g g' : GeometryImpl) indices :
  vertices g' = vertices g →
  vertex_indices g' = vertex_indices g →
  triangles g' = triangles g →
  f ≠ VERTEX_INDICES →
  (∀ f', f' ≠ f → get_indices f' g' = get_indices f' g) →
  get_indices f g' = indices →
  length indices = length (vertex_indices g) →
  layers_decoded g g'.
Proof.
  intros Hv Hi Ht Hf Hother Hget Hlen.
  split; [done|]. split; [done|]. split; [done|].
  intros f'. destruct (decide (f' = f)) as [->|Hne]; [right; congruence|].
  left. by apply Hother.
Qed.

Lemma decodeAttributeLayers_shape `{Collaborators} m element g g' :
  decodeAttributeLayers m element g = Ok g' → layers_decoded g g'.
Proof.
  unfold decodeAttributeLayers. intros Hrun.
  inv_bind Hrun. rename a into s1, Ha into H1.
  inv_bind Hrun. rename a into s2, Ha into H2.
  inv_bind Hrun. rename a into s3, Ha into H3.
  inv_bind Hrun. rename a into s4, Ha into H4.
  injection Hrun as <-.
  assert (layers_decoded g s1.1) as L1.
  { destruct (findChild m element "LayerElementUV"); [|injection H1 as <-; apply layers_decoded_refl].
    inv_bind H1. destruct (negb a.1); [discriminate|].
    inv_bind H1. inv_bind H1. injection H1 as <-.
    apply generateIndices_length in Ha1.
    apply (layers_decoded_set UV_INDICES _ _ a1); try done.
    intros f' Hf'. by destruct f'. }
  assert (layers_decoded s1.1 s2.1) as L2.
  { destruct (findChild m element "LayerElementTangents");
      [|injection H2 as <-; apply layers_decoded_refl].
    inv_bind H2. destruct (negb a.1); [discriminate|].
    inv_bind H2. inv_bind H2. injection H2 as <-.
    apply generateIndices_length in Ha1.
    apply (layers_decoded_set TANGENT_INDICES _ _ a1); try done.
    intros f' Hf'. by destruct f'. }
  assert (layers_decoded s2.1 s3.1) as L3.
  { destruct (findChild m element "LayerElementColor");
      [|injection H3 as <-; apply layers_decoded_refl].
    inv_bind H3. destruct (negb a.1); [discriminate|].
    inv_bind H3. inv_bind H3. injection H3 as <-.
    apply generateIndices_length in Ha1.
    apply (layers_decoded_set COLOR_INDICES _ _ a1); try done.
    intros f' Hf'. by destruct f'. }
  assert (layers_decoded s3.1 s4.1) as L4.
  { destruct (findChild m element "LayerElementNormal");
      [|injection H4 as <-; apply layers_decoded_refl].
    inv_bind H4. destruct (negb a.1); [discriminate|].
    inv_bind H4. inv_bind H4. injection H4 as <-.
    apply generateIndices_length in Ha1.
    apply (layers_decoded_set NORMAL_INDICES _ _ a1); try done.
    intros f' Hf'. by destruct f'. }
  eauto using layers_decoded_trans.
Qed.

Lemma decodeMaterialLayer_shape `{Collaborators} m element g g' :
  decodeMaterialLayer m element g = Ok g' → g' = set_materials (materials g') g.
Proof.
  unfold decodeMaterialLayer. intros Hrun.
  destruct (findChild m element "LayerElementMaterial") as [layer|];
    [|injection Hrun as <-; by destruct g].
  destruct (findChild m layer "MappingInformationType"); [|discriminate].
  destruct (findChild m layer "ReferenceInformationType"); [|discriminate].
  inv_bind Hrun. inv_bind Hrun.
  destruct a0.
  - destruct (findChild m layer "Materials" ≫= first_property); [|discriminate].
    inv_bind Hrun. destruct (negb a0.1); [discriminate|].
    inv_bind Hrun. injection Hrun as <-. reflexivity.
  - destruct (negb _); [discriminate|]. injection Hrun as <-. by destruct g.
Qed.

Lemma decodeGeometry_shape `{Collaborators} m element g to_old_indices :
  decodeGeometry m element = Ok (g, to_old_indices) →
  decoded_shape g to_old_indices.
Proof.
  unfold decodeGeometry. intros Hrun.
  destruct (findChild m element "Vertices" ≫= first_property); [|discriminate].
  destruct (findChild m element "PolygonVertexIndex" ≫= first_property);
    [|discriminate].
  inv_bind Hrun. rename a into rv. destruct (negb rv.1); [discriminate|].
  inv_bind Hrun. rename a into ri. destruct ri as [[] vi]; [|discriminate].
  cbn [fst snd negb] in Hrun.
  inv_bind Hrun. rename a into t. destruct t as [[old' indices'] to_old'].
  cbn [fst snd] in Hrun.
  inv_bind Hrun. rename a into gm. inv_bind Hrun. rename a into gl.
  injection Hrun as <- <-.
  apply parseBinaryArray_nonempty in Ha0 as Hne.
  apply decodeMaterialLayer_shape in Ha2.
  apply decodeAttributeLayers_shape in Ha3 as (Hv & Hi & Ht & Hf).
  rewrite Ha2 in Hi, Ht, Hf. cbn in Hi, Ht, Hf. cbn in Ha1.
  assert (length old' = length vi) as Hold.
  { pose proof Ha1 as Hloop. unfold triangulate in Hloop.
    inv_bind Hloop as s Hs. injection Hloop as <- _ _.
    apply (for_loop_invariant
      (λ _ s, length (ts_old_indices s) = length vi)) in Hs; [done|done|].
    intros i s1 s2 _ Hl Hbody. unfold triangulate_body in Hbody.
    inv_bind Hbody as idx Hidx. inv_bind Hbody as pushed Hpushed.
    inv_bind Hbody as raw Hraw. destruct (raw <? 0).
    - inv_bind Hbody as stored Hstored.
      apply set_at_Ok in Hstored as [_ ->]. injection Hbody as <-.
      cbn. by rewrite length_insert.
    - by injection Hbody as <-. }
  unfold decoded_shape. rewrite Hi.
  split.
  { intros f. destruct (Hf f) as [Heq|Hlen]; [|by right].
    rewrite Heq. destruct f; cbn; (by left) || by right. }
  split; [intros Hnil; apply Hne; apply length_zero_iff_nil;
          rewrite <- Hold, Hnil; reflexivity|].
  intros Hbound. rewrite Ht, Hold in *.
  destruct (triangulate_shape _ _ _ _ _ _ Hbound Ha1) as (_ & Hl1 & Hl2 & Hl3).
  cbn in Hl1, Hl2. split; [lia|]. split; [lia|].
  apply Hl3. constructor.
Qed.

(** C9.  A layer whose decoded index vector is not empty and whose length
    differs from the number of loop vertices stops [generateIndices] on a
    failed assertion; and whatever the file, an index vector that the
    decoding hands on to the expansion is empty or has one entry per loop
    vertex. *)
Theorem generateIndices_mismatch {T} (indices : list Z) (data : list T)
    (mapping : VertexDataMapping) (vertiex_indices : list Z) :
  indices ≠ [] →
  length indices ≠ length vertiex_indices →
  generateIndices indices data mapping vertiex_indices = AssertFailed
  ∧ ∀ (C : Collaborators) m element geom to_old_indices f,
      @decodeGeometry C m element = Ok (geom, to_old_indices) →
      get_indices f geom = []
      ∨ length (get_indices f geom) = length (vertex_indices geom).
Proof.
  intros Hi Hlen. split.
  - unfold generateIndices, assert.
    destruct (negb (bool_decide (length data = 0%nat))); [|reflexivity].
    destruct (negb (bool_decide (length vertiex_indices = 0%nat))); [|reflexivity].
    cbn [mbind Outcome_bind].
    rewrite (bool_decide_eq_false_2 (length indices = 0%nat)) by (by destruct indices).
    cbn [negb]. rewrite bool_decide_eq_false_2 by done. reflexivity.
  - intros C m element geom to_old_indices f Hdecode.
    destruct (decodeGeometry_shape _ _ _ _ Hdecode) as (Hshape & _). apply Hshape.
Qed.

Lemma generateIndices_mismatch_witness :
  generateIndices [0; 1] [mkVec3 (mkDouble 0) (mkDouble 0) (mkDouble 0)]
    BY_POLYGON_VERTEX [0; 1; 2] = AssertFailed.
Proof.
  apply (generateIndices_mismatch [0; 1]
           [mkVec3 (mkDouble 0) (mkDouble 0) (mkDouble 0)] BY_POLYGON_VERTEX [0; 1; 2]).
  - discriminate.
  - simpl. lia.
Defined.

(** *** The blocks of the expansion *)

Lemma expand_ready_result {T} (data : list T) f g mask data' g' :
  expand_ready data f g →
  expand data f g mask = Ok (data', g') →
  g' = set_indices f (get_indices f g') g
  ∧ length (get_indices f g') = length (get_indices f g)
  ∧ indices_below (length data') (get_indices f g')
  ∧ (length data <= length data')%nat
  ∧ Z.of_nat (length data')
    < Z.of_nat (length data) + Z.of_nat (length (get_indices f g)).
Proof.
  intros Hready Hrun.
  destruct (expand_ready_returns data f g mask Hready)
    as (s & Hs & (Hgeom & Hlen & _ & _ & (ext & Hdata & _) & _) & (Hcur & Hgrow & _)).
  rewrite Hs in Hrun. injection Hrun as <- <-.
  split; [done|]. split; [done|]. split; [done|].
  split; [rewrite Hdata, length_app; lia|lia].
Qed.

Lemma expand_returns_nonempty {T} (data : list T) f g mask r :
  expand data f g mask = Ok r → get_indices f g ≠ [].
Proof.
  unfold expand. intros Hrun. inv_bind Hrun as vtx Hvtx. inv_bind Hrun as e He.
  apply at_Ok in He as [Hr _]. intros Hnil. rewrite Hnil in Hr. simpl in Hr. lia.
Qed.

(** The block of an attribute: expansion of its data, then remap onto the
    vertex indices. *)
Lemma attribute_block {T} (data : list T) f g (n : nat) pending d2 g2 v :
  f ≠ VERTEX_INDICES →
  assembly_invariant n (f :: pending) g →
  length data = member_size f g →
  data ≠ [] →
  expand data f g (exclude_bit f) = Ok (d2, g2) →
  remapForRendering d2 (get_indices f g2) (vertex_indices g2) = Ok v →
  g2 = set_indices f (get_indices f g2) g
  ∧ length (get_indices f g2) = n
  ∧ v ≠ []
  ∧ indices_below (length v) (get_indices f g2)
  ∧ indices_below (length v) (vertex_indices g).
Proof.
  intros Hf (Hn & Hshape & Hvalid & Hvsize & Hpending & Hcovered) Hsize Hne Hexp Hremap.
  pose proof (expand_returns_nonempty _ _ _ _ _ Hexp) as Hind.
  assert (length (get_indices f g) = n) as Hlen by (by destruct (Hshape f)).
  assert (expand_ready data f g) as Hready.
  { split; [destruct (get_indices f g); [done|simpl; lia]|].
    split; [rewrite Hsize; apply Hvalid|].
    split; [rewrite Hsize; apply Hpending; by left|].
    intros f'. destruct (Hshape f') as [->|Hl]; [by left|right; lia]. }
  destruct (expand_ready_result data f g _ d2 g2 Hready Hexp)
    as (Hg2 & Hlen2 & Hvalid2 & Hgrow & _).
  assert (vertex_indices g2 = vertex_indices g) as Hvi.
  { rewrite Hg2. change (vertex_indices ?x) with (get_indices VERTEX_INDICES x).
    by rewrite get_set_indices_ne. }
  rewrite Hvi in Hremap.
  destruct (remapForRendering_result _ _ _ _ Hremap) as [Hlenv Hmap].
  assert (d2 ≠ []) as Hd2 by (destruct d2, data; simpl in *; (done || lia)).
  split; [done|]. split; [congruence|].
  split; [destruct v, d2; simpl in *; (done || lia)|].
  rewrite Hlenv. split; [done|].
  apply Hmap; [done|congruence|].
  eapply Forall_impl; [|exact (Hvalid VERTEX_INDICES)].
  simpl in *. intros e He. lia.
Qed.

(** The invariant after the block of the attribute [f], run or skipped. *)
Lemma assembly_invariant_attribute (n : nat) pending f g g' :
  f ≠ VERTEX_INDICES →
  f ∉ pending →
  assembly_invariant n (f :: pending) g →
  (∀ f', f' ≠ f → member_size f' g' = member_size f' g) →
  (∀ f', f' ≠ f → get_indices f' g' = get_indices f' g) →
  get_indices f g' = [] ∨ length (get_indices f g') = n →
  indices_below (member_size f g') (get_indices f g') →
  (member_size f g' ≠ 0%nat → indices_below (member_size f g') (vertex_indices g)) →
  assembly_invariant n pending g'.
Proof.
  intros Hf Hfresh (Hn & Hshape & Hvalid & Hvsize & Hpending & Hcovered)
    Hsizes Hinds Hshape' Hvalid' Hcov'.
  assert (vertex_indices g' = vertex_indices g) as Hvi by (by apply (Hinds VERTEX_INDICES)).
  unfold assembly_invariant. rewrite Hvi.
  split; [done|]. split.
  { intros f'. destruct (decide (f' = f)) as [->|Hne]; [done|]. by rewrite Hinds. }
  split.
  { intros f'. destruct (decide (f' = f)) as [->|Hne]; [done|].
    by rewrite Hsizes, Hinds. }
  split; [by rewrite (Hsizes VERTEX_INDICES)|]. split.
  { intros f' Hin. destruct (decide (f' = f)) as [->|Hne]; [done|].
    rewrite Hsizes, Hinds by done. apply Hpending. by right. }
  intros f' Hnin. destruct (decide (f' = f)) as [->|Hne]; [done|].
  rewrite Hsizes by done. apply Hcovered.
  intros [->|Hin]%elem_of_cons; done.
Qed.

Ltac block_frame Hg2 :=
  let f' := fresh "f" in
  let Hne := fresh "Hne" in
  intros f' Hne; rewrite Hg2; destruct f'; (done || reflexivity).

Ltac attribute_block_tac member Hinv Hrun :=
  let Hempty := fresh "Hempty" in
  let Hshape := fresh "Hshape" in
  let Hvalid := fresh "Hvalid" in
  let Hsize := fresh "Hsize" in
  let r := fresh "r" in
  let Hexp := fresh "Hexp" in
  let v := fresh "v" in
  let Hremap := fresh "Hremap" in
  let d2 := fresh "d2" in
  let g2 := fresh "g2" in
  let Hg2 := fresh "Hg2" in
  let Hlen2 := fresh "Hlen2" in
  let Hv := fresh "Hv" in
  let Hvalid2 := fresh "Hvalid2" in
  let Hcov2 := fresh "Hcov2" in
  let Hnil := fresh "Hnil" in
  case_bool_decide as Hempty; cbn [negb] in Hrun;
  [ injection Hrun as <-; split; [|done];
    pose proof Hinv as (_ & Hshape & Hvalid & _);
    eapply (assembly_invariant_attribute _ _ member);
      [done|done|exact Hinv|done|done|apply Hshape|apply Hvalid|];
    intros Hsize; exfalso; apply Hsize; exact Hempty
  | inv_bind Hrun as r Hexp; destruct r as [d2 g2]; cbn [fst snd] in Hrun;
    inv_bind Hrun as v Hremap; injection Hrun as <-;
    destruct (λ Hf Hs Hn,
                attribute_block _ member _ _ _ d2 g2 v Hf Hinv Hs Hn Hexp Hremap)
      as (Hg2 & Hlen2 & Hv & Hvalid2 & Hcov2);
      [done|reflexivity|intros Hnil; apply Hempty; by rewrite Hnil|];
    split;
    [ eapply (assembly_invariant_attribute _ _ member);
      [done|done|exact Hinv|block_frame Hg2|block_frame Hg2
      |by right|exact Hvalid2|intros _; exact Hcov2]
    | rewrite Hg2; done ] ].

(** A member that is not in a list of other members. *)
Ltac fresh_member :=
  repeat (apply not_elem_of_cons; split; [discriminate|]); apply not_elem_of_nil.

Lemma normals_block n pending g g' :
  NORMAL_INDICES ∉ pending →
  assembly_invariant n (NORMAL_INDICES :: pending) g →
  (if negb (bool_decide (length (normals g) = 0%nat)) then
     r ← expand (normals g) NORMAL_INDICES g EXCLUDE_NORMAL;
     v ← remapForRendering (normals (set_normals r.1 r.2))
           (normal_indices (set_normals r.1 r.2))
           (vertex_indices (set_normals r.1 r.2));
     Ok (set_normals v (set_normals r.1 r.2))
   else Ok g) = Ok g' →
  assembly_invariant n pending g'
  ∧ (triangles g' = triangles g ∧ vertices g' = vertices g
     ∧ vertex_indices g' = vertex_indices g).
Proof.
  intros Hfresh Hinv Hrun. attribute_block_tac NORMAL_INDICES Hinv Hrun.
Qed.

Lemma tangents_block n pending g g' :
  TANGENT_INDICES ∉ pending →
  assembly_invariant n (TANGENT_INDICES :: pending) g →
  (if negb (bool_decide (length (tangents g) = 0%nat)) then
     r ← expand (tangents g) TANGENT_INDICES g EXCLUDE_TANGENT;
     v ← remapForRendering (tangents (set_tangents r.1 r.2))
           (tangent_indices (set_tangents r.1 r.2))
           (vertex_indices (set_tangents r.1 r.2));
     Ok (set_tangents v (set_tangents r.1 r.2))
   else Ok g) = Ok g' →
  assembly_invariant n pending g'
  ∧ (triangles g' = triangles g ∧ vertices g' = vertices g
     ∧ vertex_indices g' = vertex_indices g).
Proof.
  intros Hfresh Hinv Hrun. attribute_block_tac TANGENT_INDICES Hinv Hrun.
Qed.

Lemma colors_block n pending g g' :
  COLOR_INDICES ∉ pending →
  assembly_invariant n (COLOR_INDICES :: pending) g →
  (if negb (bool_decide (length (colors g) = 0%nat)) then
     r ← expand (colors g) COLOR_INDICES g EXCLUDE_COLOR;
     v ← remapForRendering (colors (set_colors r.1 r.2))
           (color_indices (set_colors r.1 r.2))
           (vertex_indices (set_colors r.1 r.2));
     Ok (set_colors v (set_colors r.1 r.2))
   else Ok g) = Ok g' →
  assembly_invariant n pending g'
  ∧ (triangles g' = triangles g ∧ vertices g' = vertices g
     ∧ vertex_indices g' = vertex_indices g).
Proof.
  intros Hfresh Hinv Hrun. attribute_block_tac COLOR_INDICES Hinv Hrun.
Qed.

Lemma uvs_block n pending g g' :
  UV_INDICES ∉ pending →
  assembly_invariant n (UV_INDICES :: pending) g →
  (if negb (bool_decide (length (uvs g) = 0%nat)) then
     r ← expand (uvs g) UV_INDICES g EXCLUDE_UV;
     v ← remapForRendering (uvs (set_uvs r.1 r.2))
           (uv_indices (set_uvs r.1 r.2))
           (vertex_indices (set_uvs r.1 r.2));
     Ok (set_uvs v (set_uvs r.1 r.2))
   else Ok g) = Ok g' →
  assembly_invariant n pending g'
  ∧ (triangles g' = triangles g ∧ vertices g' = vertices g
     ∧ vertex_indices g' = vertex_indices g).
Proof.
  intros Hfresh Hinv Hrun. attribute_block_tac UV_INDICES Hinv Hrun.
Qed.

Lemma vertices_block n g d2 g2 :
  n ≠ 0%nat →
  assembly_invariant n
    [VERTEX_INDICES; NORMAL_INDICES; TANGENT_INDICES; COLOR_INDICES; UV_INDICES] g →
  expand (vertices g) VERTEX_INDICES g EXCLUDE_VERTEX = Ok (d2, g2) →
  assembly_invariant n [NORMAL_INDICES; TANGENT_INDICES; COLOR_INDICES; UV_INDICES]
    (set_vertices d2 g2)
  ∧ triangles (set_vertices d2 g2) = triangles g.
Proof.
  intros Hn0 (Hn & Hshape & Hvalid & Hvsize & Hpending & Hcovered) Hexp.
  assert (expand_ready (vertices g) VERTEX_INDICES g) as Hready.
  { split; [simpl; lia|]. split; [apply (Hvalid VERTEX_INDICES)|].
    split; [apply (Hpending VERTEX_INDICES); by left|].
    intros f'. simpl. destruct (Hshape f') as [->|Hl]; [by left|right; lia]. }
  destruct (expand_ready_result _ _ _ _ d2 g2 Hready Hexp)
    as (Hg2 & Hlen2 & Hvalid2 & Hgrow & Hbound).
  simpl in Hg2, Hlen2, Hvalid2, Hbound.
  pose proof (Hpending VERTEX_INDICES ltac:(by left)) as Hroom. simpl in Hroom.
  split; [|by rewrite Hg2].
  unfold assembly_invariant.
  split; [simpl; lia|]. split.
  { intros f. destruct f; [right; simpl; lia|..]; rewrite Hg2;
      [exact (Hshape NORMAL_INDICES)|exact (Hshape TANGENT_INDICES)
      |exact (Hshape COLOR_INDICES)|exact (Hshape UV_INDICES)]. }
  split.
  { intros f. destruct f; [done|..]; rewrite Hg2;
      [exact (Hvalid NORMAL_INDICES)|exact (Hvalid TANGENT_INDICES)
      |exact (Hvalid COLOR_INDICES)|exact (Hvalid UV_INDICES)]. }
  split; [simpl; lia|]. split.
  { intros f Hin. assert (f ≠ VERTEX_INDICES) as Hf.
    { intros ->. by repeat (apply elem_of_cons in Hin as [?|Hin]; [done|]);
      apply elem_of_nil in Hin. }
    replace (member_size f (set_vertices d2 g2)) with (member_size f g)
      by (rewrite Hg2; by destruct f).
    replace (get_indices f (set_vertices d2 g2)) with (get_indices f g)
      by (rewrite Hg2; by destruct f).
    apply Hpending. by right. }
  intros f Hnin Hsize. destruct f; [done| | | |]; exfalso; apply Hnin;
    repeat ((by left) || right).
Qed.


(** * Further properties *)

(** ** Strings *)

Lemma load_bytes_cons m p (n : nat) :
  load_bytes m p (Z.of_nat (S n)) = m p :: load_bytes m (p + 1) (Z.of_nat n).
Proof.
  unfold load_bytes. rewrite !seqZ_cons by lia. cbn [fmap list_fmap].
  do 3 f_equal; lia.
Qed.

Lemma c_string_nil m p : c_string m p [] → u8_val (m p) = 0.
Proof.
  intros (_ & _ & Hz). simpl in Hz. by rewrite Z.add_0_r in Hz; rewrite Hz.
Qed.

Lemma u8_val_zero c : u8_val c = 0 → c = "000"%byte.
Proof.
  unfold u8_val. intros Hc.
  assert (Byte.to_N c = Byte.to_N "000"%byte) as Heq by (simpl; lia).
  apply (f_equal Byte.of_N) in Heq. rewrite !Byte.of_to_N in Heq. congruence.
Qed.

Lemma c_string_cons m p c s :
  c_string m p (c :: s) → m p = c ∧ u8_val (m p) ≠ 0 ∧ c_string m (p + 1) s.
Proof.
  intros (Hload & Hnz & Hz). cbn [length] in Hload, Hz.
  rewrite load_bytes_cons in Hload. injection Hload as Hc Hload.
  inversion Hnz as [|? ? Hc0 Hnz']; subst.
  split; [done|]. split.
  - intros H0. apply u8_val_zero in H0. congruence.
  - split; [done|]. split; [done|].
    rewrite <- Hz. f_equal. lia.
Qed.

Lemma copyString_loop_turn m src dest n destination :
  copyString_loop m src dest (S (S n)) destination
  = if u8_val (m src) =? 0 then Ok (src, dest, destination) else
    destination ← set_at destination dest (m src);
    copyString_loop m (src + 1) (dest + 1) (S n) destination.
Proof. reflexivity. Qed.

(** The loop copies the characters that fit and leaves the rest of the
    array as it was. *)
Lemma copyString_loop_result m src s n pre rest :
  c_string m src s →
  (n <= length rest)%nat →
  copyString_loop m src (Z.of_nat (length pre)) n (pre ++ rest)
  = Ok (src + Z.of_nat (length s `min` (n - 1)),
        Z.of_nat (length pre) + Z.of_nat (length s `min` (n - 1)),
        pre ++ take (length s `min` (n - 1)) s ++ drop (length s `min` (n - 1)) rest).
Proof.
  revert src s pre rest. induction n as [|n IH]; intros src s pre rest Hs Hn.
  { simpl. rewrite Nat.min_0_r, !Z.add_0_r. by rewrite take_0, drop_0. }
  destruct n as [|n].
  { simpl. rewrite Nat.min_0_r, !Z.add_0_r. by rewrite take_0, drop_0. }
  rewrite copyString_loop_turn.
  destruct s as [|c s].
  - rewrite (c_string_nil _ _ Hs). simpl. by rewrite !Z.add_0_r.
  - apply c_string_cons in Hs as (Hc & Hnz & Hs).
    rewrite (proj2 (Z.eqb_neq _ _)) by done.
    destruct rest as [|r rest]; [simpl in Hn; lia|].
    rewrite set_at_in_range by (rewrite length_app; simpl; lia).
    cbn [mbind Outcome_bind]. rewrite Nat2Z.id.
    replace (<[length pre:=m src]> (pre ++ r :: rest)) with ((pre ++ [c]) ++ rest).
    2:{ rewrite <- (Nat.add_0_r (length pre)), insert_app_r. simpl.
        by rewrite Hc, <- app_assoc. }
    replace (Z.of_nat (length pre) + 1) with (Z.of_nat (length (pre ++ [c])))
      by (rewrite length_app; simpl; lia).
    rewrite (IH (src + 1) s (pre ++ [c]) rest) by (done || simpl in Hn; lia).
    replace (length (c :: s) `min` (S (S n) - 1))%nat
      with (S (length s `min` (S n - 1))) by (simpl; lia).
    rewrite length_app. cbn [length take drop].
    rewrite <- !app_assoc. cbn [app]. do 2 f_equal. f_equal; lia.
Qed.

Lemma array_string_terminated t rest :
  Forall (λ c, c ≠ "000"%byte) t → array_string (t ++ "000"%byte :: rest) = t.
Proof.
  induction 1 as [|c t Hc _ IH]; [done|].
  simpl. rewrite bool_decide_eq_false_2 by done. by rewrite IH.
Qed.

(** X1.  [copyString] on a source string and an array of SIZE characters
    stores the first SIZE - 1 characters of the source and a zero after
    them, and nothing else: the array keeps its size, what comes after the
    zero is as it was, and the string the array holds is the source cut
    to SIZE - 1 characters.  The flag is true exactly when the whole source
    was copied, that is when it is shorter than SIZE. *)
Theorem copyString_copies (SIZE : nat) (m : memory) (destination : list u8)
    (src : Z) (s : list u8) :
  c_string m src s →
  length destination = SIZE →
  (1 <= SIZE)%nat →
  ∃ flag destination',
    copyString SIZE m destination (Some src) = Ok (flag, destination')
    ∧ destination'
      = take (SIZE - 1) s ++ "000"%byte :: drop (S (length s `min` (SIZE - 1))) destination
    ∧ length destination' = SIZE
    ∧ array_string destination' = take (SIZE - 1) s
    ∧ (flag = true ↔ (length s < SIZE)%nat)
    ∧ (flag = true ↔ array_string destination' = s).
Proof.
  intros Hs Hlen Hsize. unfold copyString.
  pose proof (copyString_loop_result m src s SIZE [] destination Hs ltac:(lia)) as Hloop.
  cbn [app length] in Hloop. change (Z.of_nat 0) with 0 in Hloop.
  rewrite Hloop. cbn [mbind Outcome_bind fst snd]. clear Hloop.
  set (k := (length s `min` (SIZE - 1))%nat).
  assert (length (take k s) = k) as Htake by (rewrite length_take; lia).
  rewrite Z.add_0_l.
  rewrite set_at_in_range by (rewrite length_app, length_drop, Htake; lia).
  cbn [mbind Outcome_bind]. rewrite Nat2Z.id.
  assert (take k s = take (SIZE - 1) s) as Hk.
  { unfold k. destruct (Nat.min_spec (length s) (SIZE - 1)) as [[Hlt ->]|[Hge ->]];
      [|done]. by rewrite !take_ge by lia. }
  assert (<[k:="000"%byte]> (take k s ++ drop k destination)
          = take (SIZE - 1) s ++ "000"%byte :: drop (S k) destination) as Hd.
  { rewrite <- Htake at 1. rewrite <- (Nat.add_0_r (length (take k s))), insert_app_r.
    rewrite Hk. f_equal.
    destruct (drop k destination) as [|d rest] eqn:Hdrop.
    - apply (f_equal length) in Hdrop. rewrite length_drop in Hdrop. simpl in Hdrop. lia.
    - simpl. f_equal.
      replace (S k) with (k + 1)%nat by lia. by rewrite <- drop_drop, Hdrop. }
  rewrite Hd.
  assert (Forall (λ c, c ≠ "000"%byte) (take (SIZE - 1) s)) as Hnz.
  { destruct Hs as (_ & Hnz & _). by apply Forall_take. }
  assert ((u8_val (m (src + Z.of_nat k)) =? 0) = true ↔ (length s < SIZE)%nat) as Hflag.
  { rewrite Z.eqb_eq. split.
    - intros H0. destruct (decide (length s < SIZE)%nat) as [|Hge]; [done|].
      exfalso. assert (k < length s)%nat as Hkl by (unfold k; lia).
      destruct Hs as (Hload & Hall & _).
      destruct (lookup_lt_is_Some_2 s k Hkl) as [c Hc].
      assert (m (src + Z.of_nat k) = c) as Hm.
      { rewrite <- Hload in Hc. unfold load_bytes in Hc.
        rewrite list_lookup_fmap in Hc.
        rewrite lookup_seqZ_lt in Hc by lia. simpl in Hc. congruence. }
      apply u8_val_zero in H0. rewrite Hm in H0.
      apply (proj1 (Forall_lookup _ _) Hall _ _ Hc). done.
    - intros Hlt. assert (k = length s) as -> by (unfold k; lia).
      destruct Hs as (_ & _ & ->). reflexivity. }
  exists (u8_val (m (src + Z.of_nat k)) =? 0), (take (SIZE - 1) s ++ "000"%byte :: drop (S k) destination).
  split; [done|]. split; [done|].
  split.
  { rewrite length_app. simpl. rewrite length_drop, <- Hk, Htake. lia. }
  split; [by apply array_string_terminated|].
  split; [done|].
  rewrite array_string_terminated by done. rewrite Hflag. split.
  - intros Hlt. by rewrite take_ge by lia.
  - intros Heq. apply (f_equal length) in Heq. rewrite length_take in Heq. lia.
Qed.

Lemma copyString_copies_witness :
  ∃ flag destination',
    copyString 4 (memory_of (list_byte_of_string "RootNode"))
      (replicate 4 "255"%byte) (Some 0)
    = Ok (flag, destination')
    ∧ destination' = list_byte_of_string "Roo" ++ ["000"%byte]
    ∧ flag = false.
Proof.
  destruct (copyString_copies 4 (memory_of (list_byte_of_string "RootNode"))
              (replicate 4 "255"%byte) 0 (list_byte_of_string "RootNode"))
    as (flag & d & Hrun & Hd & _ & _ & Hflag & _).
  - split; [reflexivity|]. split; [|reflexivity].
    repeat constructor; discriminate.
  - reflexivity.
  - lia.
  - exists flag, d. split; [exact Hrun|]. split; [exact Hd|].
    destruct flag; [|reflexivity].
    exfalso. assert (length (list_byte_of_string "RootNode") < 4)%nat as Hlt
      by (by apply Hflag).
    simpl in Hlt. lia.
Defined.

(** ** Property chains *)

Lemma getProperty_loop_None n : getProperty_loop n None = None.
Proof. by destruct n. Qed.

Lemma getProperty_loop_chain n p :
  getProperty_loop n (Some p) = property_chain p !! n.
Proof.
  revert p. induction n as [|n IH]; intros p; [by destruct p|].
  destruct p as [ty v [q|]]; cbn [getProperty_loop next].
  - rewrite IH. reflexivity.
  - rewrite getProperty_loop_None. by destruct n.
Qed.

(** X2.  [Element::getProperty (idx)] is the property at place [idx] of the
    chain of the element, the first property being at place 0; past the end
    of the chain it is the null pointer, and no pointer is followed there;
    for a negative [idx] it is the first property. *)
Theorem getProperty_lookup (this : Element) (idx : Z) :
  getProperty this idx = properties this !! Z.to_nat idx
  ∧ (Z.of_nat (length (properties this)) <= idx → getProperty this idx = None)
  ∧ (idx <= 0 → getProperty this idx = first_property this).
Proof.
  assert (getProperty this idx = properties this !! Z.to_nat idx) as Hlookup.
  { unfold getProperty, properties. destruct (first_property this) as [p|].
    - apply getProperty_loop_chain.
    - by rewrite getProperty_loop_None. }
  split; [done|]. split.
  - intros Hidx. rewrite Hlookup. apply lookup_ge_None. lia.
  - intros Hidx. unfold getProperty.
    by replace (Z.to_nat idx) with 0%nat by lia.
Qed.

(** ** Accessors of the scene *)

Lemma checked_index {A} (v : list A) (index : Z) :
  - 2 ^ 31 <= index < 2 ^ 31 →
  (_ ← assert (0 <=? index);
   _ ← assert (to_size_t index <? Z.of_nat (length v));
   at_ v (to_size_t index))
  = if bool_decide (0 <= index < Z.of_nat (length v))
    then match v !! Z.to_nat index with Some a => Ok a | None => AssertFailed end
    else AssertFailed.
Proof.
  intros Hint. unfold assert.
  destruct (0 <=? index) eqn:H0; [apply Z.leb_le in H0|apply Z.leb_gt in H0].
  - cbn [mbind Outcome_bind]. rewrite to_size_t_small by lia.
    destruct (index <? Z.of_nat (length v)) eqn:H1;
      [apply Z.ltb_lt in H1|apply Z.ltb_ge in H1].
    + rewrite bool_decide_eq_true_2 by lia. cbn [mbind Outcome_bind].
      destruct (at_in_range v index) as (a & -> & ->); [lia|done].
    + by rewrite bool_decide_eq_false_2 by lia.
  - by rewrite bool_decide_eq_false_2 by lia.
Qed.

Lemma to_int_size (n : nat) : to_int (Z.of_nat n) <= Z.of_nat n.
Proof.
  unfold to_int.
  pose proof (Z.mod_le (Z.of_nat n + 2 ^ 31) (2 ^ 32) ltac:(lia) ltac:(lia)). lia.
Qed.

(** X3.  [Scene::getMesh] and [Scene::getAnimationStack] answer the element
    at [index] for every [index] from 0 up to the size of the vector, and
    stop on a failed assertion for any other [index]: no element is read
    outside the vector.  Every [index] from 0 up to [getMeshCount ()]
    (respectively [getAnimationStackCount ()]) is such an index. *)
Theorem scene_accessors_checked {O M A} (this : Scene O M A) (index : Z) :
  is_int index →
  (getMesh this index
   = if bool_decide (0 <= index < Z.of_nat (length (m_meshes this)))
     then match m_meshes this !! Z.to_nat index with
          | Some mesh => Ok mesh
          | None => AssertFailed
          end
     else AssertFailed)
  ∧ (getAnimationStack this index
     = if bool_decide (0 <= index < Z.of_nat (length (m_animation_stacks this)))
       then match m_animation_stacks this !! Z.to_nat index with
            | Some stack => Ok stack
            | None => AssertFailed
            end
       else AssertFailed)
  ∧ (0 <= index < getMeshCount this →
     ∃ mesh, getMesh this index = Ok mesh
             ∧ m_meshes this !! Z.to_nat index = Some mesh)
  ∧ (0 <= index < getAnimationStackCount this →
     ∃ stack, getAnimationStack this index = Ok stack
              ∧ m_animation_stacks this !! Z.to_nat index = Some stack).
Proof.
  intros Hint.
  pose proof (checked_index (m_meshes this) index Hint) as Hm.
  pose proof (checked_index (m_animation_stacks this) index Hint) as Ha.
  split; [exact Hm|]. split; [exact Ha|]. split.
  - intros Hi. unfold getMeshCount in Hi.
    pose proof (to_int_size (length (m_meshes this))).
    unfold getMesh. rewrite Hm, bool_decide_eq_true_2 by lia.
    destruct (lookup_lt_is_Some_2 (m_meshes this) (Z.to_nat index)) as [mesh Hl]; [lia|].
    exists mesh. by rewrite Hl.
  - intros Hi. unfold getAnimationStackCount in Hi.
    pose proof (to_int_size (length (m_animation_stacks this))).
    unfold getAnimationStack. rewrite Ha, bool_decide_eq_true_2 by lia.
    destruct (lookup_lt_is_Some_2 (m_animation_stacks this) (Z.to_nat index))
      as [stack Hl]; [lia|].
    exists stack. by rewrite Hl.
Qed.

Lemma scene_accessors_checked_witness :
  getMesh (mkScene ([] : list unit) [10; 20; 30] ([] : list unit)) 1 = Ok 20
  ∧ getMesh (mkScene ([] : list unit) [10; 20; 30] ([] : list unit)) 3 = AssertFailed
  ∧ getAnimationStack (mkScene ([] : list unit) [10; 20; 30] ([] : list unit)) 0
    = AssertFailed.
Proof.
  split; [|split].
  - apply (scene_accessors_checked
             (mkScene ([] : list unit) [10; 20; 30] ([] : list unit)) 1).
    unfold is_int. lia.
  - apply (scene_accessors_checked
             (mkScene ([] : list unit) [10; 20; 30] ([] : list unit)) 3).
    unfold is_int. lia.
  - apply (scene_accessors_checked
             (mkScene ([] : list unit) [10; 20; 30] ([] : list unit)) 0).
    unfold is_int. lia.
Defined.

(** ** Values and their bytes *)

Lemma length_le_bytes n z : length (le_bytes n z) = n.
Proof. revert z. induction n as [|n IH]; intros z; [done|]. simpl. by rewrite IH. Qed.

Lemma u8_val_of z : u8_val (u8_of z) = z mod 256.
Proof.
  unfold u8_val, u8_of.
  pose proof (Z.mod_pos_bound z 256 ltac:(lia)) as Hz.
  destruct (Byte.of_N (Z.to_N (z mod 256))) as [b|] eqn:Hb.
  - apply Byte.to_of_N in Hb. simpl. rewrite Hb. lia.
  - apply Byte.of_N_None_iff in Hb. lia.
Qed.

Lemma le_value_bytes n z : le_value (le_bytes n z) = z mod 256 ^ Z.of_nat n.
Proof.
  revert z. induction n as [|n IH]; intros z.
  - simpl. by rewrite Z.mod_1_r.
  - cbn [le_bytes le_value]. rewrite u8_val_of, IH.
    replace (256 ^ Z.of_nat (S n)) with (256 * 256 ^ Z.of_nat n)
      by (rewrite Nat2Z.inj_succ, Z.pow_succ_r; lia).
    rewrite Z.rem_mul_r by lia. reflexivity.
Qed.

Lemma int_sized : pod_sized Z.
Proof. intros z. apply length_le_bytes. Qed.

Lemma int_exact z : is_int z → pod_exact z.
Proof.
  unfold is_int, pod_exact. intros Hz. cbn [of_bytes to_bytes int_Pod].
  rewrite take_ge by (rewrite length_le_bytes; lia).
  rewrite le_value_bytes. change (256 ^ Z.of_nat 4) with (2 ^ 32).
  unfold to_int. rewrite Zplus_mod_idemp_l.
  rewrite Z.mod_small by lia. lia.
Qed.

Lemma float_sized : pod_sized float.
Proof. intros f. apply length_le_bytes. Qed.

Lemma float_exact f : is_float f → pod_exact f.
Proof.
  unfold is_float, pod_exact. destruct f as [bits].
  cbn [of_bytes to_bytes float_Pod float_bits]. intros Hz.
  rewrite take_ge by (rewrite length_le_bytes; lia).
  rewrite le_value_bytes. change (256 ^ Z.of_nat 4) with (2 ^ 32).
  by rewrite Z.mod_small by lia.
Qed.

Lemma double_exact d : is_double d → pod_exact d.
Proof.
  unfold is_double, pod_exact. destruct d as [bits].
  cbn [of_bytes to_bytes double_Pod double_bits]. intros Hz.
  rewrite take_ge by (rewrite length_le_bytes; lia).
  rewrite le_value_bytes. change (256 ^ Z.of_nat 8) with (2 ^ 64).
  by rewrite Z.mod_small by lia.
Qed.

(** A list cut into groups and put back together. *)
Lemma groups_concat {A} (k : nat) (bs : list (list A)) rest :
  Forall (λ b, length b = k) bs →
  groups (length bs) k (concat bs ++ rest) = bs.
Proof.
  induction 1 as [|b bs Hb _ IH]; [done|].
  cbn [length groups concat]. rewrite <- app_assoc.
  rewrite take_app_length', drop_app_length' by done.
  by rewrite IH.
Qed.

Lemma length_groups {A} n k (l : list A) : length (groups n k l) = n.
Proof. revert l. induction n as [|n IH]; intros l; [done|]. simpl. by rewrite IH. Qed.

Lemma concat_groups {A} (n k : nat) (l : list A) :
  length l = (n * k)%nat → concat (groups n k l) = l.
Proof.
  revert l. induction n as [|n IH]; intros l Hl.
  - by destruct l.
  - cbn [groups concat]. rewrite IH by (rewrite length_drop; lia).
    apply take_drop.
Qed.

Lemma groups_lengths {A} (n k : nat) (l : list A) :
  length l = (n * k)%nat → Forall (λ b, length b = k) (groups n k l).
Proof.
  revert l. induction n as [|n IH]; intros l Hl; [constructor|].
  cbn [groups]. constructor.
  - rewrite length_take. lia.
  - apply IH. rewrite length_drop. lia.
Qed.

Lemma fields_sized_Vec2 : fields_sized Vec2.
Proof.
  split; [simpl; lia|]. split; [by intros []|]. split; [by intros []|].
  intros [|a [|b [|c ds]]] Hl; try discriminate. reflexivity.
Qed.

Lemma fields_sized_Vec3 : fields_sized Vec3.
Proof.
  split; [simpl; lia|]. split; [by intros []|]. split; [by intros []|].
  intros [|a [|b [|c [|d ds]]]] Hl; try discriminate. reflexivity.
Qed.

Lemma fields_sized_Vec4 : fields_sized Vec4.
Proof.
  split; [simpl; lia|]. split; [by intros []|]. split; [by intros []|].
  intros [|a [|b [|c [|d [|e ds]]]]] Hl; try discriminate. reflexivity.
Qed.

Lemma length_concat_sized {A} (k : nat) (bs : list (list A)) :
  Forall (λ b, length b = k) bs → length (concat bs) = (length bs * k)%nat.
Proof.
  induction 1 as [|b bs Hb _ IH]; [done|].
  cbn [concat length]. rewrite length_app, IH, Hb. lia.
Qed.

(** A record of [double] fields is stored on eight bytes per field, and its
    bytes give it back when its fields are patterns of 64 bits. *)
Lemma record_sized `{DoubleVec T} : fields_sized T → pod_sized T.
Proof.
  intros (_ & Hlen & _) v. cbn [to_bytes sizeof DoubleVec_Pod].
  rewrite (length_concat_sized 8).
  - rewrite length_fmap, Hlen. lia.
  - apply Forall_fmap, Forall_forall. intros d _. apply length_le_bytes.
Qed.

Lemma record_exact `{DoubleVec T} (v : T) :
  fields_sized T → Forall is_double (fields v) → pod_exact v.
Proof.
  intros (_ & Hlen & Hback & _) Hd. unfold pod_exact.
  cbn [to_bytes of_bytes DoubleVec_Pod].
  rewrite <- (Hlen v), <- (length_fmap to_bytes (fields v)).
  rewrite <- (app_nil_r (concat _)), (groups_concat 8).
  2:{ apply Forall_fmap, Forall_forall. intros d _. apply length_le_bytes. }
  rewrite <- list_fmap_compose.
  replace (of_bytes ∘ to_bytes <$> fields v) with (fields v); [apply Hback|].
  symmetry. transitivity (Datatypes.id <$> fields v); [|apply list_fmap_id].
  apply list_fmap_ext. intros i d Hi. simpl. apply double_exact.
  apply (proj1 (Forall_lookup _ _) Hd _ _ Hi).
Qed.

Lemma length_vector_bytes `{Pod T} (v : list T) :
  pod_sized T → length (vector_bytes v) = (length v * Z.to_nat (sizeof T))%nat.
Proof.
  intros Hsized. unfold vector_bytes.
  rewrite (length_concat_sized (Z.to_nat (sizeof T))).
  - by rewrite length_fmap.
  - apply Forall_fmap, Forall_forall. intros x _. apply Hsized.
Qed.

Lemma bytes_vector_bytes `{Pod T} (vs : list T) rest :
  pod_sized T → Forall pod_exact vs →
  bytes_vector (length vs) (vector_bytes vs ++ rest) = vs.
Proof.
  intros Hsized Hexact. unfold bytes_vector, vector_bytes.
  rewrite <- (length_fmap to_bytes vs), groups_concat.
  2:{ apply Forall_fmap, Forall_forall. intros x _. apply Hsized. }
  rewrite <- list_fmap_compose.
  transitivity (Datatypes.id <$> vs); [|apply list_fmap_id].
  apply list_fmap_ext. intros i v Hi. simpl.
  apply (proj1 (Forall_lookup _ _) Hexact _ _ Hi).
Qed.

(** ** Arrays of records, raw *)

(** A raw payload that holds the bytes of the records [vs], under a header
    that declares them, is decoded into [vs]. *)
Lemma parseBinaryArray_raw_decodes `{Collaborators} `{Pod T} m p (out vs : list T)
    (elem_size W : Z) :
  pod_sized T →
  array_elem_size (type p) = Some elem_size →
  type p ≠ "l"%byte →
  1 <= W < 2 ^ 31 →
  sizeof T = W * elem_size →
  header_encoding m p = 0 →
  vs ≠ [] →
  header_count m p = W * Z.of_nat (length vs) →
  header_byte_length m p = sizeof T * Z.of_nat (length vs) →
  sizeof T * Z.of_nat (length vs) < 2 ^ 31 →
  payload_start p + header_byte_length m p <= end_ (value p) →
  load_bytes m (payload_start p) (header_byte_length m p) = vector_bytes vs →
  Forall pod_exact vs →
  parseBinaryArray m p out = Ok (true, vs).
Proof.
  intros Hsized Hty Hl HW Hsize Henc Hne Hcount Hlen Hsmall Hwin Hload Hexact.
  assert (0 < elem_size) as Hes.
  { unfold array_elem_size in Hty. destruct (type p); try discriminate;
      injection Hty as <-; lia. }
  assert (0 < Z.of_nat (length vs)) as Hn by (destruct vs; [done|simpl; lia]).
  rewrite (parseBinaryArray_cases m p out elem_size Hty Hl). cbn zeta.
  rewrite Hsize, Z.quot_mul by lia.
  rewrite (to_int_small W), (to_u32_small W) by lia.
  rewrite (proj2 (Z.eqb_neq W 0)) by lia.
  rewrite Hcount, Z.mul_comm, Z.quot_mul by lia.
  set (room := vector_resize (Z.of_nat (length vs)) out).
  assert (length room = length vs) as Hroom
    by (unfold room, vector_resize; rewrite length_resize; lia).
  rewrite bool_decide_eq_false_2
    by (intros Hnil; rewrite Hnil in Hroom; simpl in Hroom; lia).
  rewrite Hroom. rewrite <- Hsize.
  rewrite to_size_t_small, to_int_small by lia.
  rewrite (parseBinaryArrayRaw_cases m p _ _ elem_size Hty), Henc.
  unfold payload_start in *.
  pose proof (load_u32_range m (begin (value p) + 8)) as Hrange.
  fold (header_byte_length m p) in Hrange.
  rewrite (proj2 (Z.ltb_ge (end_ (value p)) (begin (value p) + 12))) by lia.
  cbn [Z.eqb]. rewrite Hlen in *. rewrite to_int_small by lia.
  rewrite (proj2 (Z.ltb_ge _ _)) by lia.
  rewrite (proj2 (Z.ltb_ge (end_ (value p)) _)) by lia.
  unfold memcpy.
  assert (length (vector_bytes room) = Z.to_nat (sizeof T * Z.of_nat (length vs))) as Hbytes.
  { rewrite length_vector_bytes, Hroom by done. nia. }
  rewrite (proj2 (Z.leb_le _ _)) by lia.
  cbn [mbind Outcome_bind fst snd]. rewrite Hload.
  by rewrite bytes_vector_bytes.
Qed.

(** X4.  Round trip of an [int] array: a raw array property whose header
    declares the N [int]s of [vs] (N > 0, 4 N bytes, all inside the window
    of the property, fewer than 2^31) and whose payload holds their bytes is
    decoded by [parseBinaryArray] into [vs], whatever the vector held. *)
Theorem parseBinaryArray_int_round_trip `{Collaborators} (m : memory) (p : Property)
    (out vs : list Z) :
  type p = "i"%byte →
  header_encoding m p = 0 →
  vs ≠ [] →
  Forall is_int vs →
  header_count m p = Z.of_nat (length vs) →
  header_byte_length m p = 4 * Z.of_nat (length vs) →
  4 * Z.of_nat (length vs) < 2 ^ 31 →
  payload_start p + header_byte_length m p <= end_ (value p) →
  load_bytes m (payload_start p) (header_byte_length m p) = vector_bytes vs →
  parseBinaryArray m p out = Ok (true, vs).
Proof.
  intros Hty Henc Hne Hint Hcount Hlen Hsmall Hwin Hload.
  assert (array_elem_size (type p) = Some 4) as Hes by (by rewrite Hty).
  assert (type p ≠ "l"%byte) as Hl by (by rewrite Hty).
  assert (Forall pod_exact vs) as Hexact
    by (eapply Forall_impl; [|exact Hint]; apply int_exact).
  apply (parseBinaryArray_raw_decodes m p out vs 4 1 int_sized Hes Hl);
    (done || cbn [sizeof int_Pod]; lia).
Qed.

Lemma parseBinaryArray_int_round_trip_witness :
  @parseBinaryArray sample_collaborators Z _ three_ints_memory three_ints_property [1; 2]
  = Ok (true, [7; 8; 9]).
Proof.
  apply (@parseBinaryArray_int_round_trip sample_collaborators
           three_ints_memory three_ints_property [1; 2] [7; 8; 9]).
  - reflexivity.
  - reflexivity.
  - discriminate.
  - repeat constructor; unfold is_int; lia.
  - reflexivity.
  - reflexivity.
  - simpl. lia.
  - vm_compute. discriminate.
  - vm_compute. reflexivity.
Defined.

(** X5.  Round trip of an array of records: a raw [double] array property
    whose header declares the fields of the N records of [vs] (N > 0, each
    of [dim T] fields that are patterns of 64 bits; 8 [dim T] N bytes, all
    inside the window of the property, fewer than 2^31) and whose payload
    holds their bytes is decoded by [parseBinaryArray] into [vs]. *)
Theorem parseBinaryArray_record_round_trip `{Collaborators} `{DoubleVec T}
    (m : memory) (p : Property) (out vs : list T) :
  fields_sized T →
  type p = "d"%byte →
  header_encoding m p = 0 →
  vs ≠ [] →
  Forall (λ v, Forall is_double (fields v)) vs →
  header_count m p = Z.of_nat (dim T) * Z.of_nat (length vs) →
  header_byte_length m p = 8 * Z.of_nat (dim T) * Z.of_nat (length vs) →
  8 * Z.of_nat (dim T) * Z.of_nat (length vs) < 2 ^ 31 →
  payload_start p + header_byte_length m p <= end_ (value p) →
  load_bytes m (payload_start p) (header_byte_length m p) = vector_bytes vs →
  parseBinaryArray m p out = Ok (true, vs).
Proof.
  intros Hfields Hty Henc Hne Hd Hcount Hlen Hsmall Hwin Hload.
  pose proof Hfields as (Hdim & _).
  assert (array_elem_size (type p) = Some 8) as Hes by (by rewrite Hty).
  assert (type p ≠ "l"%byte) as Hl by (by rewrite Hty).
  assert (Forall pod_exact vs) as Hexact.
  { eapply Forall_impl; [|exact Hd]. intros v Hv. by apply record_exact. }
  assert (0 < Z.of_nat (length vs)) as Hn by (destruct vs; [done|simpl; lia]).
  apply (parseBinaryArray_raw_decodes m p out vs 8 (Z.of_nat (dim T))
           (record_sized Hfields) Hes Hl);
    (done || cbn [sizeof DoubleVec_Pod] in *; nia).
Qed.

Lemma parseBinaryArray_record_round_trip_witness :
  @parseBinaryArray sample_collaborators Vec3 _
    (memory_of (double_array [1; 2; 3; 4; 5; 6]))
    (mkProperty "d" (mkDataView 0 60) None) []
  = Ok (true, [mkVec3 (mkDouble 1) (mkDouble 2) (mkDouble 3);
               mkVec3 (mkDouble 4) (mkDouble 5) (mkDouble 6)]).
Proof.
  apply (@parseBinaryArray_record_round_trip sample_collaborators Vec3 _
           (memory_of (double_array [1; 2; 3; 4; 5; 6]))
           (mkProperty "d" (mkDataView 0 60) None) []
           [mkVec3 (mkDouble 1) (mkDouble 2) (mkDouble 3);
            mkVec3 (mkDouble 4) (mkDouble 5) (mkDouble 6)]).
  - apply fields_sized_Vec3.
  - reflexivity.
  - reflexivity.
  - discriminate.
  - repeat constructor; unfold is_double; simpl; lia.
  - reflexivity.
  - reflexivity.
  - simpl. lia.
  - vm_compute. discriminate.
  - vm_compute. reflexivity.
Defined.

(** X6.  [parseBinaryArray] makes room for count / W records and takes the
    address of the first one, with no test in between: on a property that
    declares fewer elements than one record holds, an empty array among
    them, the vector is empty there and its subscript operator is applied
    outside it, which the language leaves undefined, whatever the encoding
    and the payload. *)
Theorem parseBinaryArray_no_record `{Collaborators} `{Pod T} (m : memory)
    (p : Property) (out : list T) (elem_size W : Z) :
  array_elem_size (type p) = Some elem_size →
  type p ≠ "l"%byte →
  1 <= W < 2 ^ 31 →
  sizeof T = W * elem_size →
  header_count m p < W →
  parseBinaryArray m p out = UndefinedBehaviour.
Proof.
  intros Hty Hl HW Hsize Hcount.
  pose proof (load_u32_range m (begin (value p))) as Hrange.
  fold (header_count m p) in Hrange.
  assert (0 < elem_size) as Hes.
  { unfold array_elem_size in Hty. destruct (type p); try discriminate;
      injection Hty as <-; lia. }
  rewrite (parseBinaryArray_cases m p out elem_size Hty Hl). cbn zeta.
  rewrite Hsize, Z.quot_mul by lia.
  rewrite (to_int_small W), (to_u32_small W) by lia.
  rewrite (proj2 (Z.eqb_neq W 0)) by lia.
  rewrite Z.quot_small by lia.
  rewrite bool_decide_eq_true_2; [done|].
  unfold vector_resize. apply length_zero_iff_nil. by rewrite length_resize.
Qed.

Lemma parseBinaryArray_no_record_witness :
  @parseBinaryArray sample_collaborators Z _ (memory_of (int_array []))
    (mkProperty "i" (mkDataView 0 12) None) []
  = UndefinedBehaviour.
Proof.
  apply (@parseBinaryArray_no_record sample_collaborators Z _
           (memory_of (int_array [])) (mkProperty "i" (mkDataView 0 12) None) [] 4 1).
  - reflexivity.
  - discriminate.
  - lia.
  - reflexivity.
  - vm_compute. reflexivity.
Defined.

(** X7.  [parseBinaryArray] divides the count by sizeof (T) / elem_size:
    when the elements of the vector are smaller than the elements of the
    property (a vector of [int] or of [float] for a [double] array), the
    divisor is zero and the division is undefined, whatever the header. *)
Theorem parseBinaryArray_narrow_vector `{Collaborators} `{Pod T} (m : memory)
    (p : Property) (out : list T) (elem_size : Z) :
  array_elem_size (type p) = Some elem_size →
  type p ≠ "l"%byte →
  0 <= sizeof T < elem_size →
  parseBinaryArray m p out = UndefinedBehaviour.
Proof.
  intros Hty Hl Hsize.
  rewrite (parseBinaryArray_cases m p out elem_size Hty Hl). cbn zeta.
  by rewrite Z.quot_small by lia.
Qed.

Lemma parseBinaryArray_narrow_vector_witness :
  @parseBinaryArray sample_collaborators Z _
    (memory_of (double_array [1; 2; 3])) (mkProperty "d" (mkDataView 0 36) None) []
  = UndefinedBehaviour.
Proof.
  apply (@parseBinaryArray_narrow_vector sample_collaborators Z _
           (memory_of (double_array [1; 2; 3]))
           (mkProperty "d" (mkDataView 0 36) None) [] 8).
  - reflexivity.
  - discriminate.
  - simpl. lia.
Defined.

(** ** The raw decoder within the range of [int] *)

(** X24.  On a property whose window is shorter than 2^31 bytes, with a
    destination of at least [max_size] bytes, a raw payload is refused
    exactly when it runs past the window or its byte length exceeds
    [max_size], the destination being left as it was; otherwise the call
    answers true and the destination holds the bytes of the payload,
    followed by what it held after them. *)
Theorem parseBinaryArrayRaw_raw_window `{Collaborators} (m : memory) (p : Property)
    (out : list u8) (max_size elem_size : Z) :
  array_elem_size (type p) = Some elem_size →
  header_encoding m p = 0 →
  end_ (value p) - begin (value p) < 2 ^ 31 →
  max_size <= Z.of_nat (length out) →
  (end_ (value p) < payload_start p + header_byte_length m p
     ∨ max_size < header_byte_length m p →
   parseBinaryArrayRaw m p out max_size = Ok (false, out))
  ∧ (¬ (end_ (value p) < payload_start p + header_byte_length m p
          ∨ max_size < header_byte_length m p) →
     parseBinaryArrayRaw m p out max_size
     = Ok (true, load_bytes m (payload_start p) (header_byte_length m p)
                 ++ drop (Z.to_nat (header_byte_length m p)) out)).
Proof. apply parseBinaryArrayRaw_raw_bounded. Qed.

Lemma parseBinaryArrayRaw_raw_window_witness :
  @parseBinaryArrayRaw sample_collaborators three_ints_memory three_ints_property
    (replicate 16 "255"%byte) 12
  = Ok (true, ([7; 8; 9] ≫= le_bytes 4) ++ replicate 4 "255"%byte)
  ∧ @parseBinaryArrayRaw sample_collaborators three_ints_memory three_ints_property
      (replicate 16 "255"%byte) 11
    = Ok (false, replicate 16 "255"%byte).
Proof.
  destruct (@parseBinaryArrayRaw_raw_window sample_collaborators three_ints_memory
              three_ints_property (replicate 16 "255"%byte) 12 4) as [_ Hcopy];
    [reflexivity|reflexivity|simpl; lia|simpl; lia|].
  destruct (@parseBinaryArrayRaw_raw_window sample_collaborators three_ints_memory
              three_ints_property (replicate 16 "255"%byte) 11 4) as [Hrefuse _];
    [reflexivity|reflexivity|simpl; lia|simpl; lia|].
  split.
  - apply Hcopy. vm_compute. intros [Hc|Hc]; discriminate Hc.
  - apply Hrefuse. right. vm_compute. reflexivity.
Defined.

(** X25.  When the product of the element size and the declared count is
    below 2^31, a compressed payload is refused, the destination being left
    as it was, when the product exceeds [max_size]; otherwise the compressed
    window is handed to the inflate with the product as the capacity of the
    destination, and the call answers what the inflate answers. *)
Theorem parseBinaryArrayRaw_compressed_window `{Collaborators} (m : memory)
    (p : Property) (out : list u8) (max_size elem_size : Z) :
  array_elem_size (type p) = Some elem_size →
  header_encoding m p = 1 →
  elem_size * header_count m p < 2 ^ 31 →
  (max_size < elem_size * header_count m p →
   parseBinaryArrayRaw m p out max_size = Ok (false, out))
  ∧ (elem_size * header_count m p <= max_size →
     payload_start p <= end_ (value p) →
     parseBinaryArrayRaw m p out max_size
     = (let r := decompress (load_bytes m (payload_start p) (header_byte_length m p))
                   (elem_size * header_count m p) in
        out' ← store_bytes out r.2; Ok (r.1, out'))).
Proof. apply parseBinaryArrayRaw_compressed_bounded. Qed.

Lemma parseBinaryArrayRaw_compressed_window_witness :
  @parseBinaryArrayRaw greedy_collaborators four_doubles_memory four_doubles_property
    (replicate 24 "000"%byte) 24
  = Ok (false, replicate 24 "000"%byte)
  ∧ @parseBinaryArrayRaw greedy_collaborators four_doubles_memory four_doubles_property
      (replicate 32 "000"%byte) 32
    = Ok (true, replicate 16 "255"%byte ++ replicate 16 "000"%byte).
Proof.
  destruct (@parseBinaryArrayRaw_compressed_window greedy_collaborators
              four_doubles_memory four_doubles_property (replicate 24 "000"%byte) 24 8)
    as [Hrefuse _]; [reflexivity|reflexivity|vm_compute; reflexivity|].
  destruct (@parseBinaryArrayRaw_compressed_window greedy_collaborators
              four_doubles_memory four_doubles_property (replicate 32 "000"%byte) 32 8)
    as [_ Hinflate]; [reflexivity|reflexivity|vm_compute; reflexivity|].
  split.
  - apply Hrefuse. vm_compute. reflexivity.
  - rewrite Hinflate; [reflexivity|vm_compute; discriminate|vm_compute; discriminate].
Defined.

(** X26.  A refusal of [parseBinaryArrayRaw] leaves the destination as it
    was unless the inflate ran: whenever the call answers false on a
    property whose encoding is not 1, the destination is unchanged; and the
    call answers true only on a property of an array type whose encoding is
    0 or 1. *)
Theorem parseBinaryArrayRaw_refusal `{Collaborators} (m : memory) (p : Property)
    (out : list u8) (max_size : Z) (flag : bool) (out' : list u8) :
  parseBinaryArrayRaw m p out max_size = Ok (flag, out') →
  (flag = false → header_encoding m p ≠ 1 → out' = out)
  ∧ (flag = true →
     is_Some (array_elem_size (type p))
     ∧ (header_encoding m p = 0 ∨ header_encoding m p = 1)
     ∧ payload_start p <= end_ (value p)).
Proof.
  intros Hrun.
  destruct (array_elem_size (type p)) as [elem_size|] eqn:Hty.
  - rewrite (parseBinaryArrayRaw_cases m p out max_size elem_size Hty) in Hrun.
    destruct (end_ (value p) <? payload_start p) eqn:Hwin;
      [by injection Hrun as <- <-|].
    apply Z.ltb_ge in Hwin.
    destruct (header_encoding m p =? 0) eqn:H0.
    + apply Z.eqb_eq in H0.
      destruct (max_size <? to_int (header_byte_length m p));
        [by injection Hrun as <- <-|].
      destruct (end_ (value p) <? payload_start p + header_byte_length m p);
        [by injection Hrun as <- <-|].
      inv_bind Hrun as o Ho. injection Hrun as <- <-. split; [done|].
      intros _. split; [done|]. split; [by left|done].
    + destruct (header_encoding m p =? 1) eqn:H1.
      * apply Z.eqb_eq in H1.
        destruct (max_size <? to_int (to_u32 (elem_size * header_count m p)));
          [by injection Hrun as <- <-|].
        inv_bind Hrun as o Ho. injection Hrun as <- <-. split; [done|].
        intros _. split; [done|]. split; [by right|done].
      * by injection Hrun as <- <-.
  - unfold parseBinaryArrayRaw, array_elem_size in *.
    destruct (type p); try discriminate Hty; by injection Hrun as <- <-.
Qed.

Lemma parseBinaryArrayRaw_refusal_witness :
  @parseBinaryArrayRaw sample_collaborators three_ints_memory
    (mkProperty "S" (mkDataView 0 24) None) (replicate 16 "255"%byte) 12
  = Ok (false, replicate 16 "255"%byte).
Proof.
  assert (∃ flag out',
            @parseBinaryArrayRaw sample_collaborators three_ints_memory
              (mkProperty "S" (mkDataView 0 24) None) (replicate 16 "255"%byte) 12
            = Ok (flag, out')) as (flag & out' & Hrun) by (by eexists _, _).
  destruct (@parseBinaryArrayRaw_refusal sample_collaborators three_ints_memory
              (mkProperty "S" (mkDataView 0 24) None) (replicate 16 "255"%byte) 12
              flag out' Hrun) as [Hkeep Htrue].
  rewrite Hrun. destruct flag.
  - destruct (Htrue eq_refl) as ([es Hes] & _). discriminate Hes.
  - by rewrite Hkeep by (done || vm_compute; discriminate).
Defined.

(** ** Arrays of records of [double]s stored as [float]s *)

Lemma for_loop_fails {St} (n1 n2 : nat) lo (body : Z → St → Outcome St) s s' :
  for_loop n1 lo body s = Ok s' →
  body (lo + Z.of_nat n1) s' = UndefinedBehaviour →
  for_loop (n1 + S n2) lo body s = UndefinedBehaviour.
Proof.
  intros H1 H2. rewrite for_loop_app, H1. cbn [mbind Outcome_bind for_loop].
  by rewrite H2.
Qed.

(** The first [k] turns of the loop that converts the [float]s. *)
Lemma widen_loop `{Collaborators} (tmp : list float) (out : list double) (k : nat) :
  (k <= length tmp)%nat →
  (k <= length out)%nat →
  for_loop k 0
    (λ i out,
       f ← at_ tmp i;
       set_at out i (mkDouble (float_to_double (float_bits f))))
    out
  = Ok ((widen <$> take k tmp) ++ drop k out).
Proof.
  induction k as [|k IH]; intros Htmp Hout; [done|].
  rewrite for_loop_snoc, IH by lia. cbn [mbind Outcome_bind].
  rewrite Z.add_0_l.
  destruct (lookup_lt_is_Some_2 tmp k) as [f Hf]; [lia|].
  rewrite (at_lookup _ _ _ Hf). cbn [mbind Outcome_bind].
  assert (length (widen <$> take k tmp) = k) as Hk
    by (rewrite length_fmap, length_take; lia).
  rewrite set_at_in_range
    by (rewrite length_app, Hk, length_drop; lia).
  rewrite Nat2Z.id. f_equal.
  rewrite <- Hk at 1. rewrite <- (Nat.add_0_r (length (widen <$> take k tmp))).
  rewrite insert_app_r.
  rewrite (take_S_r _ _ _ Hf), fmap_app, <- app_assoc. f_equal.
  destruct (drop k out) as [|d rest] eqn:Hdrop.
  - apply (f_equal length) in Hdrop. rewrite length_drop in Hdrop. simpl in Hdrop. lia.
  - simpl. f_equal. replace (S k) with (k + 1)%nat by lia.
    by rewrite <- drop_drop, Hdrop.
Qed.

Lemma length_bind_fields `{DoubleVec T} (l : list T) :
  fields_sized T → length (l ≫= fields) = (length l * dim T)%nat.
Proof.
  intros (_ & Hlen & _). induction l as [|v l IH]; [done|].
  rewrite bind_cons, length_app, IH, Hlen. simpl. lia.
Qed.

(** The head of [parseDoubleVecData] on a [float] array that was decoded. *)
Lemma parseDoubleVecData_floats `{Collaborators} `{DoubleVec T} m p (out_vec : list T)
    (tmp : list float) :
  fields_sized T →
  type p = "f"%byte →
  parseBinaryArray (T := float) m p [] = Ok (true, tmp) →
  Z.of_nat (length tmp) < 2 ^ 31 →
  parseDoubleVecData m p out_vec =
  let out_vec :=
    vector_resize (Z.of_nat (length tmp / dim T)) out_vec in
  if bool_decide (out_vec = []) then UndefinedBehaviour else
  out ← for_loop (length tmp) 0
           (λ i out,
              f ← at_ tmp i;
              set_at out i (mkDouble (float_to_double (float_bits f))))
           (out_vec ≫= fields);
  Ok (true, of_fields <$> groups (length out_vec) (dim T) out).
Proof.
  intros (Hdim & _) Hty Hparse Hsmall. unfold parseDoubleVecData.
  rewrite Hty, Hparse. cbn [Byte.eqb assert mbind Outcome_bind fst snd negb].
  change (Byte.eqb "f" "d") with false. change (Byte.eqb "f" "f") with true.
  cbn [mbind Outcome_bind sizeof double_Pod DoubleVec_Pod].
  change (8 =? 8) with true. cbn [mbind Outcome_bind].
  rewrite (Z.mul_comm 8), Z.quot_mul by lia.
  rewrite (to_int_small (Z.of_nat (dim T))) by lia.
  rewrite (proj2 (Z.eqb_neq _ 0)) by lia.
  rewrite to_size_t_small by lia.
  rewrite Z.quot_div_nonneg, <- Nat2Z.inj_div by lia.
  rewrite (to_int_small (Z.of_nat (length tmp))), Nat2Z.id by lia.
  reflexivity.
Qed.

(** X8.  A [float] array stands for records of [double]s: when the array
    was decoded into the [float]s [tmp], N records of [dim T] of them (fewer
    than 2^31), [parseDoubleVecData] answers the N records whose fields are
    the [float]s converted one by one, in the order of the array, whatever
    the vector held. *)
Theorem parseDoubleVecData_widens `{Collaborators} `{DoubleVec T} (m : memory)
    (p : Property) (out_vec : list T) (tmp : list float) (n : nat) :
  fields_sized T →
  type p = "f"%byte →
  parseBinaryArray (T := float) m p [] = Ok (true, tmp) →
  length tmp = (n * dim T)%nat →
  Z.of_nat (length tmp) < 2 ^ 31 →
  parseDoubleVecData m p out_vec
  = Ok (true, of_fields <$> groups n (dim T) (widen <$> tmp)).
Proof.
  intros Hfields Hty Hparse Hlen Hsmall.
  pose proof Hfields as (Hdim & _).
  rewrite (parseDoubleVecData_floats m p out_vec tmp Hfields Hty Hparse Hsmall).
  cbn zeta.
  rewrite Hlen, Nat.div_mul by lia.
  set (room := vector_resize (Z.of_nat n) out_vec).
  assert (length room = n) as Hroom
    by (unfold room, vector_resize; rewrite length_resize; lia).
  assert (n ≠ 0%nat) as Hn.
  { intros ->. apply parseBinaryArray_nonempty in Hparse. by destruct tmp. }
  rewrite bool_decide_eq_false_2
    by (intros Hnil; rewrite Hnil in Hroom; simpl in Hroom; lia).
  rewrite <- Hlen.
  rewrite widen_loop by (rewrite ?length_bind_fields, ?Hroom by done; lia).
  cbn [mbind Outcome_bind].
  rewrite firstn_all, drop_ge by (rewrite length_bind_fields, Hroom by done; lia).
  by rewrite app_nil_r, Hroom.
Qed.

(** X9.  When the number of [float]s of the array is not a multiple of the
    number of fields of a record, [parseDoubleVecData] makes room for the
    whole records only and converts every [float]: it stores past the end of
    the vector (undefined behaviour), or takes the address of the first
    record of an empty vector when the array holds less than one record. *)
Theorem parseDoubleVecData_overrun `{Collaborators} `{DoubleVec T} (m : memory)
    (p : Property) (out_vec : list T) (tmp : list float) :
  fields_sized T →
  type p = "f"%byte →
  parseBinaryArray (T := float) m p [] = Ok (true, tmp) →
  (length tmp `mod` dim T ≠ 0)%nat →
  Z.of_nat (length tmp) < 2 ^ 31 →
  parseDoubleVecData m p out_vec = UndefinedBehaviour.
Proof.
  intros Hfields Hty Hparse Hmod Hsmall.
  pose proof Hfields as (Hdim & _).
  rewrite (parseDoubleVecData_floats m p out_vec tmp Hfields Hty Hparse Hsmall).
  cbn zeta.
  set (n := (length tmp / dim T)%nat).
  set (room := vector_resize (Z.of_nat n) out_vec).
  assert (length room = n) as Hroom
    by (unfold room, vector_resize; rewrite length_resize; lia).
  case_bool_decide as Hnil; [done|].
  pose proof (Nat.div_mod_eq (length tmp) (dim T)) as Hdm. fold n in Hdm.
  assert (length (room ≫= fields) = (n * dim T)%nat) as Hout
    by (by rewrite length_bind_fields, Hroom).
  replace (length tmp) with (n * dim T + S (length tmp `mod` dim T - 1))%nat at 1 by lia.
  rewrite (for_loop_fails _ _ _ _ _ _ (widen_loop tmp (room ≫= fields) (n * dim T)
             ltac:(lia) ltac:(lia))); [done|].
  rewrite Z.add_0_l.
  destruct (lookup_lt_is_Some_2 tmp (n * dim T)) as [f Hf]; [lia|].
  rewrite (at_lookup _ _ _ Hf). cbn [mbind Outcome_bind].
  unfold set_at. rewrite length_app, length_fmap, length_take, length_drop, Hout.
  rewrite (proj2 (Z.ltb_ge _ _)) by lia. by rewrite andb_false_r.
Qed.

Lemma parseDoubleVecData_widens_witness :
  @parseDoubleVecData sample_collaborators Vec3 _ six_floats_memory six_floats_property []
  = Ok (true, [mkVec3 (mkDouble 1) (mkDouble 2) (mkDouble 3);
               mkVec3 (mkDouble 4) (mkDouble 5) (mkDouble 6)]).
Proof.
  assert (@parseBinaryArray sample_collaborators float _ six_floats_memory
            six_floats_property []
          = Ok (true, [mkFloat 1; mkFloat 2; mkFloat 3; mkFloat 4; mkFloat 5; mkFloat 6]))
    as Hparse by (vm_compute; reflexivity).
  exact (@parseDoubleVecData_widens sample_collaborators Vec3 _ six_floats_memory
           six_floats_property [] _ 2 fields_sized_Vec3 eq_refl Hparse eq_refl
           ltac:(simpl; lia)).
Defined.

Lemma parseDoubleVecData_overrun_witness :
  @parseDoubleVecData sample_collaborators Vec3 _ four_floats_memory four_floats_property []
  = UndefinedBehaviour.
Proof.
  apply (@parseDoubleVecData_overrun sample_collaborators Vec3 _ four_floats_memory
           four_floats_property [] [mkFloat 1; mkFloat 2; mkFloat 3; mkFloat 4]).
  - apply fields_sized_Vec3.
  - reflexivity.
  - vm_compute. reflexivity.
  - simpl. lia.
  - simpl. lia.
Defined.

(** ** The triangulator on any stream *)

Lemma half_decoded_lookup_lt old k j :
  (j < k)%nat → half_decoded old k !! j = (decode_entry <$> old) !! j.
Proof.
  intros Hj. unfold half_decoded.
  destruct (decide (j < length old)%nat) as [Hlt|Hge].
  - rewrite lookup_app_l by (rewrite length_fmap, length_take; lia).
    rewrite !list_lookup_fmap, lookup_take_lt by lia. done.
  - rewrite (lookup_ge_None_2 (decode_entry <$> old)) by (rewrite length_fmap; lia).
    apply lookup_ge_None_2.
    rewrite length_app, length_fmap, length_take, length_drop. lia.
Qed.

Lemma corner_of_mono old k k' idx pos :
  (k <= k')%nat → corner_of old k idx pos → corner_of old k' idx pos.
Proof. intros Hk [Hpos Hidx]. split; [lia|done]. Qed.

(** One turn of the loop: what it pushes. *)
Lemma triangulate_body_pushes old k s e :
  Forall is_int old →
  Z.of_nat (length old) < 2 ^ 31 →
  old !! k = Some e →
  ts_old_indices s = half_decoded old k →
  0 <= ts_in_polygon_idx s <= Z.of_nat k →
  ∃ s' corners positions,
    triangulate_body (Z.of_nat k) s = Ok s'
    ∧ ts_old_indices s' = half_decoded old (S k)
    ∧ 0 <= ts_in_polygon_idx s' <= Z.of_nat (S k)
    ∧ ts_indices s' = ts_indices s ++ corners
    ∧ ts_to_old s' = ts_to_old s ++ positions
    ∧ Forall2 (corner_of old (S k)) corners positions
    ∧ (1 <= length corners <= 3)%nat.
Proof.
  intros Hint Hlen He Hold Hipi.
  pose proof (lookup_lt_Some _ _ _ He) as Hlt.
  assert (is_int e) as Hie by (eapply Forall_lookup_1; eauto).
  assert (corner_of old (S k) (decode_entry e) (Z.of_nat k)) as Hlast.
  { split; [lia|]. by rewrite Nat2Z.id, list_lookup_fmap, He. }
  unfold triangulate_body, getIdx. rewrite Hold.
  rewrite (to_size_t_small (Z.of_nat k)) by lia.
  rewrite (at_lookup _ k e) by (by rewrite half_decoded_lookup_ge).
  cbn [mbind Outcome_bind]. rewrite getIdx_decode by done.
  destruct (ts_in_polygon_idx s <=? 2) eqn:Hcase.
  - cbn [mbind Outcome_bind fst snd].
    rewrite (to_int_small (ts_in_polygon_idx s + 1)) by lia.
    destruct (e <? 0) eqn:Hneg.
    + rewrite set_at_in_range by (rewrite length_half_decoded; lia).
      cbn [mbind Outcome_bind].
      eexists _, [decode_entry e], [Z.of_nat k]. split; [reflexivity|].
      cbn [ts_old_indices ts_in_polygon_idx ts_indices ts_to_old].
      rewrite Nat2Z.id.
      split; [by apply half_decoded_step|]. split; [lia|].
      split; [done|]. split; [done|]. split; [repeat (constructor; [assumption|]); constructor|simpl; lia].
    + eexists _, [decode_entry e], [Z.of_nat k]. split; [reflexivity|].
      cbn [ts_old_indices ts_in_polygon_idx ts_indices ts_to_old].
      apply Z.ltb_ge in Hneg.
      split; [by apply (half_decoded_keep old k e)|]. split; [lia|].
      split; [done|]. split; [done|]. split; [repeat (constructor; [assumption|]); constructor|simpl; lia].
  - apply Z.leb_gt in Hcase.
    rewrite (to_int_small (Z.of_nat k - ts_in_polygon_idx s)) by lia.
    rewrite (to_int_small (Z.of_nat k - 1)) by lia.
    rewrite !to_size_t_small by lia.
    destruct (at_in_range (half_decoded old k) (Z.of_nat k - ts_in_polygon_idx s))
      as (c0 & -> & Hc0); [rewrite length_half_decoded; lia|].
    destruct (at_in_range (half_decoded old k) (Z.of_nat k - 1))
      as (c1 & -> & Hc1); [rewrite length_half_decoded; lia|].
    rewrite half_decoded_lookup_lt in Hc0, Hc1 by lia.
    assert (corner_of old (S k) c0 (Z.of_nat k - ts_in_polygon_idx s)) as H0
      by (split; [lia|done]).
    assert (corner_of old (S k) c1 (Z.of_nat k - 1)) as H1 by (split; [lia|done]).
    cbn [mbind Outcome_bind fst snd].
    rewrite (to_int_small (ts_in_polygon_idx s + 1)) by lia.
    destruct (e <? 0) eqn:Hneg.
    + rewrite set_at_in_range by (rewrite length_half_decoded; lia).
      cbn [mbind Outcome_bind].
      eexists _, [c0; c1; decode_entry e],
        [Z.of_nat k - ts_in_polygon_idx s; Z.of_nat k - 1; Z.of_nat k].
      split; [reflexivity|].
      cbn [ts_old_indices ts_in_polygon_idx ts_indices ts_to_old].
      rewrite Nat2Z.id.
      split; [by apply half_decoded_step|]. split; [lia|].
      split; [done|]. split; [done|]. split; [repeat (constructor; [assumption|]); constructor|simpl; lia].
    + eexists _, [c0; c1; decode_entry e],
        [Z.of_nat k - ts_in_polygon_idx s; Z.of_nat k - 1; Z.of_nat k].
      split; [reflexivity|].
      cbn [ts_old_indices ts_in_polygon_idx ts_indices ts_to_old].
      apply Z.ltb_ge in Hneg.
      split; [by apply (half_decoded_keep old k e)|]. split; [lia|].
      split; [done|]. split; [done|]. split; [repeat (constructor; [assumption|]); constructor|simpl; lia].
Qed.

(** The loop on any stream of [int]s shorter than 2^31. *)
Lemma triangulate_pairs old indices to_old :
  Forall is_int old →
  Z.of_nat (length old) < 2 ^ 31 →
  ∃ corners positions,
    triangulate old indices to_old
    = Ok (decode_entry <$> old, indices ++ corners, to_old ++ positions)
    ∧ Forall2 (corner_of old (length old)) corners positions
    ∧ (length old <= length corners <= 3 * length old)%nat.
Proof.
  intros Hint Hlen.
  destruct (for_loop_total
    (λ i s, ∃ (k : nat) corners positions,
       i = Z.of_nat k
       ∧ ts_old_indices s = half_decoded old k
       ∧ 0 <= ts_in_polygon_idx s <= Z.of_nat k
       ∧ ts_indices s = indices ++ corners
       ∧ ts_to_old s = to_old ++ positions
       ∧ Forall2 (corner_of old k) corners positions
       ∧ (k <= length corners <= 3 * k)%nat)
    (length old) 0 triangulate_body (mkTriangulateState old indices to_old 0))
    as (r & Hr & k & corners & positions & Hk & Hold & _ & Hi & Ht & Hpairs & Hsize).
  - exists 0%nat, [], []. cbn. rewrite !app_nil_r.
    split; [done|]. split; [by unfold half_decoded; rewrite take_0, drop_0|].
    split; [lia|]. split; [done|]. split; [done|]. split; [constructor|lia].
  - intros i s Hi (k & corners & positions & -> & Hold & Hipi & Hind & Hto & Hpairs & Hsize).
    destruct (lookup_lt_is_Some_2 old k) as [e He]; [lia|].
    destruct (triangulate_body_pushes old k s e Hint Hlen He Hold Hipi)
      as (s' & cs & ps & Hs' & Hold' & Hipi' & Hind' & Hto' & Hpairs' & Hsize').
    exists s'. split; [done|].
    exists (S k), (corners ++ cs), (positions ++ ps).
    split; [lia|]. split; [done|]. split; [done|].
    split; [by rewrite Hind', Hind, app_assoc|].
    split; [by rewrite Hto', Hto, app_assoc|].
    split.
    + apply Forall2_app; [|done].
      eapply Forall2_impl; [|exact Hpairs].
      intros idx pos. apply corner_of_mono. lia.
    + rewrite length_app. lia.
  - assert (k = length old) as -> by lia.
    exists corners, positions. unfold triangulate. rewrite Hr.
    cbn [mbind Outcome_bind]. rewrite Hold, half_decoded_all, Hi, Ht.
    done.
Qed.

(** X10.  On any stream of [int]s shorter than 2^31, well formed or not,
    [triangulate] returns without reading or storing outside a vector: it
    leaves the stream decoded, it only appends to [indices] and to [to_old],
    the same number of entries to both, between one and three for each entry
    of the stream; every position appended to [to_old] is a position of the
    stream, and the corner appended with it is the decoded entry of the
    stream at that position. *)
Theorem triangulate_pairs_corners (old_indices indices to_old : list Z) :
  Forall is_int old_indices →
  Z.of_nat (length old_indices) < 2 ^ 31 →
  ∃ corners positions,
    triangulate old_indices indices to_old
    = Ok (decode_entry <$> old_indices, indices ++ corners, to_old ++ positions)
    ∧ length corners = length positions
    ∧ (length old_indices <= length corners <= 3 * length old_indices)%nat
    ∧ Forall (λ pos, 0 <= pos < Z.of_nat (length old_indices)) positions
    ∧ ∀ (k : nat) idx pos,
        corners !! k = Some idx → positions !! k = Some pos →
        (decode_entry <$> old_indices) !! Z.to_nat pos = Some idx.
Proof.
  intros Hint Hlen.
  destruct (triangulate_pairs old_indices indices to_old Hint Hlen)
    as (corners & positions & Hrun & Hpairs & Hsize).
  exists corners, positions. split; [done|].
  split; [by eapply Forall2_length|]. split; [done|]. split.
  - apply Forall_lookup. intros k pos Hk.
    destruct (Forall2_lookup_r _ _ _ _ _ Hpairs Hk) as (idx & _ & Hc & _). done.
  - intros k idx pos Hc Hp.
    destruct (Forall2_lookup_lr _ _ _ _ _ _ Hpairs Hc Hp) as [_ Hidx]. done.
Qed.

Lemma triangulate_pairs_corners_witness :
  ∃ corners positions,
    triangulate [5; -7; 1; 2; 3; 4] [9] [9]
    = Ok ([5; 6; 1; 2; 3; 4], 9 :: corners, 9 :: positions)
    ∧ length corners = length positions.
Proof.
  destruct (triangulate_pairs_corners [5; -7; 1; 2; 3; 4] [9] [9])
    as (corners & positions & Hrun & Hlen & _).
  - repeat constructor; unfold is_int; lia.
  - simpl. lia.
  - exists corners, positions. split; [exact Hrun|exact Hlen].
Defined.

Lemma corner_output_any p :
  p ≠ [] → flat_map (corner_output p) (seq 0 (length p)) = polygon_output p.
Proof.
  intros Hp. unfold polygon_output.
  destruct (length p <=? 2)%nat eqn:Hn;
    [apply Nat.leb_le in Hn|apply Nat.leb_gt in Hn; apply corner_output_fan; lia].
  destruct p as [|a [|b [|c p]]]; [done|done|done|simpl in Hn; lia].
Qed.

(** The loop on a stream of polygons of any number of corners. *)
Lemma any_stream_turns polys pre indices to_old :
  Forall (λ p, p ≠ [] ∧ Forall (λ c, 0 <= c < 2 ^ 31) p) polys →
  Z.of_nat (length pre + length (concat polys)) < 2 ^ 31 →
  ∃ positions,
    for_loop (length (concat polys)) (Z.of_nat (length pre)) triangulate_body
      (mkTriangulateState (pre ++ concat (encode_polygon <$> polys)) indices to_old 0)
    = Ok (mkTriangulateState (pre ++ concat polys)
            (indices ++ concat (polygon_output <$> polys))
            (to_old ++ positions)
            0).
Proof.
  intros Hwf. revert pre indices to_old.
  induction Hwf as [|p polys [Hn Hp] Hwf IH]; intros pre indices to_old Hlen.
  - exists []. simpl. by rewrite !app_nil_r.
  - destruct p as [|l b _] using rev_ind; [done|].
    cbn [concat fmap list_fmap] in *.
    rewrite length_app in Hlen.
    rewrite length_app, for_loop_app, encode_polygon_snoc.
    rewrite polygon_turns by (done || lia).
    cbn [mbind Outcome_bind].
    rewrite corner_output_any by done.
    replace (Z.of_nat (length pre) + Z.of_nat (length (b ++ [l])))
      with (Z.of_nat (length (pre ++ b ++ [l]))) by (rewrite (length_app pre); lia).
    rewrite (app_assoc pre (b ++ [l])).
    destruct (IH (pre ++ b ++ [l]) (indices ++ polygon_output (b ++ [l]))
                (to_old ++ flat_map (corner_positions (Z.of_nat (length pre)))
                             (seq 0 (length (b ++ [l])))))
      as [positions Hrun]; [rewrite (length_app pre); lia|].
    rewrite Hrun. eexists. by rewrite <- !app_assoc.
Qed.

(** X11.  [triangulate] does not refuse a polygon of fewer than three
    corners: on a stream of polygons of any number of corners it emits a
    polygon of one or two corners as it is, and the others as their fans,
    so that one such polygon leaves a number of emitted corners that is not
    a multiple of three. *)
Theorem triangulate_short_polygons (polys : list (list Z)) :
  Forall (λ p, p ≠ [] ∧ Forall (λ c, 0 <= c < 2 ^ 31) p) polys →
  Z.of_nat (length (concat polys)) < 2 ^ 31 →
  ∃ to_old,
    triangulate (concat (encode_polygon <$> polys)) [] []
    = Ok (concat polys, concat (polygon_output <$> polys), to_old).
Proof.
  intros Hwf Hlen. unfold triangulate.
  assert (length (concat (encode_polygon <$> polys)) = length (concat polys)) as ->.
  { clear. induction polys as [|p polys IH]; [done|].
    cbn [concat fmap list_fmap]. by rewrite !length_app, IH, length_encode_polygon. }
  destruct (any_stream_turns polys [] [] [] Hwf) as [positions Hrun];
    [simpl; lia|].
  cbn [app length] in Hrun. change (Z.of_nat 0) with 0 in Hrun.
  rewrite Hrun. cbn [mbind Outcome_bind]. by eexists.
Qed.

Lemma triangulate_short_polygons_witness :
  ∃ to_old,
    triangulate [0; 1; -3; 4; -6; 7; 8; 9; -11] [] []
    = Ok ([0; 1; 2; 4; 5; 7; 8; 9; 10],
          [0; 1; 2; 4; 5; 7; 8; 9; 7; 9; 10], to_old).
Proof.
  apply (triangulate_short_polygons [[0; 1; 2]; [4; 5]; [7; 8; 9; 10]]).
  - repeat constructor; (discriminate || lia).
  - simpl. lia.
Defined.

Lemma length_concat_fans polys :
  length (concat (fan_triangles <$> polys))
  = (3 * sum_list ((λ p, length p - 2)%nat <$> polys))%nat.
Proof.
  induction polys as [|p polys IH]; [done|].
  rewrite !fmap_cons. cbn [concat].
  rewrite length_app, IH, length_fan_triangles.
  generalize ((λ p0 : list Z, length p0 - 2)%nat <$> polys) (length p - 2)%nat.
  intros l a. simpl. lia.
Qed.

(** X23.  After [triangulate] has filled the triangles of a geometry from a
    well-formed stream, [getTriangleCount] is the number of triangles of the
    fans, n - 2 for each polygon of n corners, and three times that number
    is the number of corners in [triangles]. *)
Theorem getTriangleCount_fans (polys : list (list Z)) (g : GeometryImpl)
    (old_indices to_old : list Z) :
  Forall well_formed_polygon polys →
  Z.of_nat (length (concat polys)) < 2 ^ 31 →
  triangulate (concat (encode_polygon <$> polys)) [] []
  = Ok (old_indices, triangles g, to_old) →
  getTriangleCount g = Z.of_nat (sum_list ((λ p, length p - 2)%nat <$> polys))
  ∧ 3 * getTriangleCount g = Z.of_nat (length (triangles g)).
Proof.
  intros Hwf Hlen Hrun. unfold triangulate in Hrun.
  assert (length (concat (encode_polygon <$> polys)) = length (concat polys)) as Hl.
  { clear. induction polys as [|p polys IH]; [done|].
    cbn [concat fmap list_fmap]. by rewrite !length_app, IH, length_encode_polygon. }
  rewrite Hl in Hrun.
  pose proof (stream_turns polys [] [] [] Hwf) as Hloop.
  cbn [app length] in Hloop. change (Z.of_nat 0) with 0 in Hloop.
  rewrite Hloop in Hrun by lia. cbn [mbind Outcome_bind] in Hrun.
  injection Hrun as _ Ht _. cbn in Ht.
  unfold getTriangleCount. rewrite <- Ht, length_concat_fans.
  rewrite Nat2Z.inj_mul, Z.mul_comm, Z.quot_mul by lia. lia.
Qed.

Lemma getTriangleCount_fans_witness :
  getTriangleCount (set_triangles [0; 1; 2; 4; 5; 6; 4; 6; 7; 4; 7; 8] empty_geometry)
  = 4.
Proof.
  assert (Forall well_formed_polygon [[0; 1; 2]; [4; 5; 6; 7; 8]]) as Hwf.
  { repeat constructor; simpl; lia. }
  apply (getTriangleCount_fans [[0; 1; 2]; [4; 5; 6; 7; 8]]
           (set_triangles [0; 1; 2; 4; 5; 6; 4; 6; 7; 4; 7; 8] empty_geometry)
           [0; 1; 2; 4; 5; 6; 7; 8] [0; 1; 2; 3; 4; 5; 3; 5; 6; 3; 6; 7] Hwf).
  - simpl. lia.
  - vm_compute. reflexivity.
Defined.

(** ** Vertex expansion: the values seen through the indices *)

(** One turn of the loop of [expand] on valid indices leaves every loop
    position the value it saw. *)
Lemma expand_body_values {T} (data : list T) f geom mask i s s' :
  expand_ready data f geom →
  1 <= i < Z.of_nat (length (get_indices f geom)) →
  expand_invariant data f geom mask i s →
  expand_valid data f geom mask i s →
  expand_values data f geom s →
  expand_body f mask i s = Ok s' →
  expand_values data f geom s'.
Proof.
  intros (Hn & Hrange & Hsize & Hall) Hi
    (Hgeom & Hlen & Hrest & Hzero & (ext & Hdata & Hext) & Hmap & Hconf)
    (Hcur & Hgrow & Hbound) Hvalues Hbody.
  unfold expand_body in Hbody.
  set (cur := get_indices f (es_geom s)) in *.
  inv_bind Hbody as e He. apply at_Ok in He as [Hir He].
  inv_bind Hbody as vtx Hvtx.
  assert (0 <= e < Z.of_nat (length (es_data s))) as He_range
    by (by apply (proj1 (Forall_lookup _ _) Hcur (Z.to_nat i))).
  destruct (es_map s !! to_size_t e) as [found|] eqn:Hfound.
  - destruct (VertexData_ne found vtx) eqn:Hne.
    + inv_bind Hbody as d Hd. apply at_Ok in Hd as [_ Hd].
      inv_bind Hbody as new_indices Hset. apply set_at_Ok in Hset as [_ ->].
      injection Hbody as <-. fold cur.
      unfold expand_values. cbn [es_geom es_data]. rewrite get_set_indices.
      rewrite to_size_t_small in Hd by lia.
      rewrite (to_int_small (Z.of_nat (length (es_data s)))) by lia.
      intros j e1 e0 Hl H0.
      destruct (decide (j = Z.to_nat i)) as [->|Hnj].
      * rewrite list_lookup_insert_eq in Hl by lia. injection Hl as <-.
        rewrite Nat2Z.id, lookup_app_r, Nat.sub_diag by lia. simpl.
        rewrite <- Hd. by apply (Hvalues (Z.to_nat i)).
      * rewrite list_lookup_insert_ne in Hl by done.
        pose proof (proj1 (Forall_lookup _ _) Hcur j e1 Hl) as He1. simpl in He1.
        rewrite lookup_app_l by lia. by apply (Hvalues j).
    + by injection Hbody as <-.
  - injection Hbody as <-. unfold expand_values. cbn [es_geom es_data].
    apply Hvalues.
Qed.

(** [expand] on valid indices returns with the three invariants. *)
Lemma expand_ready_values {T} (data : list T) f geom mask :
  expand_ready data f geom →
  ∃ s, expand data f geom mask = Ok (es_data s, es_geom s)
    ∧ expand_invariant data f geom mask
        (Z.of_nat (length (get_indices f geom))) s
    ∧ expand_valid data f geom mask (Z.of_nat (length (get_indices f geom))) s
    ∧ expand_values data f geom s.
Proof.
  intros Hready. pose proof Hready as (Hn & Hrange & Hsize & Hall).
  destruct (VertexData_of_defined geom 0 mask _ Hall) as [vtx Hvtx]; [lia|].
  destruct (at_in_range (get_indices f geom) 0) as (e & He & Hl); [lia|].
  change (Z.to_nat 0) with 0%nat in Hl.
  pose proof (proj1 (Forall_lookup _ _) Hrange _ _ Hl) as He_range. simpl in He_range.
  destruct (for_loop_total
    (λ i s, expand_invariant data f geom mask i s ∧ expand_valid data f geom mask i s
            ∧ expand_values data f geom s)
    (length (get_indices f geom) - 1) 1 (expand_body f mask)
    (mkExpandState (<[to_size_t e := vtx]> ∅) data geom))
    as (s & Hs & Hinv & Hvalid & Hvalues).
  - split; [by apply expand_invariant_start|]. split.
    + unfold expand_valid. cbn [es_geom es_data es_map].
      split; [done|]. split; [lia|].
      intros j e1 Hj Hl1. assert (j = 0%nat) as -> by lia.
      rewrite Hl in Hl1. injection Hl1 as <-. exists vtx.
      rewrite to_size_t_small by lia. by rewrite lookup_insert_eq.
    + intros j e1 e0 Hl1 Hl0. cbn [es_geom es_data] in *. congruence.
  - intros i s Hi (Hinv & Hvalid & Hvalues).
    destruct (expand_body_valid data f geom mask i s) as (s' & Hs' & Hvalid');
      [done|lia|done|done|].
    exists s'. split; [done|]. split; [|split; [done|]].
    + eapply expand_body_invariant; [lia|done|done].
    + eapply (expand_body_values data f geom mask i s s'); (done || lia).
  - exists s. unfold expand. rewrite Hvtx, He. cbn [mbind Outcome_bind].
    rewrite Hs. cbn [mbind Outcome_bind]. split; [done|].
    replace (Z.of_nat (length (get_indices f geom)))
      with (1 + Z.of_nat (length (get_indices f geom) - 1)) by lia.
    done.
Qed.

(** X12.  On indices that are valid for the data, [expand] leaves every
    loop position the value it saw: the entry of the grown data that the
    index of the position refers to on return is the entry of the data that
    its index referred to on entry.  The data grows by fewer entries than
    there are loop positions. *)
Theorem expand_keeps_values {T} (data : list T) (f : IndexMember)
    (geom : GeometryImpl) (mask : Z) :
  expand_ready data f geom →
  ∃ data' geom',
    expand data f geom mask = Ok (data', geom')
    ∧ (∀ (i : nat) e0,
         get_indices f geom !! i = Some e0 →
         ∃ e x, get_indices f geom' !! i = Some e
                ∧ data' !! Z.to_nat e = Some x
                ∧ data !! Z.to_nat e0 = Some x)
    ∧ (length data <= length data' < length data + length (get_indices f geom))%nat.
Proof.
  intros Hready.
  destruct (expand_ready_values data f geom mask Hready)
    as (s & Hrun & (Hgeom & Hlen & _ & _ & (ext & Hdata & _) & _)
        & (Hcur & Hgrow & _) & Hvalues).
  destruct Hready as (Hn & Hrange & Hsize & Hall).
  exists (es_data s), (es_geom s). split; [done|]. split.
  - intros i e0 H0.
    pose proof (lookup_lt_Some _ _ _ H0) as Hlt.
    destruct (lookup_lt_is_Some_2 (get_indices f (es_geom s)) i) as [e He]; [lia|].
    pose proof (proj1 (Forall_lookup _ _) Hrange _ _ H0) as He0. simpl in He0.
    destruct (lookup_lt_is_Some_2 data (Z.to_nat e0)) as [x Hx]; [lia|].
    exists e, x. split; [done|]. split; [|done].
    rewrite <- Hx. by apply (Hvalues i).
  - rewrite Hdata, length_app in *. lia.
Qed.

Lemma expand_keeps_values_witness :
  ∃ data' geom',
    expand [10; 20] VERTEX_INDICES shared_corner_geometry EXCLUDE_VERTEX
    = Ok (data', geom')
    ∧ (length [10; 20] <= length data' < 2 + 3)%nat.
Proof.
  assert (expand_ready [10; 20] VERTEX_INDICES shared_corner_geometry) as Hready.
  { split; [simpl; lia|]. split; [repeat constructor; simpl; lia|].
    split; [simpl; lia|]. intros []; simpl; (by left) || (right; lia). }
  destruct (expand_keeps_values [10; 20] VERTEX_INDICES shared_corner_geometry
              EXCLUDE_VERTEX Hready) as (data' & geom' & Hrun & _ & Hsize).
  exists data', geom'. split; [exact Hrun|exact Hsize].
Defined.

(** ** Vertex expansion: nothing to split, nothing to read *)

Lemma VertexData_ne_same v : VertexData_ne v v = false.
Proof. unfold VertexData_ne. by rewrite !Z.eqb_refl. Qed.

(** The loop of [expand] when no two loop positions that hold the same
    index have different signatures: nothing is split. *)
Lemma expand_without_conflict {T} (data : list T) (f : IndexMember)
    (geom : GeometryImpl) (mask : Z) :
  get_indices f geom ≠ [] →
  (∀ f', get_indices f' geom = []
         ∨ (length (get_indices f geom) <= length (get_indices f' geom))%nat) →
  conflict_free f geom mask →
  expand data f geom mask = Ok (data, geom).
Proof.
  intros Hne Hall Hfree.
  assert (1 <= length (get_indices f geom))%nat as Hn
    by (destruct (get_indices f geom); [done|simpl; lia]).
  destruct (VertexData_of_defined geom 0 mask _ Hall) as [vtx Hvtx]; [lia|].
  destruct (at_in_range (get_indices f geom) 0) as (e & He & Hl); [lia|].
  change (Z.to_nat 0) with 0%nat in Hl.
  destruct (for_loop_total
    (λ i (s : ExpandState T),
       es_data s = data ∧ es_geom s = geom
       ∧ ∀ k v, es_map s !! k = Some v →
           ∃ (j : nat) e', Z.of_nat j < i ∧ get_indices f geom !! j = Some e'
             ∧ to_size_t e' = k ∧ VertexData_of geom (Z.of_nat j) mask = Ok v)
    (length (get_indices f geom) - 1) 1 (expand_body f mask)
    (mkExpandState (<[to_size_t e := vtx]> ∅) data geom))
    as (s & Hs & Hdata & Hgeom & _).
  - cbn [es_data es_geom es_map]. split; [done|]. split; [done|].
    intros k v Hk. destruct (decide (to_size_t e = k)) as [<-|Hnk].
    + rewrite lookup_insert_eq in Hk. injection Hk as <-. exists 0%nat, e.
      split; [lia|done].
    + by rewrite lookup_insert_ne, lookup_empty in Hk.
  - intros i s Hi (Hdata & Hgeom & Hmap).
    destruct (at_in_range (get_indices f geom) i) as (ei & Hat & Hei); [lia|].
    destruct (VertexData_of_defined geom i mask _ Hall) as [vi Hvi]; [lia|].
    unfold expand_body. rewrite Hgeom, Hat, Hvi. cbn [mbind Outcome_bind].
    destruct (es_map s !! to_size_t ei) as [found|] eqn:Hfound.
    + destruct (Hmap _ _ Hfound) as (j & e' & Hj & Hl' & Hkey & Hsig).
      assert (found = vi) as ->.
      { apply (Hfree (Z.to_nat i) j ei e'); try done; [lia|].
        by rewrite Z2Nat.id by lia. }
      rewrite VertexData_ne_same. exists s. split; [done|].
      split; [done|]. split; [done|].
      intros k v Hk. destruct (Hmap k v Hk) as (j' & e'' & Hj' & Hrest).
      exists j', e''. split; [lia|done].
    + eexists. split; [reflexivity|]. cbn [es_data es_geom es_map].
      split; [done|]. split; [done|].
      intros k v Hk. destruct (decide (to_size_t ei = k)) as [<-|Hnk].
      * rewrite lookup_insert_eq in Hk. injection Hk as <-.
        exists (Z.to_nat i), ei. split; [lia|]. split; [done|]. split; [done|].
        by rewrite Z2Nat.id by lia.
      * rewrite lookup_insert_ne in Hk by done.
        destruct (Hmap k v Hk) as (j' & e'' & Hj' & Hrest).
        exists j', e''. split; [lia|done].
  - unfold expand. rewrite Hvtx, He. cbn [mbind Outcome_bind].
    rewrite Hs. cbn [mbind Outcome_bind]. by rewrite Hdata, Hgeom.
Qed.

(** X13.  When no two loop positions that hold the same index have
    different signatures, [expand] changes nothing: it returns the data and
    the geometry as they were, whether the indices are valid for the data
    or not.  (Every loop position has a signature: each index vector of the
    geometry is empty or as long as the loop.) *)
Theorem expand_conflict_free {T} (data : list T) (f : IndexMember)
    (geom : GeometryImpl) (mask : Z) :
  get_indices f geom ≠ [] →
  (∀ f', get_indices f' geom = []
         ∨ (length (get_indices f geom) <= length (get_indices f' geom))%nat) →
  conflict_free f geom mask →
  expand data f geom mask = Ok (data, geom).
Proof.
  intros Hne Hall Hfree. by apply expand_without_conflict.
Qed.

Lemma expand_conflict_free_witness :
  expand [10; 20] VERTEX_INDICES (geometry_of_indices [0; 1; 0; 5] [3; 4; 3; 3])
    EXCLUDE_VERTEX
  = Ok ([10; 20], geometry_of_indices [0; 1; 0; 5] [3; 4; 3; 3]).
Proof.
  apply (expand_conflict_free [10; 20] VERTEX_INDICES
           (geometry_of_indices [0; 1; 0; 5] [3; 4; 3; 3]) EXCLUDE_VERTEX).
  - discriminate.
  - intros []; simpl; (by left) || (right; lia).
  - intros i j e e' v v' Hji Hj Hi Hkey Hvj Hvi.
    destruct i as [|[|[|[|i]]]]; try discriminate Hi;
      destruct j as [|[|[|[|j]]]]; try discriminate Hj; try lia;
      simpl in Hi, Hj; injection Hi as <-; injection Hj as <-;
      try discriminate Hkey;
      vm_compute in Hvi, Hvj; congruence.
Defined.

(** X14.  [expand] reads [indices[0]] before its loop: on an empty index
    vector it reads the first element of an empty vector (undefined
    behaviour), whatever the data. *)
Theorem expand_empty_indices {T} (data : list T) (f : IndexMember)
    (geom : GeometryImpl) (mask : Z) :
  get_indices f geom = [] →
  expand data f geom mask = UndefinedBehaviour.
Proof.
  intros Hnil. unfold expand.
  assert (∃ vtx, VertexData_of geom 0 mask = Ok vtx) as [vtx ->].
  { assert (∀ l ex, ∃ x, signature_field l 0 mask ex = Ok x) as Hfield.
    { intros l ex. unfold signature_field.
      destruct (bool_decide (length l = 0%nat) || negb (Z.land mask ex =? 0)) eqn:Hc;
        [by eexists|].
      apply orb_false_iff in Hc as [Hl _]. apply bool_decide_eq_false in Hl.
      destruct l as [|x l]; [done|]. by exists x. }
    rewrite VertexData_of_members.
    destruct (Hfield (get_indices VERTEX_INDICES geom) (exclude_bit VERTEX_INDICES))
      as [x1 ->].
    destruct (Hfield (get_indices NORMAL_INDICES geom) (exclude_bit NORMAL_INDICES))
      as [x2 ->].
    destruct (Hfield (get_indices TANGENT_INDICES geom) (exclude_bit TANGENT_INDICES))
      as [x3 ->].
    destruct (Hfield (get_indices COLOR_INDICES geom) (exclude_bit COLOR_INDICES))
      as [x4 ->].
    destruct (Hfield (get_indices UV_INDICES geom) (exclude_bit UV_INDICES))
      as [x5 ->].
    by eexists. }
  by rewrite Hnil.
Qed.

Lemma expand_empty_indices_witness :
  expand [10; 20] UV_INDICES (geometry_of_indices [0; 1; 0] []) EXCLUDE_UV
  = UndefinedBehaviour.
Proof.
  apply (expand_empty_indices [10; 20] UV_INDICES (geometry_of_indices [0; 1; 0] [])).
  reflexivity.
Defined.

(** ** Remap onto the vertex indices *)

(** The loop of [remapForRendering] on valid arguments: every slot holds
    what the last turn that stored in it stored, and a slot no turn stored
    in holds what it held. *)
Lemma remap_loop {T} (out : list T) (indices mapping : list Z) :
  remap_valid out indices mapping →
  Z.of_nat (length out) < 2 ^ 64 →
  ∃ out',
    for_loop (length indices) 0
      (λ i o,
         idx ← at_ mapping i;
         ref ← at_ indices i;
         v ← at_ out (to_size_t ref);
         set_at o (to_size_t idx) v)
      out = Ok out'
    ∧ length out' = length out
    ∧ (∀ slot : nat,
         (∀ i : nat, (i < length indices)%nat → mapping !! i ≠ Some (Z.of_nat slot)) →
         out' !! slot = out !! slot)
    ∧ (∀ (i : nat) e ref,
         mapping !! i = Some e → indices !! i = Some ref →
         (∀ (j : nat) ref', (i < j)%nat → mapping !! j = Some e →
            indices !! j = Some ref' → out !! Z.to_nat ref' = out !! Z.to_nat ref) →
         out' !! Z.to_nat e = out !! Z.to_nat ref).
Proof.
  intros (Hlen & Hind & Hmap) Hsize.
  assert (∀ (i : nat) e, (i < length indices)%nat → mapping !! i = Some e →
            0 <= e < Z.of_nat (length out)) as Hmap'.
  { intros i e Hi He. apply (proj1 (Forall_lookup _ _) Hmap i e).
    by rewrite lookup_take_lt. }
  destruct (for_loop_total
    (λ k (o : list T),
       length o = length out
       ∧ (∀ slot : nat,
            (∀ i : nat, Z.of_nat i < k → mapping !! i ≠ Some (Z.of_nat slot)) →
            o !! slot = out !! slot)
       ∧ (∀ (i : nat) e ref,
            Z.of_nat i < k →
            mapping !! i = Some e → indices !! i = Some ref →
            (∀ (j : nat) ref', (i < j)%nat → Z.of_nat j < k → mapping !! j = Some e →
               indices !! j = Some ref' → out !! Z.to_nat ref' = out !! Z.to_nat ref) →
            o !! Z.to_nat e = out !! Z.to_nat ref))
    (length indices) 0
    (λ i o,
       idx ← at_ mapping i;
       ref ← at_ indices i;
       v ← at_ out (to_size_t ref);
       set_at o (to_size_t idx) v)
    out) as (out' & Hrun & Hlen' & Hkeep & Hlast).
  - split; [done|]. split; [done|]. intros; lia.
  - intros k o Hk (Hl & Hkeep & Hlast).
    destruct (at_in_range mapping k) as (idx & -> & Hidx); [lia|].
    destruct (at_in_range indices k) as (ref & -> & Href); [lia|].
    cbn [mbind Outcome_bind].
    pose proof (Hmap' (Z.to_nat k) idx ltac:(lia) Hidx) as Hidx_range.
    pose proof (proj1 (Forall_lookup _ _) Hind _ _ Href) as Href_range.
    simpl in Href_range.
    rewrite !to_size_t_small by lia.
    destruct (at_in_range out ref) as (v & -> & Hv); [lia|].
    cbn [mbind Outcome_bind].
    rewrite set_at_in_range by lia.
    eexists. split; [reflexivity|]. rewrite length_insert.
    split; [done|]. split.
    + intros slot Hfree.
      rewrite list_lookup_insert_ne.
      * apply Hkeep. intros i Hi. apply Hfree. lia.
      * intros Heq. apply (Hfree (Z.to_nat k)); [lia|].
        rewrite Hidx. f_equal. lia.
    + intros i e ref0 Hi He Hr Hlater.
      destruct (decide (e = idx)) as [->|Hne].
      * rewrite list_lookup_insert_eq by lia. rewrite <- Hv.
        destruct (decide (i = Z.to_nat k)) as [->|Hik]; [congruence|].
        apply (Hlater (Z.to_nat k) ref); (done || lia).
      * pose proof (Hmap' i e ltac:(lia) He) as He_range.
        rewrite list_lookup_insert_ne by lia.
        assert (i ≠ Z.to_nat k) as Hik by congruence.
        apply (Hlast i e ref0); try done; [lia|].
        intros j ref' Hij Hj. apply Hlater; lia.
  - exists out'. split; [done|]. split; [done|]. split.
    + intros slot Hfree. apply Hkeep. intros i Hi. apply Hfree. lia.
    + intros i e ref He Hr Hlater.
      pose proof (lookup_lt_Some _ _ _ Hr) as Hi.
      apply (Hlast i e ref); try done; [lia|].
      intros j ref' Hij _. by apply Hlater.
Qed.

(** X15.  [remapForRendering] on a vector that is not empty, with one
    mapping entry per index and every index and mapping entry valid for the
    vector, keeps the size of the vector and gathers: when the slots that
    are written more than once are written the same value, the slot
    [mapping[i]] holds on return the entry that [indices[i]] referred to on
    entry, for every loop position [i]; a slot that is no mapping entry
    keeps its entry.  The entries are read in the vector as it was on
    entry, not as the loop leaves it. *)
Theorem remapForRendering_gathers {T} (out : list T) (indices mapping : list Z) :
  out ≠ [] →
  length mapping = length indices →
  indices_below (length out) indices →
  indices_below (length out) mapping →
  Z.of_nat (length out) < 2 ^ 64 →
  ∃ out',
    remapForRendering out indices mapping = Ok out'
    ∧ length out' = length out
    ∧ (∀ slot : nat,
         (∀ i : nat, mapping !! i ≠ Some (Z.of_nat slot)) →
         out' !! slot = out !! slot)
    ∧ (remap_consistent out indices mapping →
       ∀ (i : nat) e ref,
         mapping !! i = Some e → indices !! i = Some ref →
         out' !! Z.to_nat e = out !! Z.to_nat ref).
Proof.
  intros Hne Hlen Hind Hmap Hsize.
  destruct (remap_loop out indices mapping) as (out' & Hrun & Hlen' & Hkeep & Hlast).
  { split; [lia|]. split; [done|]. by apply Forall_take. }
  { done. }
  exists out'. unfold remapForRendering.
  rewrite bool_decide_eq_false_2 by (by destruct out).
  split; [done|]. split; [done|]. split.
  - intros slot Hfree. apply Hkeep. intros i _. apply Hfree.
  - intros Hcons i e ref He Hr. apply (Hlast i e ref He Hr).
    intros j ref' _ Hj Hr'. by apply (Hcons j i e ref' ref).
Qed.

Lemma remapForRendering_gathers_witness :
  ∃ out',
    remapForRendering [10; 20; 30] [2; 0; 2] [0; 1; 0] = Ok out'
    ∧ length out' = 3%nat.
Proof.
  destruct (remapForRendering_gathers [10; 20; 30] [2; 0; 2] [0; 1; 0])
    as (out' & Hrun & Hlen & _).
  - discriminate.
  - reflexivity.
  - repeat constructor; simpl; lia.
  - repeat constructor; simpl; lia.
  - simpl. lia.
  - exists out'. split; [exact Hrun|exact Hlen].
Defined.

Lemma for_loop_defined {St} n lo (body : Z → St → Outcome St) s :
  (∀ i s, body i s = UndefinedBehaviour ∨ ∃ s', body i s = Ok s') →
  for_loop n lo body s = UndefinedBehaviour ∨ ∃ s', for_loop n lo body s = Ok s'.
Proof.
  intros Hbody. revert lo s. induction n as [|n IH]; intros lo s.
  - right. by eexists.
  - simpl. destruct (Hbody lo s) as [->|[s' ->]]; [by left|]. apply IH.
Qed.

Lemma at_defined {A} (v : list A) i :
  at_ v i = UndefinedBehaviour ∨ ∃ a, at_ v i = Ok a.
Proof.
  unfold at_. destruct ((0 <=? i) && (i <? Z.of_nat (length v))); [|by left].
  destruct (v !! Z.to_nat i); [right; by eexists|by left].
Qed.

Lemma size_t_in_range (e : Z) (n : nat) :
  is_int e → Z.of_nat n < 2 ^ 63 → 0 <= to_size_t e < Z.of_nat n → 0 <= e < Z.of_nat n.
Proof.
  unfold is_int, to_size_t. intros He Hn Hr.
  destruct (decide (0 <= e)) as [Hpos|Hneg].
  - rewrite Z.mod_small in Hr by lia. lia.
  - exfalso. replace e with (e + 2 ^ 64 - 1 * 2 ^ 64) in Hr by lia.
    rewrite Zminus_mod, Z_mod_mult, Z.sub_0_r, Z.mod_mod in Hr by lia.
    rewrite Z.mod_small in Hr by lia. lia.
Qed.

(** When [remapForRendering] stays inside its vectors. *)
Lemma remap_bounds {T} (out : list T) (indices mapping : list Z) :
  Forall is_int indices →
  Forall is_int mapping →
  Z.of_nat (length out) < 2 ^ 63 →
  (out = [] → remapForRendering out indices mapping = Ok out)
  ∧ (out ≠ [] →
     (remapForRendering out indices mapping = UndefinedBehaviour
      ↔ ¬ remap_valid out indices mapping)
     ∧ ((∃ out', remapForRendering out indices mapping = Ok out')
        ↔ remap_valid out indices mapping)).
Proof.
  intros Hint_i Hint_m Hsize. split; [by intros ->|].
  intros Hne. unfold remapForRendering.
  rewrite bool_decide_eq_false_2 by (by destruct out).
  set (body := λ (i : Z) (o : list T),
         idx ← at_ mapping i;
         ref ← at_ indices i;
         v ← at_ out (to_size_t ref);
         set_at o (to_size_t idx) v).
  assert (remap_valid out indices mapping →
          ∃ out', for_loop (length indices) 0 body out = Ok out') as Hvalid.
  { intros Hv. destruct (remap_loop out indices mapping Hv ltac:(lia))
      as (out' & Hrun & _). by exists out'. }
  assert (∀ out', for_loop (length indices) 0 body out = Ok out' →
          remap_valid out indices mapping) as Hok.
  { intros out' Hrun.
    apply (for_loop_invariant
      (λ k (o : list T),
         length o = length out
         ∧ ∀ (i : nat), Z.of_nat i < k →
             (i < length mapping)%nat
             ∧ (∀ e, mapping !! i = Some e → 0 <= e < Z.of_nat (length out))
             ∧ (∀ ref, indices !! i = Some ref → 0 <= ref < Z.of_nat (length out))))
      in Hrun.
    - destruct Hrun as [_ Hall]. split; [|split].
      + destruct (decide (length indices <= length mapping)%nat) as [|Hgt]; [done|].
        destruct (Hall (length mapping)) as [Hlt _]; lia.
      + apply Forall_lookup. intros i ref Hr.
        pose proof (lookup_lt_Some _ _ _ Hr).
        destruct (Hall i) as (_ & _ & Hi); [lia|by apply Hi].
      + apply Forall_lookup. intros i e He.
        pose proof (lookup_lt_Some _ _ _ He) as Hlt. rewrite length_take in Hlt.
        rewrite lookup_take_lt in He by lia.
        destruct (Hall i) as (_ & Hi & _); [lia|by apply Hi].
    - split; [done|]. intros; lia.
    - intros k o o' Hk [Hl Hall] Hbody. unfold body in Hbody.
      inv_bind Hbody as idx Hidx. inv_bind Hbody as ref Href.
      inv_bind Hbody as v Hv. apply set_at_Ok in Hbody as [Hset ->].
      rewrite length_insert. split; [done|].
      intros i Hi. destruct (decide (Z.of_nat i = k)) as [<-|Hik];
        [|apply Hall; lia].
      apply at_Ok in Hidx as [Hir Hidx], Href as [_ Href], Hv as [Hvr _].
      rewrite Nat2Z.id in Hidx, Href.
      split; [lia|]. split.
      + intros e He. assert (e = idx) as -> by congruence.
        apply size_t_in_range; [|lia|lia].
        apply (proj1 (Forall_lookup _ _) Hint_m _ _ Hidx).
      + intros r Hr. assert (r = ref) as -> by congruence.
        apply size_t_in_range; [|lia|lia].
        apply (proj1 (Forall_lookup _ _) Hint_i _ _ Href). }
  assert (for_loop (length indices) 0 body out = UndefinedBehaviour
          ∨ ∃ out', for_loop (length indices) 0 body out = Ok out') as Hcases.
  { apply for_loop_defined. intros i o. unfold body.
    destruct (at_defined mapping i) as [->|[idx ->]]; [by left|].
    destruct (at_defined indices i) as [->|[ref ->]]; [by left|].
    cbn [mbind Outcome_bind].
    destruct (at_defined out (to_size_t ref)) as [->|[v ->]]; [by left|].
    cbn [mbind Outcome_bind]. unfold set_at.
    destruct ((0 <=? to_size_t idx) && (to_size_t idx <? Z.of_nat (length o)));
      [right; by eexists|by left]. }
  split; split.
  - intros Hub Hv. destruct (Hvalid Hv) as [out' Hrun]. congruence.
  - intros Hnv. destruct Hcases as [Hub|[out' Hrun]]; [done|].
    exfalso. apply Hnv. by apply (Hok out').
  - intros [out' Hrun]. by apply (Hok out').
  - apply Hvalid.
Qed.

(** X16.  [remapForRendering] never resizes the vector: on a vector that is
    not empty it goes wrong (an access outside a vector, undefined
    behaviour) exactly when the mapping has fewer entries than the indices,
    or one of the indices, or one of the mapping entries that go with them,
    is not valid for the vector; and it leaves an empty vector alone. *)
Theorem remapForRendering_bounds {T} (out : list T) (indices mapping : list Z) :
  Forall is_int indices →
  Forall is_int mapping →
  Z.of_nat (length out) < 2 ^ 63 →
  (out = [] → remapForRendering out indices mapping = Ok out)
  ∧ (out ≠ [] →
     (remapForRendering out indices mapping = UndefinedBehaviour
      ↔ ¬ remap_valid out indices mapping)
     ∧ ((∃ out', remapForRendering out indices mapping = Ok out')
        ↔ remap_valid out indices mapping)).
Proof.
  intros Hint_i Hint_m Hsize. by apply remap_bounds.
Qed.

Lemma remapForRendering_bounds_witness :
  remapForRendering [10; 20; 30] [0; 1; 2] [7; 8; 9] = UndefinedBehaviour.
Proof.
  destruct (remapForRendering_bounds [10; 20; 30] [0; 1; 2] [7; 8; 9]) as [_ Hne].
  - repeat constructor; unfold is_int; lia.
  - repeat constructor; unfold is_int; lia.
  - simpl. lia.
  - destruct (Hne ltac:(discriminate)) as [[_ Hub] _]. apply Hub.
    intros (_ & _ & Hmap). inversion Hmap as [|? ? H7 _]. simpl in H7. lia.
Defined.

(** ** Geometry assembly: a geometry of positions only *)

(** The [int]s that [parseBinaryArray] decodes are [int]s. *)
Lemma parseBinaryArray_ints `{Collaborators} m p (out : list Z) flag v :
  parseBinaryArray m p out = Ok (flag, v) → out = [] ∨ flag = true → Forall is_int v.
Proof.
  unfold parseBinaryArray. intros Hrun Hout.
  destruct (match type p with
            | "d"%byte => Some 8 | "f"%byte => Some 4 | "i"%byte => Some 4
            | _ => None end) as [elem_size|].
  - destruct (to_int (sizeof Z ÷ elem_size) =? 0); [discriminate|].
    case_bool_decide; [discriminate|].
    inv_bind Hrun as r Hr. injection Hrun as _ <-.
    unfold bytes_vector. apply Forall_fmap, Forall_forall. intros bs _.
    apply to_int_range.
  - injection Hrun as <- <-. destruct Hout as [->|?]; [constructor|discriminate].
Qed.

(** The rewriting of the triangles changes nothing when every triangle
    corner is already the vertex index of its loop position, however many
    turns the loop takes. *)
Lemma rewrite_triangles_same (to_old_indices vertex_indices triangles : list Z)
    (turns : nat) :
  (turns <= length triangles)%nat →
  length to_old_indices = length triangles →
  Z.of_nat (length triangles) < 2 ^ 64 →
  Forall (λ pos, 0 <= pos < 2 ^ 64) to_old_indices →
  (∀ (k : nat) t pos, triangles !! k = Some t → to_old_indices !! k = Some pos →
     vertex_indices !! Z.to_nat pos = Some t) →
  for_loop turns 0
    (λ i triangles,
       old ← at_ to_old_indices (to_size_t i);
       v ← at_ vertex_indices (to_size_t old);
       set_at triangles (to_size_t i) v)
    triangles = Ok triangles.
Proof.
  intros Hturns Hlen Hsize Hpos Hsame.
  destruct (for_loop_total (λ _ (t : list Z), t = triangles)
    turns 0
    (λ i triangles,
       old ← at_ to_old_indices (to_size_t i);
       v ← at_ vertex_indices (to_size_t old);
       set_at triangles (to_size_t i) v)
    triangles) as (r & Hr & ->); [done| |done].
  intros i t Hi ->.
  rewrite (to_size_t_small i) by lia.
  destruct (at_in_range to_old_indices i) as (pos & -> & Hp); [lia|].
  cbn [mbind Outcome_bind].
  destruct (lookup_lt_is_Some_2 triangles (Z.to_nat i)) as [c Hc]; [lia|].
  pose proof (Hsame _ _ _ Hc Hp) as Hv.
  pose proof (proj1 (Forall_lookup _ _) Hpos _ _ Hp) as Hrange. simpl in Hrange.
  rewrite to_size_t_small by lia.
  pose proof (lookup_lt_Some _ _ _ Hv) as Hlt.
  destruct (at_in_range vertex_indices pos) as (v & -> & Hv'); [lia|].
  cbn [mbind Outcome_bind].
  rewrite set_at_in_range by lia.
  exists triangles. split; [|done]. f_equal.
  apply list_insert_id. congruence.
Qed.

(** The signature of a loop position of a geometry that holds vertex
    indices only, the vertex being excluded. *)
Lemma VertexData_of_positions_only vs vi ts i v :
  VertexData_of (mkGeometryImpl vs [] [] [] [] [] vi [] [] [] [] ts)
    i EXCLUDE_VERTEX = Ok v →
  v = mkVertexData (-1) (-1) (-1) (-1) (-1).
Proof.
  unfold VertexData_of, signature_field. cbn [vertex_indices normal_indices
    tangent_indices color_indices uv_indices length].
  rewrite !bool_decide_eq_true_2 by done.
  change (Z.land EXCLUDE_VERTEX EXCLUDE_VERTEX =? 0) with false.
  rewrite orb_true_r. cbn. congruence.
Qed.

(** X17.  A geometry that holds positions and polygons only (no material
    layer and no attribute layer) is assembled into the decoded positions,
    unchanged, the decoded stream as vertex indices, and the corners that
    [triangulate] emits as triangles; every other array is empty.  This
    holds whether the indices of the stream are valid for the positions or
    not. *)
Theorem parseGeometryForRendering_positions `{Collaborators} (m : memory)
    (element : Element) (vertices_property polys_property : Property)
    (positions : list Vec3) (stream : list Z) :
  is_Some (first_property element) →
  findChild m element "Vertices" ≫= first_property = Some vertices_property →
  findChild m element "PolygonVertexIndex" ≫= first_property = Some polys_property →
  findChild m element "LayerElementMaterial" = None →
  findChild m element "LayerElementUV" = None →
  findChild m element "LayerElementTangents" = None →
  findChild m element "LayerElementColor" = None →
  findChild m element "LayerElementNormal" = None →
  parseDoubleVecData m vertices_property [] = Ok (true, positions) →
  parseBinaryArray m polys_property [] = Ok (true, stream) →
  Z.of_nat (length stream) < 2 ^ 31 →
  ∃ corners to_old,
    triangulate stream [] [] = Ok (decode_entry <$> stream, corners, to_old)
    ∧ parseGeometryForRendering m element
      = Ok (mkGeometryImpl positions [] [] [] [] [] (decode_entry <$> stream)
              [] [] [] [] corners).
Proof.
  intros Hprop Hv Hp Hmat Huv Htan Hcol Hnrm Hpos Hstream Hlen.
  pose proof (parseBinaryArray_ints _ _ _ _ _ Hstream ltac:(by left)) as Hint.
  pose proof (parseBinaryArray_nonempty _ _ _ _ Hstream) as Hne.
  destruct (triangulate_pairs stream [] [] Hint Hlen)
    as (corners & to_old & Hrun & Hpairs & Hsize).
  cbn [app] in Hrun.
  exists corners, to_old. split; [done|].
  unfold parseGeometryForRendering, assert.
  rewrite bool_decide_eq_true_2 by done. cbn [mbind Outcome_bind].
  unfold decodeGeometry. rewrite Hv, Hp.
  cbn [vertices vertex_indices triangles empty_geometry].
  rewrite Hpos. cbn [mbind Outcome_bind fst snd negb].
  cbn [vertices vertex_indices triangles empty_geometry set_vertices].
  rewrite Hstream. cbn [mbind Outcome_bind fst snd negb].
  cbn [vertices vertex_indices triangles empty_geometry set_vertices set_vertex_indices].
  rewrite Hrun. cbn [mbind Outcome_bind fst snd].
  unfold decodeMaterialLayer. rewrite Hmat. cbn [mbind Outcome_bind].
  unfold decodeAttributeLayers. rewrite Huv, Htan, Hcol, Hnrm.
  cbn [mbind Outcome_bind fst snd].
  change (set_triangles corners
            (set_vertex_indices (decode_entry <$> stream)
               (set_vertex_indices stream (set_vertices positions empty_geometry))))
    with (mkGeometryImpl positions [] [] [] [] [] (decode_entry <$> stream)
            [] [] [] [] corners).
  unfold expandForRendering. cbn [vertices].
  rewrite expand_without_conflict.
  2:{ cbn. by destruct stream. }
  2:{ intros f'. destruct f'; cbn; (by left) || (by right). }
  2:{ intros i j e e' v v' _ _ _ _ Hvj Hvi.
      apply VertexData_of_positions_only in Hvi, Hvj. congruence. }
  cbn [mbind Outcome_bind fst snd].
  change (set_vertices positions
            (mkGeometryImpl positions [] [] [] [] [] (decode_entry <$> stream)
               [] [] [] [] corners))
    with (mkGeometryImpl positions [] [] [] [] [] (decode_entry <$> stream)
            [] [] [] [] corners).
  cbn [normals length]. rewrite bool_decide_eq_true_2 by done.
  cbn [negb mbind Outcome_bind tangents length].
  rewrite bool_decide_eq_true_2 by done.
  cbn [negb mbind Outcome_bind colors length].
  rewrite bool_decide_eq_true_2 by done.
  cbn [negb mbind Outcome_bind uvs length].
  rewrite bool_decide_eq_true_2 by done.
  cbn [negb mbind Outcome_bind triangles vertex_indices].
  rewrite rewrite_triangles_same; [done| | | | |].
  - unfold int_turns. lia.
  - symmetry. by eapply Forall2_length.
  - lia.
  - apply Forall_lookup. intros k pos Hk.
    destruct (Forall2_lookup_r _ _ _ _ _ Hpairs Hk) as (idx & _ & Hc & _). lia.
  - intros k t pos Hc Hk.
    destruct (Forall2_lookup_lr _ _ _ _ _ _ Hpairs Hc Hk) as [_ Hidx]. done.
Qed.

(** ** Geometry assembly: what every triangle corner refers to *)

(** Two loop positions whose signatures agree, the vertex being excluded,
    hold the same index in every other index vector. *)
Lemma signature_field_lookup f l (i j : nat) x :
  f ≠ VERTEX_INDICES →
  signature_field l (Z.of_nat i) EXCLUDE_VERTEX (exclude_bit f) = Ok x →
  signature_field l (Z.of_nat j) EXCLUDE_VERTEX (exclude_bit f) = Ok x →
  l !! i = l !! j.
Proof.
  intros Hf. unfold signature_field.
  assert ((Z.land EXCLUDE_VERTEX (exclude_bit f) =? 0) = true) as ->
    by (by destruct f).
  cbn [negb]. rewrite orb_false_r.
  case_bool_decide as Hl.
  - intros _ _. apply length_zero_iff_nil in Hl. by rewrite Hl.
  - intros [_ Hi]%at_Ok [_ Hj]%at_Ok. rewrite Nat2Z.id in Hi, Hj. congruence.
Qed.

(** The expansion of the positions: every loop position keeps its position,
    and two loop positions that end on the same vertex index hold the same
    index in every other index vector. *)
Lemma vertices_block_values n g d2 g2 :
  n ≠ 0%nat →
  assembly_invariant n
    [VERTEX_INDICES; NORMAL_INDICES; TANGENT_INDICES; COLOR_INDICES; UV_INDICES] g →
  expand (vertices g) VERTEX_INDICES g EXCLUDE_VERTEX = Ok (d2, g2) →
  g2 = set_vertex_indices (vertex_indices g2) g
  ∧ (∀ (i : nat) e0, vertex_indices g !! i = Some e0 →
       ∃ e, vertex_indices g2 !! i = Some e
            ∧ d2 !! Z.to_nat e = vertices g !! Z.to_nat e0)
  ∧ (∀ f (i j : nat) e, f ≠ VERTEX_INDICES →
       vertex_indices g2 !! i = Some e → vertex_indices g2 !! j = Some e →
       get_indices f g !! i = get_indices f g !! j).
Proof.
  intros Hn0 (Hn & Hshape & Hvalid & Hvsize & Hpending & Hcovered) Hexp.
  assert (expand_ready (vertices g) VERTEX_INDICES g) as Hready.
  { split; [simpl; lia|]. split; [apply (Hvalid VERTEX_INDICES)|].
    split; [apply (Hpending VERTEX_INDICES); by left|].
    intros f'. simpl. destruct (Hshape f') as [->|Hl]; [by left|right; lia]. }
  destruct (expand_ready_values _ _ _ EXCLUDE_VERTEX Hready)
    as (s & Hs & (Hgeom & Hlen & _) & (Hcur & _ & Hbound) & Hvalues).
  rewrite Hs in Hexp. injection Hexp as <- <-.
  cbn [get_indices] in *.
  split; [done|]. split.
  - intros i e0 H0. pose proof (lookup_lt_Some _ _ _ H0) as Hlt.
    destruct (lookup_lt_is_Some_2 (vertex_indices (es_geom s)) i) as [e He]; [lia|].
    exists e. split; [done|]. by apply (Hvalues i).
  - intros f i j e Hf Hi Hj.
    pose proof (lookup_lt_Some _ _ _ Hi) as Hilt.
    pose proof (lookup_lt_Some _ _ _ Hj) as Hjlt.
    destruct (Hbound i e) as (v & Hv & Hsi); [lia|done|].
    destruct (Hbound j e) as (v' & Hv' & Hsj); [lia|done|].
    assert (v' = v) as -> by congruence.
    rewrite VertexData_of_fields in Hsi, Hsj.
    apply (signature_field_lookup f _ i j (field_of f v) Hf (Hsi f) (Hsj f)).
Qed.

(** The block of an attribute: the slot of the vertex index of a loop
    position holds, after the remap, the entry that the index of the
    position referred to on entry. *)
Lemma attribute_block_values {T} (data : list T) f g (n : nat) pending d2 g2 v :
  f ≠ VERTEX_INDICES →
  assembly_invariant n (f :: pending) g →
  length data = member_size f g →
  data ≠ [] →
  (∀ (i j : nat) e,
     vertex_indices g !! i = Some e → vertex_indices g !! j = Some e →
     get_indices f g !! i = get_indices f g !! j) →
  expand data f g (exclude_bit f) = Ok (d2, g2) →
  remapForRendering d2 (get_indices f g2) (vertex_indices g2) = Ok v →
  ∀ (i : nat) e0 ev,
    get_indices f g !! i = Some e0 → vertex_indices g !! i = Some ev →
    v !! Z.to_nat ev = data !! Z.to_nat e0.
Proof.
  intros Hf (Hn & Hshape & Hvalid & Hvsize & Hpending & Hcovered) Hsize Hne Hcons
    Hexp Hremap.
  pose proof (expand_returns_nonempty _ _ _ _ _ Hexp) as Hind.
  assert (length (get_indices f g) = n) as Hlen by (by destruct (Hshape f)).
  assert (expand_ready data f g) as Hready.
  { split; [destruct (get_indices f g); [done|simpl; lia]|].
    split; [rewrite Hsize; apply Hvalid|].
    split; [rewrite Hsize; apply Hpending; by left|].
    intros f'. destruct (Hshape f') as [->|Hl]; [by left|right; lia]. }
  destruct (expand_ready_values data f g (exclude_bit f) Hready)
    as (s & Hs & (Hgeom & Hlen2 & _ & _ & (ext & Hdata & _) & _)
        & (Hcur & Hgrow & _) & Hvalues).
  rewrite Hs in Hexp. injection Hexp as <- <-.
  assert (vertex_indices (es_geom s) = vertex_indices g) as Hvi.
  { rewrite Hgeom. change (vertex_indices ?x) with (get_indices VERTEX_INDICES x).
    by rewrite get_set_indices_ne. }
  rewrite Hvi in Hremap.
  assert (es_data s ≠ []) as Hd2 by (rewrite Hdata; by destruct data).
  destruct (remapForRendering_result _ _ _ _ Hremap) as [_ Hmap].
  assert (indices_below (length (es_data s)) (vertex_indices g)) as Hbelow.
  { apply Hmap; [done|congruence|].
    eapply Forall_impl; [|exact (Hvalid VERTEX_INDICES)].
    simpl in *. intros e He. lia. }
  pose proof (Hpending f ltac:(by left)) as Hroom.
  destruct (remap_loop (es_data s) (get_indices f (es_geom s)) (vertex_indices g))
    as (out' & Hrun & _ & _ & Hlast).
  { split; [lia|]. split; [done|]. by apply Forall_take. }
  { lia. }
  unfold remapForRendering in Hremap.
  rewrite bool_decide_eq_false_2 in Hremap by (by destruct (es_data s)).
  rewrite Hrun in Hremap. injection Hremap as <-.
  intros i e0 ev H0 Hev.
  pose proof (lookup_lt_Some _ _ _ H0) as Hlt.
  destruct (lookup_lt_is_Some_2 (get_indices f (es_geom s)) i) as [e He]; [lia|].
  rewrite (Hlast i ev e Hev He).
  - by apply (Hvalues i).
  - intros j ref' _ Hj Hr'.
    pose proof (lookup_lt_Some _ _ _ Hr') as Hjlt.
    destruct (lookup_lt_is_Some_2 (get_indices f g) j) as [e0' H0']; [lia|].
    rewrite (Hvalues j ref' e0' Hr' H0'), (Hvalues i e e0 He H0).
    pose proof (Hcons i j ev Hev Hj) as Heq. congruence.
Qed.

(** The block of an attribute that is skipped, and the block that runs. *)
Ltac attribute_values_skipped member Hinv Hrun :=
  let i := fresh "i" in
  let e0 := fresh "e0" in
  let ev := fresh "ev" in
  let H0 := fresh "H0" in
  let Hvalid := fresh "Hvalid" in
  let Hr := fresh "Hr" in
  injection Hrun as <-;
  split;
  [ by match goal with |- ?g = _ => destruct g end
  | intros i e0 ev H0 _; exfalso;
    destruct Hinv as (_ & _ & Hvalid & _);
    pose proof (proj1 (Forall_lookup _ _) (Hvalid member) _ _ H0) as Hr;
    simpl in Hr; lia ].

Ltac attribute_values_run member Hinv Hcons Hrun Hempty :=
  let r := fresh "r" in
  let Hexp := fresh "Hexp" in
  let d2 := fresh "d2" in
  let g2 := fresh "g2" in
  let v := fresh "v" in
  let Hremap := fresh "Hremap" in
  let s := fresh "s" in
  let Hs := fresh "Hs" in
  let Hg2 := fresh "Hg2" in
  let Hnil := fresh "Hnil" in
  inv_bind Hrun as r Hexp; destruct r as [d2 g2]; cbn [fst snd] in Hrun;
  inv_bind Hrun as v Hremap; injection Hrun as <-;
  destruct (expand_returns_invariant _ _ _ _ _ _ Hexp) as (s & _ & Hs & Hg2 & _);
  split;
  [ rewrite <- Hs, Hg2;
    by match goal with |- context [set_indices _ _ ?g] => destruct g end
  | refine ((λ Hf Hs Hn,
               attribute_block_values _ member _ _ _ d2 g2 v Hf Hinv Hs Hn Hcons
                 Hexp Hremap) _ _ _);
    [ done | reflexivity | intros Hnil; apply Hempty; by rewrite Hnil ] ].

Ltac attribute_values_tac member Hinv Hcons Hrun :=
  let Hempty := fresh "Hempty" in
  case_bool_decide as Hempty; cbn [negb] in Hrun;
  [ attribute_values_skipped member Hinv Hrun
  | attribute_values_run member Hinv Hcons Hrun Hempty ].

Lemma normals_values n pending g g' :
  assembly_invariant n (NORMAL_INDICES :: pending) g →
  (∀ (i j : nat) e,
     vertex_indices g !! i = Some e → vertex_indices g !! j = Some e →
     normal_indices g !! i = normal_indices g !! j) →
  (if negb (bool_decide (length (normals g) = 0%nat)) then
     r ← expand (normals g) NORMAL_INDICES g EXCLUDE_NORMAL;
     v ← remapForRendering (normals (set_normals r.1 r.2))
           (normal_indices (set_normals r.1 r.2))
           (vertex_indices (set_normals r.1 r.2));
     Ok (set_normals v (set_normals r.1 r.2))
   else Ok g) = Ok g' →
  g' = set_normals (normals g') (set_normal_indices (normal_indices g') g)
  ∧ ∀ (i : nat) e0 ev,
      normal_indices g !! i = Some e0 → vertex_indices g !! i = Some ev →
      normals g' !! Z.to_nat ev = normals g !! Z.to_nat e0.
Proof.
  intros Hinv Hcons Hrun. attribute_values_tac NORMAL_INDICES Hinv Hcons Hrun.
Qed.

Lemma tangents_values n pending g g' :
  assembly_invariant n (TANGENT_INDICES :: pending) g →
  (∀ (i j : nat) e,
     vertex_indices g !! i = Some e → vertex_indices g !! j = Some e →
     tangent_indices g !! i = tangent_indices g !! j) →
  (if negb (bool_decide (length (tangents g) = 0%nat)) then
     r ← expand (tangents g) TANGENT_INDICES g EXCLUDE_TANGENT;
     v ← remapForRendering (tangents (set_tangents r.1 r.2))
           (tangent_indices (set_tangents r.1 r.2))
           (vertex_indices (set_tangents r.1 r.2));
     Ok (set_tangents v (set_tangents r.1 r.2))
   else Ok g) = Ok g' →
  g' = set_tangents (tangents g') (set_tangent_indices (tangent_indices g') g)
  ∧ ∀ (i : nat) e0 ev,
      tangent_indices g !! i = Some e0 → vertex_indices g !! i = Some ev →
      tangents g' !! Z.to_nat ev = tangents g !! Z.to_nat e0.
Proof.
  intros Hinv Hcons Hrun. attribute_values_tac TANGENT_INDICES Hinv Hcons Hrun.
Qed.

Lemma colors_values n pending g g' :
  assembly_invariant n (COLOR_INDICES :: pending) g →
  (∀ (i j : nat) e,
     vertex_indices g !! i = Some e → vertex_indices g !! j = Some e →
     color_indices g !! i = color_indices g !! j) →
  (if negb (bool_decide (length (colors g) = 0%nat)) then
     r ← expand (colors g) COLOR_INDICES g EXCLUDE_COLOR;
     v ← remapForRendering (colors (set_colors r.1 r.2))
           (color_indices (set_colors r.1 r.2))
           (vertex_indices (set_colors r.1 r.2));
     Ok (set_colors v (set_colors r.1 r.2))
   else Ok g) = Ok g' →
  g' = set_colors (colors g') (set_color_indices (color_indices g') g)
  ∧ ∀ (i : nat) e0 ev,
      color_indices g !! i = Some e0 → vertex_indices g !! i = Some ev →
      colors g' !! Z.to_nat ev = colors g !! Z.to_nat e0.
Proof.
  intros Hinv Hcons Hrun. attribute_values_tac COLOR_INDICES Hinv Hcons Hrun.
Qed.

Lemma uvs_values n pending g g' :
  assembly_invariant n (UV_INDICES :: pending) g →
  (∀ (i j : nat) e,
     vertex_indices g !! i = Some e → vertex_indices g !! j = Some e →
     uv_indices g !! i = uv_indices g !! j) →
  (if negb (bool_decide (length (uvs g) = 0%nat)) then
     r ← expand (uvs g) UV_INDICES g EXCLUDE_UV;
     v ← remapForRendering (uvs (set_uvs r.1 r.2))
           (uv_indices (set_uvs r.1 r.2))
           (vertex_indices (set_uvs r.1 r.2));
     Ok (set_uvs v (set_uvs r.1 r.2))
   else Ok g) = Ok g' →
  g' = set_uvs (uvs g') (set_uv_indices (uv_indices g') g)
  ∧ ∀ (i : nat) e0 ev,
      uv_indices g !! i = Some e0 → vertex_indices g !! i = Some ev →
      uvs g' !! Z.to_nat ev = uvs g !! Z.to_nat e0.
Proof.
  intros Hinv Hcons Hrun. attribute_values_tac UV_INDICES Hinv Hcons Hrun.
Qed.

(** The rewriting of the triangles: every triangle corner that the loop
    reaches becomes the vertex index of the loop position it came from, and
    the corners that it does not reach are left as they were. *)
Lemma rewrite_triangles_exact (to_old_indices vi ts ts' : list Z) (turns : nat) :
  (turns <= length ts)%nat →
  length ts = length to_old_indices →
  Z.of_nat (length ts) < 2 ^ 64 →
  Forall (λ pos, 0 <= pos < 2 ^ 64) to_old_indices →
  for_loop turns 0
    (λ i triangles,
       old ← at_ to_old_indices (to_size_t i);
       v ← at_ vi (to_size_t old);
       set_at triangles (to_size_t i) v)
    ts = Ok ts' →
  (∀ (k : nat) pos, (k < turns)%nat → to_old_indices !! k = Some pos →
     ∃ t, ts' !! k = Some t ∧ vi !! Z.to_nat pos = Some t)
  ∧ (∀ k : nat, (turns <= k)%nat → ts' !! k = ts !! k).
Proof.
  intros Hturns Hlen Hsize Hpos Hrun.
  apply (for_loop_invariant
    (λ i (t : list Z), length t = length ts
       ∧ (∀ (k : nat) pos, Z.of_nat k < i → to_old_indices !! k = Some pos →
            ∃ c, t !! k = Some c ∧ vi !! Z.to_nat pos = Some c)
       ∧ (∀ k : nat, i <= Z.of_nat k → t !! k = ts !! k))) in Hrun.
  - destruct Hrun as (_ & Hall & Hrest). split.
    + intros k pos Hk. apply Hall. lia.
    + intros k Hk. apply Hrest. lia.
  - split; [done|]. split; [intros; lia|done].
  - clear Hrun. intros i t t' Hi (Hl & Hall & Hrest) Hbody.
    inv_bind Hbody as old Hold. inv_bind Hbody as v Hv.
    apply set_at_Ok in Hbody as [Hr ->]. rewrite length_insert. split; [done|].
    rewrite (to_size_t_small i) in * by lia.
    apply at_Ok in Hold as [_ Hold].
    pose proof (proj1 (Forall_lookup _ _) Hpos _ _ Hold) as Hrange. simpl in Hrange.
    rewrite to_size_t_small in Hv by lia. apply at_Ok in Hv as [_ Hv].
    split.
    + intros k pos Hk Hp.
      destruct (decide (k = Z.to_nat i)) as [->|Hne].
      * rewrite list_lookup_insert_eq by lia. exists v. split; [done|]. congruence.
      * rewrite list_lookup_insert_ne by done. apply Hall; [lia|done].
    + intros k Hk. rewrite list_lookup_insert_ne by lia. apply Hrest. lia.
Qed.

(** ** Attribute layers *)

(** X19.  What [parseVertexData] leaves alone.  Without a data element of
    the given name that holds a property it answers false and changes
    nothing.  Whenever it returns, the mapping is as it was when the layer
    holds no "MappingInformationType" property (it is not reset: the mapping
    of the layer parsed before stays), and the index vector is as it was
    when the layer holds no "ReferenceInformationType" property or one that
    is not "IndexToDirect". *)
Theorem parseVertexData_keeps `{Collaborators} `{DoubleVec T} (m : memory)
    (element : Element) (name index_name : string) (out : list T)
    (out_indices : list Z) (mapping : option VertexDataMapping) :
  (findChild m element name ≫= first_property = None →
   parseVertexData m element name index_name out out_indices mapping
   = Ok (false, (out, out_indices, mapping)))
  ∧ ∀ flag out' indices' mapping',
      parseVertexData m element name index_name out out_indices mapping
      = Ok (flag, (out', indices', mapping')) →
      (findChild m element "MappingInformationType" ≫= first_property = None →
       mapping' = mapping)
      ∧ (findChild m element "ReferenceInformationType" ≫= first_property = None →
         indices' = out_indices)
      ∧ (∀ p, findChild m element "ReferenceInformationType" ≫= first_property
              = Some p →
              DataView_eq m (value p) "IndexToDirect" = false →
              indices' = out_indices).
Proof.
  unfold parseVertexData. split.
  - by intros ->.
  - intros flag out' indices' mapping' Hrun.
    destruct (findChild m element name ≫= first_property) as [data_property|];
      [|injection Hrun as <- <- <- <-; done].
    destruct (findChild m element "MappingInformationType" ≫= first_property)
      as [mp|] eqn:Hmp.
    + (* a mapping property *)
      assert (∀ parsed : option (option VertexDataMapping),
        match parsed with
        | Some mapping0 =>
          r ← match findChild m element "ReferenceInformationType" ≫= first_property with
              | Some p =>
                if DataView_eq m (value p) "IndexToDirect" then
                  match findChild m element index_name ≫= first_property with
                  | Some indices_property =>
                    parseBinaryArray m indices_property out_indices
                  | None => Ok (true, out_indices)
                  end
                else if negb (DataView_eq m (value p) "Direct")
                     then Ok (false, out_indices)
                     else Ok (true, out_indices)
              | None => Ok (true, out_indices)
              end;
          if negb r.1 then Ok (false, (out, r.2, mapping0)) else
          d ← parseDoubleVecData m data_property out;
          Ok (d.1, (d.2, r.2, mapping0))
        | None => Ok (false, (out, out_indices, mapping))
        end = Ok (flag, (out', indices', mapping')) →
        (findChild m element "ReferenceInformationType" ≫= first_property = None →
         indices' = out_indices)
        ∧ (∀ p, findChild m element "ReferenceInformationType" ≫= first_property
                = Some p →
                DataView_eq m (value p) "IndexToDirect" = false →
                indices' = out_indices)) as Hparsed.
      { intros [mapping0|] Hcase; [|injection Hcase as <- <- <- <-; done].
        destruct (findChild m element "ReferenceInformationType" ≫= first_property)
          as [rp|].
        - split; [done|]. intros p [= <-] Hdirect. rewrite Hdirect in Hcase.
          destruct (negb (DataView_eq m (value rp) "Direct"));
            cbn [mbind Outcome_bind fst snd negb] in Hcase.
          + by injection Hcase as <- <- <- <-.
          + inv_bind Hcase as d Hd. by injection Hcase as <- <- <- <-.
        - split; [|done]. intros _.
          cbn [mbind Outcome_bind fst snd negb] in Hcase.
          inv_bind Hcase as d Hd. by injection Hcase as <- <- <- <-. }
      split; [done|]. by eapply Hparsed.
    + (* no mapping property *)
      inv_bind Hrun as r Hr.
      assert (mapping' = mapping ∧ indices' = r.2) as [-> ->].
      { destruct (negb r.1); [by injection Hrun as <- <- <- <-|].
        inv_bind Hrun as d Hd. by injection Hrun as <- <- <- <-. }
      split; [done|].
      destruct (findChild m element "ReferenceInformationType" ≫= first_property)
        as [rp|].
      * split; [done|]. intros p [= <-] Hdirect. rewrite Hdirect in Hr.
        destruct (negb (DataView_eq m (value rp) "Direct")); by injection Hr as <-.
      * split; [|done]. intros _. by injection Hr as <-.
Qed.

(** The mapping argument comes back when the layer names no mapping. *)
Lemma parseVertexData_mapping `{Collaborators} `{DoubleVec T} m element name
    index_name (out : list T) out_indices mapping flag r :
  findChild m element "MappingInformationType" ≫= first_property = None →
  parseVertexData m element name index_name out out_indices mapping = Ok (flag, r) →
  r.2 = mapping.
Proof.
  intros Hmp. unfold parseVertexData. rewrite Hmp. intros Hrun.
  destruct (findChild m element name ≫= first_property) as [data_property|];
    [|by injection Hrun as <- <-].
  inv_bind Hrun as ri Hri.
  destruct (negb ri.1); [by injection Hrun as <- <-|].
  inv_bind Hrun as d Hd. by injection Hrun as <- <-.
Qed.

(** X20.  The local [mapping] of [parseGeometryForRendering] is not
    initialised, and [parseVertexData] stores in it only when the layer
    holds a "MappingInformationType" property: when the first layer that is
    decoded holds none (the UV layer; or the normal layer of a geometry with
    no UV, tangent and colour layer) and is decoded with success,
    [generateIndices] is handed an uninitialised mapping (undefined
    behaviour). *)
Theorem decodeAttributeLayers_mapping_unset `{Collaborators} (m : memory)
    (element layer : Element) (geom : GeometryImpl) :
  findChild m layer "MappingInformationType" ≫= first_property = None →
  (findChild m element "LayerElementUV" = Some layer →
   (∃ r, parseVertexData m layer "UV" "UVIndex" (uvs geom) (uv_indices geom) None
         = Ok (true, r)) →
   decodeAttributeLayers m element geom = UndefinedBehaviour)
  ∧ (findChild m element "LayerElementUV" = None →
     findChild m element "LayerElementTangents" = None →
     findChild m element "LayerElementColor" = None →
     findChild m element "LayerElementNormal" = Some layer →
     (∃ r, parseVertexData m layer "Normals" "NormalsIndex" (normals geom)
             (normal_indices geom) None = Ok (true, r)) →
     decodeAttributeLayers m element geom = UndefinedBehaviour).
Proof.
  intros Hmp. split.
  - intros Huv [r Hr]. unfold decodeAttributeLayers. rewrite Huv, Hr.
    cbn [mbind Outcome_bind fst snd negb].
    by rewrite (parseVertexData_mapping _ _ _ _ _ _ _ _ _ Hmp Hr).
  - intros Huv Htan Hcol Hnrm [r Hr]. unfold decodeAttributeLayers.
    rewrite Huv, Htan, Hcol, Hnrm. cbn [mbind Outcome_bind fst snd].
    rewrite Hr. cbn [mbind Outcome_bind fst snd negb].
    by rewrite (parseVertexData_mapping _ _ _ _ _ _ _ _ _ Hmp Hr).
Qed.

(** ** Faults of the assembly *)

(** X21.  [parseDoubleVecData] asserts that an array that is not of
    [double]s is of [float]s: a geometry whose "Vertices" property is of
    another type (an [int] array, a scalar) stops
    [parseGeometryForRendering] on a failed assertion, not on the error
    "Failed to parse vertices". *)
Theorem parseGeometryForRendering_vertices_type `{Collaborators} (m : memory)
    (element : Element) (vertices_property polys_property : Property) :
  is_Some (first_property element) →
  findChild m element "Vertices" ≫= first_property = Some vertices_property →
  findChild m element "PolygonVertexIndex" ≫= first_property = Some polys_property →
  type vertices_property ≠ "d"%byte →
  type vertices_property ≠ "f"%byte →
  parseGeometryForRendering m element = AssertFailed.
Proof.
  intros Hprop Hv Hp Hd Hf.
  unfold parseGeometryForRendering, assert.
  rewrite bool_decide_eq_true_2 by done. cbn [mbind Outcome_bind].
  unfold decodeGeometry. rewrite Hv, Hp. unfold parseDoubleVecData, assert.
  assert (Byte.eqb (type vertices_property) "d" = false) as ->.
  { destruct (Byte.eqb (type vertices_property) "d") eqn:Heq; [|done].
    apply Byte.byte_dec_bl in Heq. done. }
  assert (Byte.eqb (type vertices_property) "f" = false) as ->.
  { destruct (Byte.eqb (type vertices_property) "f") eqn:Heq; [|done].
    apply Byte.byte_dec_bl in Heq. done. }
  reflexivity.
Qed.

(** X22.  The material layer (lines 150 to 185).  Without a
    "LayerElementMaterial" child the geometry is left as it is; a layer that
    lacks its "MappingInformationType" or its "ReferenceInformationType"
    child is refused with the error "Invalid LayerElementMaterial"; but the
    first property of these children is read with no check: a mapping child
    with no property, or a "ByPolygon" mapping with a reference child with
    no property, is a null dereference.  A mapping that is not "ByPolygon"
    with "IndexToDirect" leaves the geometry as it is when it is "AllSame"
    and is refused with "Mapping not supported" otherwise. *)
Theorem decodeMaterialLayer_outcomes `{Collaborators} (m : memory)
    (element : Element) (geom : GeometryImpl) :
  (findChild m element "LayerElementMaterial" = None →
   decodeMaterialLayer m element geom = Ok geom)
  ∧ ∀ layer, findChild m element "LayerElementMaterial" = Some layer →
      (findChild m layer "MappingInformationType" = None
       ∨ findChild m layer "ReferenceInformationType" = None →
       decodeMaterialLayer m element geom = Error "Invalid LayerElementMaterial")
      ∧ ∀ mapping_element reference_element,
          findChild m layer "MappingInformationType" = Some mapping_element →
          findChild m layer "ReferenceInformationType" = Some reference_element →
          (first_property mapping_element = None →
           decodeMaterialLayer m element geom = UndefinedBehaviour)
          ∧ ∀ mapping_property,
              first_property mapping_element = Some mapping_property →
              (DataView_eq m (value mapping_property) "ByPolygon" = true →
               first_property reference_element = None →
               decodeMaterialLayer m element geom = UndefinedBehaviour)
              ∧ (DataView_eq m (value mapping_property) "ByPolygon" = false →
                 decodeMaterialLayer m element geom
                 = if DataView_eq m (value mapping_property) "AllSame"
                   then Ok geom else Error "Mapping not supported")
              ∧ (∀ reference_property,
                   first_property reference_element = Some reference_property →
                   DataView_eq m (value reference_property) "IndexToDirect" = false →
                   decodeMaterialLayer m element geom
                   = if DataView_eq m (value mapping_property) "AllSame"
                     then Ok geom else Error "Mapping not supported").
Proof.
  unfold decodeMaterialLayer. split; [by intros ->|].
  intros layer ->. split.
  - intros [->| ->]; [done|].
    by destruct (findChild m layer "MappingInformationType").
  - intros mapping_element reference_element -> ->. split; [by intros ->|].
    intros mapping_property ->. cbn [deref mbind Outcome_bind].
    split; [|split].
    + intros -> ->. reflexivity.
    + intros ->. cbn [mbind Outcome_bind].
      by destruct (DataView_eq m (value mapping_property) "AllSame").
    + intros reference_property -> Hdirect.
      destruct (DataView_eq m (value mapping_property) "ByPolygon");
        cbn [deref mbind Outcome_bind]; rewrite ?Hdirect;
        by destruct (DataView_eq m (value mapping_property) "AllSame").
Qed.

(** ** The assembly on the sample files *)

Lemma parseGeometryForRendering_positions_witness :
  ∃ corners to_old,
    triangulate [0; 1; -3] [] [] = Ok (decode_entry <$> [0; 1; -3], corners, to_old)
    ∧ @parseGeometryForRendering sample_collaborators plain_triangle_memory
        plain_triangle_geometry
      = Ok (mkGeometryImpl
              [mkVec3 (mkDouble 0) (mkDouble 0) (mkDouble 0);
               mkVec3 (mkDouble 1) (mkDouble 0) (mkDouble 0);
               mkVec3 (mkDouble 0) (mkDouble 1) (mkDouble 0)]
              [] [] [] [] [] (decode_entry <$> [0; 1; -3]) [] [] [] [] corners).
Proof.
  apply (@parseGeometryForRendering_positions sample_collaborators
           plain_triangle_memory plain_triangle_geometry
           (mkProperty "d" (chunk_view plain_triangle_chunks 2) None)
           (mkProperty "i" (chunk_view plain_triangle_chunks 4) None)).
  - by eexists.
  - vm_compute. reflexivity.
  - vm_compute. reflexivity.
  - vm_compute. reflexivity.
  - vm_compute. reflexivity.
  - vm_compute. reflexivity.
  - vm_compute. reflexivity.
  - vm_compute. reflexivity.
  - vm_compute. reflexivity.
  - vm_compute. reflexivity.
  - simpl. lia.
Defined.

Lemma decodeAttributeLayers_mapping_unset_witness :
  @decodeAttributeLayers sample_collaborators unmapped_normals_memory
    unmapped_normals_geometry empty_geometry
  = UndefinedBehaviour.
Proof.
  apply (@decodeAttributeLayers_mapping_unset sample_collaborators
           unmapped_normals_memory unmapped_normals_geometry unmapped_normals_layer
           empty_geometry).
  - vm_compute. reflexivity.
  - vm_compute. reflexivity.
  - vm_compute. reflexivity.
  - vm_compute. reflexivity.
  - vm_compute. reflexivity.
  - eexists. vm_compute. reflexivity.
Defined.

Lemma parseGeometryForRendering_vertices_type_witness :
  @parseGeometryForRendering sample_collaborators int_positions_memory
    int_positions_geometry
  = AssertFailed.
Proof.
  apply (@parseGeometryForRendering_vertices_type sample_collaborators
           int_positions_memory int_positions_geometry
           (mkProperty "i" (chunk_view int_positions_chunks 2) None)
           (mkProperty "i" (chunk_view int_positions_chunks 4) None)).
  - by eexists.
  - vm_compute. reflexivity.
  - vm_compute. reflexivity.
  - discriminate.
  - discriminate.
Defined.

(** ** Geometry assembly: when it returns *)

(** One turn of the loop of [expand] on valid indices: the indices that
    change refer to the new entries, each of which is referred to. *)
Lemma expand_body_covers {T} (data : list T) f geom mask i s s' :
  expand_ready data f geom →
  1 <= i < Z.of_nat (length (get_indices f geom)) →
  expand_invariant data f geom mask i s →
  expand_valid data f geom mask i s →
  expand_covers data f geom s →
  expand_body f mask i s = Ok s' →
  expand_covers data f geom s'.
Proof.
  intros (Hn & Hrange & Hsize & Hall) Hi
    (Hgeom & Hlen & Hrest & Hzero & (ext & Hdata & Hext) & Hmap & Hconf)
    (Hcur & Hgrow & Hbound) (Hnew & Hcover) Hbody.
  unfold expand_body in Hbody.
  set (cur := get_indices f (es_geom s)) in *.
  inv_bind Hbody as e He. apply at_Ok in He as [Hir He].
  inv_bind Hbody as vtx Hvtx.
  assert (cur !! Z.to_nat i = get_indices f geom !! Z.to_nat i) as Hcur_i
    by (apply Hrest; lia).
  assert (0 <= e < Z.of_nat (length data)) as He_range.
  { apply (proj1 (Forall_lookup _ _) Hrange (Z.to_nat i)). by rewrite <- Hcur_i. }
  assert (length data <= length (es_data s))%nat as Hgrown
    by (rewrite Hdata, length_app; lia).
  destruct (es_map s !! to_size_t e) as [found|] eqn:Hfound.
  - destruct (VertexData_ne found vtx) eqn:Hne.
    + inv_bind Hbody as d Hd.
      inv_bind Hbody as new_indices Hset. apply set_at_Ok in Hset as [_ ->].
      injection Hbody as <-. fold cur.
      unfold expand_covers. cbn [es_geom es_data]. rewrite get_set_indices.
      rewrite (to_int_small (Z.of_nat (length (es_data s)))) by lia.
      split.
      * intros j e1 e0 Hl H0 Hdiff.
        destruct (decide (j = Z.to_nat i)) as [->|Hnj].
        -- rewrite list_lookup_insert_eq in Hl by lia. injection Hl as <-. lia.
        -- rewrite list_lookup_insert_ne in Hl by done. by apply (Hnew j e1 e0).
      * intros e1 He1. rewrite length_app in He1. simpl in He1.
        destruct (decide (e1 = Z.of_nat (length (es_data s)))) as [->|Hne1].
        -- apply list_elem_of_lookup. exists (Z.to_nat i).
           by rewrite list_lookup_insert_eq by lia.
        -- destruct (proj1 (list_elem_of_lookup _ _) (Hcover e1 ltac:(lia))) as [j Hj].
           apply list_elem_of_lookup. exists j.
           rewrite list_lookup_insert_ne; [done|].
           intros <-. rewrite He in Hj. injection Hj as ->. lia.
    + by injection Hbody as <-.
  - injection Hbody as <-. unfold expand_covers. cbn [es_geom es_data]. by split.
Qed.

(** [expand] on valid indices returns with the four invariants. *)
Lemma expand_ready_covers {T} (data : list T) f geom mask :
  expand_ready data f geom →
  ∃ s, expand data f geom mask = Ok (es_data s, es_geom s)
    ∧ expand_invariant data f geom mask
        (Z.of_nat (length (get_indices f geom))) s
    ∧ expand_valid data f geom mask (Z.of_nat (length (get_indices f geom))) s
    ∧ expand_covers data f geom s.
Proof.
  intros Hready. pose proof Hready as (Hn & Hrange & Hsize & Hall).
  destruct (VertexData_of_defined geom 0 mask _ Hall) as [vtx Hvtx]; [lia|].
  destruct (at_in_range (get_indices f geom) 0) as (e & He & Hl); [lia|].
  change (Z.to_nat 0) with 0%nat in Hl.
  pose proof (proj1 (Forall_lookup _ _) Hrange _ _ Hl) as He_range. simpl in He_range.
  destruct (for_loop_total
    (λ i s, expand_invariant data f geom mask i s ∧ expand_valid data f geom mask i s
            ∧ expand_covers data f geom s)
    (length (get_indices f geom) - 1) 1 (expand_body f mask)
    (mkExpandState (<[to_size_t e := vtx]> ∅) data geom))
    as (s & Hs & Hinv & Hvalid & Hcovers).
  - split; [by apply expand_invariant_start|]. split.
    + unfold expand_valid. cbn [es_geom es_data es_map].
      split; [done|]. split; [lia|].
      intros j e1 Hj Hl1. assert (j = 0%nat) as -> by lia.
      rewrite Hl in Hl1. injection Hl1 as <-. exists vtx.
      rewrite to_size_t_small by lia. by rewrite lookup_insert_eq.
    + split; cbn [es_geom es_data].
      * intros j e1 e0 Hl1 Hl0. congruence.
      * intros e1 He1. lia.
  - intros i s Hi (Hinv & Hvalid & Hcovers).
    destruct (expand_body_valid data f geom mask i s) as (s' & Hs' & Hvalid');
      [done|lia|done|done|].
    exists s'. split; [done|]. split; [|split; [done|]].
    + eapply expand_body_invariant; [lia|done|done].
    + eapply (expand_body_covers data f geom mask i s s'); (done || lia).
  - exists s. unfold expand. rewrite Hvtx, He. cbn [mbind Outcome_bind].
    rewrite Hs. cbn [mbind Outcome_bind]. split; [done|].
    replace (Z.of_nat (length (get_indices f geom)))
      with (1 + Z.of_nat (length (get_indices f geom) - 1)) by lia.
    done.
Qed.

(** The first position that holds an entry of a list. *)
Lemma first_occurrence (l : list Z) e :
  e ∈ l → ∃ j : nat, l !! j = Some e ∧ ∀ j' : nat, (j' < j)%nat → l !! j' ≠ Some e.
Proof.
  induction l as [|x l IH]; [by intros ?%elem_of_nil|].
  intros Hin. destruct (decide (x = e)) as [->|Hne].
  - exists 0%nat. split; [done|]. intros; lia.
  - apply elem_of_cons in Hin as [->|Hin]; [done|].
    destruct (IH Hin) as (j & Hj & Hfirst). exists (S j). split; [done|].
    intros [|j'] Hlt; simpl; [congruence|]. apply Hfirst. lia.
Qed.

(** When every entry of the data is referred to on entry, every entry of
    the grown data is referred to on return. *)
Lemma expand_all_referenced {T} (data : list T) f geom mask s :
  expand_ready data f geom →
  expand_invariant data f geom mask (Z.of_nat (length (get_indices f geom))) s →
  expand_valid data f geom mask (Z.of_nat (length (get_indices f geom))) s →
  expand_covers data f geom s →
  all_referenced (length data) (get_indices f geom) →
  all_referenced (length (es_data s)) (get_indices f (es_geom s)).
Proof.
  intros (Hn & Hrange & Hsize & Hall)
    (Hgeom & Hlen & _ & _ & (ext & Hdata & _) & _ & Hconf)
    (Hcur & Hgrow & _) (Hnew & Hcover) Hused e He.
  destruct (decide (e < Z.of_nat (length data))) as [Hold|Hfresh];
    [|apply Hcover; lia].
  destruct (first_occurrence _ e (Hused e ltac:(lia))) as (j & Hj & Hfirst).
  pose proof (lookup_lt_Some _ _ _ Hj) as Hjlt.
  destruct (lookup_lt_is_Some_2 (get_indices f (es_geom s)) j) as [e1 He1]; [lia|].
  apply list_elem_of_lookup. exists j.
  destruct (decide (e1 = e)) as [->|Hdiff]; [done|]. exfalso.
  destruct (Hconf j e1 e ltac:(lia) He1 Hj Hdiff)
    as (j' & e' & _ & _ & Hj' & He' & Hkey & _).
  pose proof (proj1 (Forall_lookup _ _) Hcur _ _ He') as He'_range.
  simpl in He'_range. cbn zeta in Hsize.
  rewrite !to_size_t_small in Hkey by lia. subst e'.
  destruct (lookup_lt_is_Some_2 (get_indices f geom) j') as [e0 He0]; [lia|].
  destruct (decide (e = e0)) as [<-|Hchanged].
  - by apply (Hfirst j').
  - pose proof (Hnew j' e e0 He' He0 Hchanged). lia.
Qed.

(** Distinct entries below a bound are no more than the bound. *)
Lemma distinct_below (l : list Z) (n : nat) :
  NoDup l → Forall (λ e, 0 <= e < Z.of_nat n) l → (length l <= n)%nat.
Proof.
  intros Hnd Hall.
  assert (l ⊆+ seqZ 0 (Z.of_nat n)) as Hsub.
  { apply NoDup_submseteq; [done|]. intros x Hx.
    apply list_elem_of_lookup in Hx as [k Hk].
    pose proof (proj1 (Forall_lookup _ _) Hall _ _ Hk) as Hr. simpl in Hr.
    apply elem_of_seqZ. lia. }
  apply submseteq_length in Hsub. rewrite length_seqZ in Hsub. lia.
Qed.

(** Loop positions that hold different vertex indices hold different
    attribute indices: the attribute indices take at least as many values
    as the vertex indices. *)
Lemma indices_cover (vi ai : list Z) (nV nA : nat) :
  all_referenced nV vi →
  Forall (λ e, 0 <= e < Z.of_nat nA) ai →
  (∀ v, v ∈ vi → ∃ (i : nat) a, vi !! i = Some v ∧ ai !! i = Some a) →
  (∀ (i j : nat) a, ai !! i = Some a → ai !! j = Some a → vi !! i = vi !! j) →
  (nV <= nA)%nat.
Proof.
  intros Hused Hbelow Hpaired Hcons.
  set (R := λ v a, ∃ i : nat, vi !! i = Some v ∧ ai !! i = Some a).
  assert (∀ vs, (∀ v, v ∈ vs → v ∈ vi) → ∃ picked, Forall2 R vs picked) as Hpick.
  { induction vs as [|v vs IH]; intros Hvs; [exists []; constructor|].
    destruct IH as [picked Hp]; [intros v' Hv'; apply Hvs; by right|].
    destruct (Hpaired v (Hvs v ltac:(by left))) as (i & a & Hv & Ha).
    exists (a :: picked). constructor; [by exists i|done]. }
  assert (∀ vs picked, Forall2 R vs picked → NoDup vs → NoDup picked) as Hnodup.
  { induction 1 as [|v a vs picked (i & Hv & Ha) Hrest IH]; [constructor|].
    intros [Hnotin Hnd]%list.NoDup_cons. apply list.NoDup_cons. split; [|by apply IH].
    intros Hin. apply Hnotin.
    apply list_elem_of_lookup in Hin as [k Hk].
    destruct (Forall2_lookup_r _ _ _ _ _ Hrest Hk) as (v' & Hv' & i' & Hvi' & Hai').
    pose proof (Hcons i i' a Ha Hai') as Heq.
    assert (v' = v) as -> by congruence.
    apply list_elem_of_lookup. by exists k. }
  destruct (Hpick (seqZ 0 (Z.of_nat nV))) as [picked Hp].
  { intros v Hv%elem_of_seqZ. apply Hused. lia. }
  pose proof (Hnodup _ _ Hp (NoDup_seqZ _ _)) as Hnd.
  apply Forall2_length in Hp as Hlen. rewrite length_seqZ in Hlen.
  assert (length picked <= nA)%nat; [|lia].
  apply distinct_below; [done|].
  apply Forall_lookup. intros k a Hk.
  destruct (Forall2_lookup_r _ _ _ _ _ Hp Hk) as (v & _ & i & _ & Ha).
  apply (proj1 (Forall_lookup _ _) Hbelow _ _ Ha).
Qed.

(** Two loop positions whose signatures agree, an attribute being excluded,
    hold the same vertex index. *)
Lemma signature_vertex_lookup f l (i j : nat) x :
  f ≠ VERTEX_INDICES →
  l ≠ [] →
  signature_field l (Z.of_nat i) (exclude_bit f) EXCLUDE_VERTEX = Ok x →
  signature_field l (Z.of_nat j) (exclude_bit f) EXCLUDE_VERTEX = Ok x →
  l !! i = l !! j.
Proof.
  intros Hf Hl. unfold signature_field.
  assert ((Z.land (exclude_bit f) EXCLUDE_VERTEX =? 0) = true) as ->
    by (by destruct f).
  cbn [negb]. rewrite orb_false_r.
  rewrite bool_decide_eq_false_2 by (by destruct l).
  intros [_ Hi]%at_Ok [_ Hj]%at_Ok. rewrite Nat2Z.id in Hi, Hj. congruence.
Qed.

(** The block of an attribute returns when every position is referred to
    by a vertex index: the expansion leaves at least as many entries as
    there are positions, so that the remap stays inside the vector. *)
Lemma attribute_block_returns {T} (data : list T) f g (n : nat) pending :
  f ≠ VERTEX_INDICES →
  assembly_invariant n (f :: pending) g →
  length data = member_size f g →
  data ≠ [] →
  get_indices f g ≠ [] →
  all_referenced (length (vertices g)) (vertex_indices g) →
  ∃ d2 g2 v,
    expand data f g (exclude_bit f) = Ok (d2, g2)
    ∧ g2 = set_indices f (get_indices f g2) g
    ∧ remapForRendering d2 (get_indices f g2) (vertex_indices g2) = Ok v.
Proof.
  intros Hf (Hn & Hshape & Hvalid & Hvsize & Hpending & Hcovered) Hsize Hne Hind Hused.
  assert (length (get_indices f g) = n) as Hlen by (by destruct (Hshape f)).
  assert (expand_ready data f g) as Hready.
  { split; [destruct (get_indices f g); [done|simpl; lia]|].
    split; [rewrite Hsize; apply Hvalid|].
    split; [rewrite Hsize; apply Hpending; by left|].
    intros f'. destruct (Hshape f') as [->|Hl]; [by left|right; lia]. }
  destruct (expand_ready_covers data f g (exclude_bit f) Hready)
    as (s & Hs & (Hgeom & Hlen2 & _ & _ & (ext & Hdata & _) & _)
        & (Hcur & Hgrow & Hbound) & _).
  exists (es_data s), (es_geom s).
  assert (vertex_indices (es_geom s) = vertex_indices g) as Hvi.
  { rewrite Hgeom. change (vertex_indices ?x) with (get_indices VERTEX_INDICES x).
    by rewrite get_set_indices_ne. }
  assert (vertex_indices g ≠ []) as Hvne.
  { intros Hnil. rewrite Hnil in Hn. simpl in Hn.
    destruct (get_indices f g); [done|simpl in Hlen; lia]. }
  assert (length (vertices g) <= length (es_data s))%nat as Hroom.
  { apply (indices_cover (vertex_indices g) (get_indices f (es_geom s))).
    - exact Hused.
    - exact Hcur.
    - intros e [i Hi]%list_elem_of_lookup.
      pose proof (lookup_lt_Some _ _ _ Hi) as Hlt.
      destruct (lookup_lt_is_Some_2 (get_indices f (es_geom s)) i) as [a Ha]; [lia|].
      by exists i, a.
    - intros i j a Hi Hj.
      pose proof (lookup_lt_Some _ _ _ Hi) as Hilt.
      pose proof (lookup_lt_Some _ _ _ Hj) as Hjlt.
      destruct (Hbound i a) as (v & Hv & Hsi); [lia|done|].
      destruct (Hbound j a) as (v' & Hv' & Hsj); [lia|done|].
      assert (v' = v) as -> by congruence.
      rewrite VertexData_of_fields in Hsi, Hsj.
      apply (signature_vertex_lookup f _ i j (field_of VERTEX_INDICES v) Hf Hvne
               (Hsi VERTEX_INDICES) (Hsj VERTEX_INDICES)). }
  pose proof (Hpending f ltac:(by left)) as Hint.
  destruct (remap_loop (es_data s) (get_indices f (es_geom s)) (vertex_indices g))
    as (out' & Hrun & _).
  { split; [lia|]. split; [done|]. apply Forall_take.
    eapply Forall_impl; [|exact (Hvalid VERTEX_INDICES)].
    simpl. intros e He. lia. }
  { lia. }
  exists out'. split; [done|]. split; [done|].
  rewrite Hvi. unfold remapForRendering.
  rewrite bool_decide_eq_false_2 by (rewrite Hdata; by destruct data).
  exact Hrun.
Qed.

(** The block of an attribute in the words of the assembly, skipped or
    run. *)
Ltac attribute_returns_tac member Hinv Hused Hidx :=
  let Hempty := fresh "Hempty" in
  let d2 := fresh "d2" in
  let g2 := fresh "g2" in
  let v := fresh "v" in
  let Hexp := fresh "Hexp" in
  let Hg2 := fresh "Hg2" in
  let Hremap := fresh "Hremap" in
  let Hnil := fresh "Hnil" in
  case_bool_decide as Hempty; cbn [negb];
  [ eexists; split; [reflexivity|by match goal with |- ?g = _ => destruct g end]
  | match goal with
    | |- context [expand ?data member _ _] =>
      destruct (λ Hf Hs Hn Hi,
                  attribute_block_returns data member _ _ _ Hf Hinv Hs Hn Hi Hused)
        as (d2 & g2 & v & Hexp & Hg2 & Hremap)
    end;
      [ done | reflexivity | intros Hnil; apply Hempty; by rewrite Hnil
      | apply Hidx; intros Hnil; apply Hempty; by rewrite Hnil | ];
    unfold exclude_bit in Hexp; rewrite Hexp; cbn [mbind Outcome_bind fst snd];
    match goal with
    | |- context [remapForRendering ?a ?b ?c] =>
      change (remapForRendering a b c)
        with (remapForRendering d2 (get_indices member g2) (vertex_indices g2))
    end;
    rewrite Hremap; cbn [mbind Outcome_bind];
    eexists; split; [reflexivity|];
    rewrite Hg2; by match goal with |- context [set_indices _ _ ?g] => destruct g end ].

Lemma normals_returns n pending g :
  assembly_invariant n (NORMAL_INDICES :: pending) g →
  all_referenced (length (vertices g)) (vertex_indices g) →
  (normals g ≠ [] → normal_indices g ≠ []) →
  ∃ g',
    (if negb (bool_decide (length (normals g) = 0%nat)) then
       r ← expand (normals g) NORMAL_INDICES g EXCLUDE_NORMAL;
       v ← remapForRendering (normals (set_normals r.1 r.2))
             (normal_indices (set_normals r.1 r.2))
             (vertex_indices (set_normals r.1 r.2));
       Ok (set_normals v (set_normals r.1 r.2))
     else Ok g) = Ok g'
    ∧ g' = set_normals (normals g') (set_normal_indices (normal_indices g') g).
Proof.
  intros Hinv Hused Hidx. attribute_returns_tac NORMAL_INDICES Hinv Hused Hidx.
Qed.

Lemma tangents_returns n pending g :
  assembly_invariant n (TANGENT_INDICES :: pending) g →
  all_referenced (length (vertices g)) (vertex_indices g) →
  (tangents g ≠ [] → tangent_indices g ≠ []) →
  ∃ g',
    (if negb (bool_decide (length (tangents g) = 0%nat)) then
       r ← expand (tangents g) TANGENT_INDICES g EXCLUDE_TANGENT;
       v ← remapForRendering (tangents (set_tangents r.1 r.2))
             (tangent_indices (set_tangents r.1 r.2))
             (vertex_indices (set_tangents r.1 r.2));
       Ok (set_tangents v (set_tangents r.1 r.2))
     else Ok g) = Ok g'
    ∧ g' = set_tangents (tangents g') (set_tangent_indices (tangent_indices g') g).
Proof.
  intros Hinv Hused Hidx. attribute_returns_tac TANGENT_INDICES Hinv Hused Hidx.
Qed.

Lemma colors_returns n pending g :
  assembly_invariant n (COLOR_INDICES :: pending) g →
  all_referenced (length (vertices g)) (vertex_indices g) →
  (colors g ≠ [] → color_indices g ≠ []) →
  ∃ g',
    (if negb (bool_decide (length (colors g) = 0%nat)) then
       r ← expand (colors g) COLOR_INDICES g EXCLUDE_COLOR;
       v ← remapForRendering (colors (set_colors r.1 r.2))
             (color_indices (set_colors r.1 r.2))
             (vertex_indices (set_colors r.1 r.2));
       Ok (set_colors v (set_colors r.1 r.2))
     else Ok g) = Ok g'
    ∧ g' = set_colors (colors g') (set_color_indices (color_indices g') g).
Proof.
  intros Hinv Hused Hidx. attribute_returns_tac COLOR_INDICES Hinv Hused Hidx.
Qed.

Lemma uvs_returns n pending g :
  assembly_invariant n (UV_INDICES :: pending) g →
  all_referenced (length (vertices g)) (vertex_indices g) →
  (uvs g ≠ [] → uv_indices g ≠ []) →
  ∃ g',
    (if negb (bool_decide (length (uvs g) = 0%nat)) then
       r ← expand (uvs g) UV_INDICES g EXCLUDE_UV;
       v ← remapForRendering (uvs (set_uvs r.1 r.2))
             (uv_indices (set_uvs r.1 r.2))
             (vertex_indices (set_uvs r.1 r.2));
       Ok (set_uvs v (set_uvs r.1 r.2))
     else Ok g) = Ok g'
    ∧ g' = set_uvs (uvs g') (set_uv_indices (uv_indices g') g).
Proof.
  intros Hinv Hused Hidx. attribute_returns_tac UV_INDICES Hinv Hused Hidx.
Qed.

(** The rewriting of the triangles returns when every loop position that a
    corner came from has a vertex index. *)
Lemma rewrite_triangles_returns (to_old_indices vi ts : list Z) (turns : nat) :
  (turns <= length ts)%nat →
  length ts = length to_old_indices →
  Z.of_nat (length ts) < 2 ^ 64 →
  Z.of_nat (length vi) < 2 ^ 64 →
  indices_below (length vi) to_old_indices →
  ∃ ts',
    for_loop turns 0
      (λ i triangles,
         old ← at_ to_old_indices (to_size_t i);
         v ← at_ vi (to_size_t old);
         set_at triangles (to_size_t i) v)
      ts = Ok ts'.
Proof.
  intros Hturns Hlen Hsize Hvsize Hbelow.
  destruct (for_loop_total (λ _ (t : list Z), length t = length ts) turns 0
    (λ i triangles,
       old ← at_ to_old_indices (to_size_t i);
       v ← at_ vi (to_size_t old);
       set_at triangles (to_size_t i) v) ts) as (ts' & Hrun & _).
  - done.
  - intros i t Hi Ht. rewrite (to_size_t_small i) by lia.
    destruct (at_in_range to_old_indices i) as (old & -> & Hold); [lia|].
    cbn [mbind Outcome_bind].
    pose proof (proj1 (Forall_lookup _ _) Hbelow _ _ Hold) as Hr. simpl in Hr.
    rewrite to_size_t_small by lia.
    destruct (at_in_range vi old) as (v & -> & _); [lia|].
    cbn [mbind Outcome_bind].
    rewrite set_at_in_range by lia.
    eexists. split; [reflexivity|]. by rewrite length_insert.
  - by exists ts'.
Qed.

(** *** The decoded layers come with indices *)

Lemma layers_indexed_set (f : IndexMember) (g g' : GeometryImpl) :
  layers_indexed g →
  vertex_indices g' = vertex_indices g →
  (∀ f', f' ≠ f → member_size f' g' = member_size f' g
                  ∧ get_indices f' g' = get_indices f' g) →
  length (get_indices f g') = length (vertex_indices g) →
  layers_indexed g'.
Proof.
  intros [Hne Hall] Hvi Hother Hlen. split; [by rewrite Hvi|].
  intros f' Hsize. destruct (decide (f' = f)) as [->|Hdiff].
  - intros Hnil. rewrite Hnil in Hlen. by destruct (vertex_indices g).
  - destruct (Hother f' Hdiff) as [Hs Hi]. rewrite Hi. apply Hall. by rewrite <- Hs.
Qed.

Lemma decodeAttributeLayers_indexed `{Collaborators} m element g g' :
  decodeAttributeLayers m element g = Ok g' → layers_indexed g → layers_indexed g'.
Proof.
  unfold decodeAttributeLayers. intros Hrun Hg.
  inv_bind Hrun. rename a into s1, Ha into H1.
  inv_bind Hrun. rename a into s2, Ha into H2.
  inv_bind Hrun. rename a into s3, Ha into H3.
  inv_bind Hrun. rename a into s4, Ha into H4.
  injection Hrun as <-.
  assert (layers_indexed s1.1) as L1.
  { destruct (findChild m element "LayerElementUV"); [|by injection H1 as <-].
    inv_bind H1. destruct (negb a.1); [discriminate|].
    inv_bind H1. inv_bind H1. injection H1 as <-.
    apply generateIndices_length in Ha1.
    apply (layers_indexed_set UV_INDICES g); try done.
    intros f' Hf'. by destruct f'. }
  assert (layers_indexed s2.1) as L2.
  { destruct (findChild m element "LayerElementTangents"); [|by injection H2 as <-].
    inv_bind H2. destruct (negb a.1); [discriminate|].
    inv_bind H2. inv_bind H2. injection H2 as <-.
    apply generateIndices_length in Ha1.
    apply (layers_indexed_set TANGENT_INDICES s1.1); try done.
    intros f' Hf'. by destruct f'. }
  assert (layers_indexed s3.1) as L3.
  { destruct (findChild m element "LayerElementColor"); [|by injection H3 as <-].
    inv_bind H3. destruct (negb a.1); [discriminate|].
    inv_bind H3. inv_bind H3. injection H3 as <-.
    apply generateIndices_length in Ha1.
    apply (layers_indexed_set COLOR_INDICES s2.1); try done.
    intros f' Hf'. by destruct f'. }
  destruct (findChild m element "LayerElementNormal"); [|by injection H4 as <-].
  inv_bind H4. destruct (negb a.1); [discriminate|].
  inv_bind H4. inv_bind H4. injection H4 as <-.
  apply generateIndices_length in Ha1.
  apply (layers_indexed_set NORMAL_INDICES s3.1); try done.
  intros f' Hf'. by destruct f'.
Qed.

Lemma decodeGeometry_indexed `{Collaborators} m element g to_old_indices :
  decodeGeometry m element = Ok (g, to_old_indices) → layers_indexed g.
Proof.
  intros Hrun.
  destruct (decodeGeometry_shape _ _ _ _ Hrun) as (_ & Hne & _).
  unfold decodeGeometry in Hrun.
  destruct (findChild m element "Vertices" ≫= first_property); [|discriminate].
  destruct (findChild m element "PolygonVertexIndex" ≫= first_property);
    [|discriminate].
  inv_bind Hrun. rename a into rv. destruct (negb rv.1); [discriminate|].
  inv_bind Hrun. rename a into ri. destruct (negb ri.1); [discriminate|].
  inv_bind Hrun. rename a into t.
  inv_bind Hrun. rename a into gm. inv_bind Hrun. rename a into gl.
  injection Hrun as <- <-.
  apply decodeMaterialLayer_shape in Ha2.
  apply (decodeAttributeLayers_indexed _ _ _ _ Ha3).
  apply decodeAttributeLayers_shape in Ha3 as (_ & Hi & _).
  assert (vertex_indices gm ≠ []) as Hgm by (by rewrite <- Hi).
  split; [done|].
  intros f Hsize. destruct (decide (f = VERTEX_INDICES)) as [->|Hf]; [exact Hgm|].
  exfalso. apply Hsize. rewrite Ha2. by destruct f.
Qed.

(** The assembly returns when the decoded indices are valid and every
    position is referred to by a vertex index; every position of the record
    is then referred to by a vertex index as well. *)
Lemma assembly_returns `{Collaborators} (m : memory)
    (element : Element) (decoded : GeometryImpl) (to_old_indices : list Z) :
  is_Some (first_property element) →
  decodeGeometry m element = Ok (decoded, to_old_indices) →
  decoded_valid decoded →
  all_referenced (length (vertices decoded)) (vertex_indices decoded) →
  ∃ g, parseGeometryForRendering m element = Ok g
       ∧ all_referenced (length (vertices g)) (vertex_indices g).
Proof.
  intros Hfirst Hdecode Hvalid Hused.
  destruct (decodeGeometry_shape _ _ _ _ Hdecode) as (Hshape & Hne & Htri).
  destruct (decodeGeometry_indexed _ _ _ _ Hdecode) as [_ Hidx].
  remember (length (vertex_indices decoded)) as n eqn:En.
  assert (Z.of_nat n < 2 ^ 31) as Hn.
  { destruct (Hvalid VERTEX_INDICES) as [_ Hb]. simpl in Hb. lia. }
  destruct (Htri Hn) as (Hlen_tri & Hsize_tri & Hto_old). clear Htri.
  assert (n ≠ 0%nat) as Hn0 by (subst n; by destruct (vertex_indices decoded)).
  assert (assembly_invariant n
    [VERTEX_INDICES; NORMAL_INDICES; TANGENT_INDICES; COLOR_INDICES; UV_INDICES]
    decoded) as Hinv.
  { split; [done|]. split; [done|]. split; [intros f; apply Hvalid|].
    split; [destruct (Hvalid VERTEX_INDICES) as [_ Hb]; simpl in Hb |- *; lia|].
    split; [intros f _; apply Hvalid|].
    intros f Hnin. exfalso. apply Hnin. destruct f; repeat ((by left) || right). }
  unfold parseGeometryForRendering.
  rewrite bool_decide_eq_true_2 by done. cbn [assert mbind Outcome_bind].
  rewrite Hdecode. cbn [mbind Outcome_bind fst snd].
  unfold expandForRendering.
  assert (expand_ready (vertices decoded) VERTEX_INDICES decoded) as Hready.
  { pose proof Hinv as (Hn' & Hshape' & Hvalid' & _ & Hpending & _).
    split; [simpl; lia|]. split; [apply (Hvalid' VERTEX_INDICES)|].
    split; [apply (Hpending VERTEX_INDICES); by left|].
    intros f'. simpl. destruct (Hshape' f') as [->|Hl]; [by left|right; lia]. }
  destruct (expand_ready_covers _ _ _ EXCLUDE_VERTEX Hready)
    as (s & Hs & Hinv_e & Hvalid_e & Hcov).
  pose proof (expand_all_referenced _ _ _ _ _ Hready Hinv_e Hvalid_e Hcov Hused)
    as Hused1.
  destruct Hinv_e as (Hgeom & _). cbn [get_indices] in Hgeom, Hused1.
  destruct (vertices_block n _ _ _ Hn0 Hinv Hs) as [Hinv1 Ht1].
  rewrite Hs. cbn [mbind Outcome_bind fst snd].
  set (G1 := set_vertices (es_data s) (es_geom s)) in *.
  assert (G1 = set_vertices (es_data s)
                 (set_vertex_indices (vertex_indices (es_geom s)) decoded)) as HG1
    by (unfold G1; by rewrite Hgeom at 1).
  destruct (normals_returns n _ G1 Hinv1 Hused1) as (G2 & Hb2 & HG2).
  { rewrite HG1. intros Hd. apply (Hidx NORMAL_INDICES).
    simpl in *. by destruct (normals decoded). }
  destruct (normals_block n [TANGENT_INDICES; COLOR_INDICES; UV_INDICES] _ _
              ltac:(fresh_member) Hinv1 Hb2) as (Hinv2 & Ht2 & Hv2 & Hvi2).
  destruct (tangents_returns n _ G2 Hinv2) as (G3 & Hb3 & HG3).
  { by rewrite Hv2, Hvi2. }
  { rewrite HG2, HG1. intros Hd. apply (Hidx TANGENT_INDICES).
    simpl in *. by destruct (tangents decoded). }
  destruct (tangents_block n [COLOR_INDICES; UV_INDICES] _ _
              ltac:(fresh_member) Hinv2 Hb3) as (Hinv3 & Ht3 & Hv3 & Hvi3).
  destruct (colors_returns n _ G3 Hinv3) as (G4 & Hb4 & HG4).
  { by rewrite Hv3, Hvi3, Hv2, Hvi2. }
  { rewrite HG3, HG2, HG1. intros Hd. apply (Hidx COLOR_INDICES).
    simpl in *. by destruct (colors decoded). }
  destruct (colors_block n [UV_INDICES] _ _
              ltac:(fresh_member) Hinv3 Hb4) as (Hinv4 & Ht4 & Hv4 & Hvi4).
  destruct (uvs_returns n _ G4 Hinv4) as (G5 & Hb5 & HG5).
  { by rewrite Hv4, Hvi4, Hv3, Hvi3, Hv2, Hvi2. }
  { rewrite HG4, HG3, HG2, HG1. intros Hd. apply (Hidx UV_INDICES).
    simpl in *. by destruct (uvs decoded). }
  destruct (uvs_block n [] _ _ ltac:(fresh_member) Hinv4 Hb5)
    as (Hinv5 & Ht5 & Hv5 & Hvi5).
  destruct Hinv5 as (Hn5 & _).
  destruct (rewrite_triangles_returns to_old_indices (vertex_indices G5) (triangles G5)
              (int_turns (length (triangles G5)))) as (tri & Htri).
  { unfold int_turns. lia. }
  { rewrite Ht5, Ht4, Ht3, Ht2, Ht1. done. }
  { rewrite Ht5, Ht4, Ht3, Ht2, Ht1. lia. }
  { lia. }
  { by rewrite Hn5. }
  exists (set_triangles tri G5). split.
  - rewrite Hb2. cbn [mbind Outcome_bind]. rewrite Hb3. cbn [mbind Outcome_bind].
    rewrite Hb4. cbn [mbind Outcome_bind]. rewrite Hb5. cbn [mbind Outcome_bind].
    rewrite Htri. reflexivity.
  - change (all_referenced (length (vertices G5)) (vertex_indices G5)).
    by rewrite Hv5, Hvi5, Hv4, Hvi4, Hv3, Hvi3, Hv2, Hvi2.
Qed.

(** X27.  When the assembly returns.  On a geometry that decodes, whose
    decoded index arrays are valid for their data and in which every
    position is referred to by a vertex index, [parseGeometryForRendering]
    returns a record: no access of the expansion, of the remap or of the
    rewriting of the triangles leaves its vector. *)
Theorem parseGeometryForRendering_returns `{Collaborators} (m : memory)
    (element : Element) (decoded : GeometryImpl) (to_old_indices : list Z) :
  is_Some (first_property element) →
  decodeGeometry m element = Ok (decoded, to_old_indices) →
  decoded_valid decoded →
  all_referenced (length (vertices decoded)) (vertex_indices decoded) →
  ∃ g, parseGeometryForRendering m element = Ok g.
Proof.
  intros Hfirst Hdecode Hvalid Hused.
  destruct (assembly_returns m element decoded to_old_indices Hfirst Hdecode Hvalid
              Hused) as (g & Hrun & _).
  by exists g.
Qed.

Lemma parseGeometryForRendering_returns_witness :
  ∃ g, @parseGeometryForRendering sample_collaborators flat_quad_memory
         flat_quad_geometry = Ok g.
Proof.
  assert (@decodeGeometry sample_collaborators flat_quad_memory flat_quad_geometry
          = Ok (flat_quad_decoded.1, flat_quad_decoded.2)) as Hdecode
    by (vm_compute; reflexivity).
  assert (decoded_valid flat_quad_decoded.1) as Hvalid.
  { intros f. destruct f; (split; [repeat constructor; simpl; lia|simpl; lia]). }
  assert (length (vertices flat_quad_decoded.1) = 4%nat) as Hsize
    by (vm_compute; reflexivity).
  assert (vertex_indices flat_quad_decoded.1 = [0; 1; 2; 0; 2; 3]) as Hindices
    by (vm_compute; reflexivity).
  apply (@parseGeometryForRendering_returns sample_collaborators flat_quad_memory
           flat_quad_geometry _ _ ltac:(by eexists) Hdecode Hvalid).
  rewrite Hsize, Hindices. intros e He.
  assert (e = 0 ∨ e = 1 ∨ e = 2 ∨ e = 3) as [-> | [-> | [-> | ->]]] by lia;
    rewrite !elem_of_cons; tauto.
Defined.

(** ** Vertex expansion: no entry is left unused *)

(** X28.  [expand] leaves no entry of the data unused.  On indices that
    are valid for the data, when every entry of the data is referred to by
    an index on entry, every entry of the grown data is referred to by an
    index on return: no entry that was in use is abandoned by the splits,
    and every appended entry is the one that a loop position was moved
    to. *)
Theorem expand_no_orphans {T} (data : list T) (f : IndexMember)
    (geom : GeometryImpl) (mask : Z) :
  expand_ready data f geom →
  all_referenced (length data) (get_indices f geom) →
  ∃ data' geom',
    expand data f geom mask = Ok (data', geom')
    ∧ all_referenced (length data') (get_indices f geom').
Proof.
  intros Hready Hused.
  destruct (expand_ready_covers data f geom mask Hready)
    as (s & Hrun & Hinv & Hvalid & Hcov).
  exists (es_data s), (es_geom s). split; [done|].
  by apply (expand_all_referenced data f geom mask).
Qed.

Lemma expand_no_orphans_witness :
  ∃ data' geom',
    expand [10; 20] VERTEX_INDICES shared_corner_geometry EXCLUDE_VERTEX
    = Ok (data', geom')
    ∧ all_referenced (length data') (vertex_indices geom').
Proof.
  apply (expand_no_orphans [10; 20] VERTEX_INDICES shared_corner_geometry
           EXCLUDE_VERTEX).
  - split; [simpl; lia|]. split; [repeat constructor; simpl; lia|].
    split; [simpl; lia|]. intros []; simpl; (by left) || (right; lia).
  - intros e He. simpl in He.
    assert (e = 0 ∨ e = 1) as [-> | ->] by lia;
      change (get_indices VERTEX_INDICES shared_corner_geometry) with [0; 0; 1];
      rewrite !elem_of_cons; tauto.
Defined.

(** ** Geometry assembly: the record it returns *)

(** [triangulate] keeps the size of the stream. *)
Lemma triangulate_length old indices to_old old' indices' to_old' :
  triangulate old indices to_old = Ok (old', indices', to_old') →
  length old' = length old.
Proof.
  unfold triangulate. intros Hloop.
  inv_bind Hloop as s Hs. injection Hloop as <- _ _.
  apply (for_loop_invariant
    (λ _ s, length (ts_old_indices s) = length old)) in Hs; [done|done|].
  intros i s1 s2 _ Hl Hbody. unfold triangulate_body in Hbody.
  inv_bind Hbody as idx Hidx. inv_bind Hbody as pushed Hpushed.
  inv_bind Hbody as raw Hraw. destruct (raw <? 0).
  - inv_bind Hbody as stored Hstored.
    apply set_at_Ok in Hstored as [_ ->]. injection Hbody as <-.
    cbn. by rewrite length_insert.
  - by injection Hbody as <-.
Qed.

(** Every triangle corner that the decoding leaves is one of the decoded
    vertex indices. *)
Lemma decodeGeometry_corners `{Collaborators} m element g to_old_indices :
  decodeGeometry m element = Ok (g, to_old_indices) →
  Z.of_nat (length (vertex_indices g)) < 2 ^ 31 →
  ∀ (k : nat) t, triangles g !! k = Some t → t ∈ vertex_indices g.
Proof.
  unfold decodeGeometry. intros Hrun Hsize.
  destruct (findChild m element "Vertices" ≫= first_property); [|discriminate].
  destruct (findChild m element "PolygonVertexIndex" ≫= first_property);
    [|discriminate].
  inv_bind Hrun. rename a into rv. destruct (negb rv.1); [discriminate|].
  inv_bind Hrun. rename a into ri. destruct ri as [[] vi]; [|discriminate].
  cbn [fst snd negb] in Hrun.
  inv_bind Hrun. rename a into t. destruct t as [[old' indices'] to_old'].
  cbn [fst snd] in Hrun.
  inv_bind Hrun. rename a into gm. inv_bind Hrun. rename a into gl.
  injection Hrun as <- <-.
  apply parseBinaryArray_ints in Ha0 as Hint; [|by left].
  apply decodeMaterialLayer_shape in Ha2.
  apply decodeAttributeLayers_shape in Ha3 as (_ & Hi & Ht & _).
  rewrite Ha2 in Hi, Ht. cbn in Hi, Ht.
  change (triangulate vi [] [] = Ok (old', indices', to_old')) in Ha1.
  rewrite Hi in Hsize |- *. rewrite Ht.
  pose proof (triangulate_length _ _ _ _ _ _ Ha1) as Hold.
  destruct (triangulate_pairs vi [] [] Hint ltac:(lia))
    as (corners & positions & Hpairs_run & Hpairs & _).
  rewrite Hpairs_run in Ha1. injection Ha1 as <- <- <-. cbn [app].
  intros k c Hk.
  destruct (Forall2_lookup_l _ _ _ _ _ Hpairs Hk) as (pos & _ & _ & Hc).
  apply list_elem_of_lookup. by exists (Z.to_nat pos).
Qed.

(** C1, as the code has it.  When the decoded index arrays are valid for
    their own data (the sizes in the range of [int]) and every position is
    referred to by a vertex index, [parseGeometryForRendering] returns a
    record in which every index array is valid for its own data, the vertex
    indices and the triangles are valid for the positions and for each
    attribute array that is not empty, and each attribute array that is not
    empty has at least as many entries as there are positions. *)
Theorem parseGeometryForRendering_valid `{Collaborators} (m : memory)
    (element : Element) (decoded : GeometryImpl) (to_old_indices : list Z) :
  is_Some (first_property element) →
  decodeGeometry m element = Ok (decoded, to_old_indices) →
  decoded_valid decoded →
  all_referenced (length (vertices decoded)) (vertex_indices decoded) →
  ∃ g, parseGeometryForRendering m element = Ok g
       ∧ rendering_valid g
       ∧ ∀ f, member_size f g ≠ 0%nat → (length (vertices g) <= member_size f g)%nat.
Proof.
  intros Hfirst Hdecode Hvalid Hused.
  destruct (assembly_returns m element decoded to_old_indices Hfirst Hdecode Hvalid
              Hused) as (g & Hrun & Hused_g).
  exists g. split; [exact Hrun|].
  destruct (decodeGeometry_shape _ _ _ _ Hdecode) as (Hshape & Hne & Htri).
  remember (length (vertex_indices decoded)) as n eqn:En.
  assert (Z.of_nat n < 2 ^ 31) as Hn.
  { destruct (Hvalid VERTEX_INDICES) as [_ Hb]. simpl in Hb. lia. }
  pose proof (decodeGeometry_corners _ _ _ _ Hdecode ltac:(lia)) as Hcorners.
  destruct (Htri Hn) as (Hlen_tri & Hsize_tri & Hto_old). clear Htri.
  assert (n ≠ 0%nat) as Hn0 by (subst n; by destruct (vertex_indices decoded)).
  assert (assembly_invariant n
    [VERTEX_INDICES; NORMAL_INDICES; TANGENT_INDICES; COLOR_INDICES; UV_INDICES]
    decoded) as Hinv.
  { split; [done|]. split; [done|]. split; [intros f; apply Hvalid|].
    split; [destruct (Hvalid VERTEX_INDICES) as [_ Hb]; simpl in Hb |- *; lia|].
    split; [intros f _; apply Hvalid|].
    intros f Hnin. exfalso. apply Hnin. destruct f; repeat ((by left) || right). }
  unfold parseGeometryForRendering in Hrun.
  inv_bind Hrun as u Hassert. rewrite Hdecode in Hrun.
  cbn [mbind Outcome_bind fst snd] in Hrun.
  unfold expandForRendering in Hrun.
  inv_bind Hrun as r1 Hexp1. destruct r1 as [d1 g1]. cbn [fst snd] in Hrun.
  assert (length (vertices decoded) <= length d1)%nat as Hgrown.
  { destruct (expand_returns_invariant _ _ _ _ _ _ Hexp1)
      as (s & <- & _ & _ & _ & _ & _ & (ext & -> & _) & _).
    rewrite length_app. lia. }
  apply (vertices_block n _ _ _ Hn0 Hinv) in Hexp1 as [Hinv1 Ht1].
  inv_bind Hrun as g2 Hb2.
  apply (normals_block n [TANGENT_INDICES; COLOR_INDICES; UV_INDICES] _ _
           ltac:(fresh_member) Hinv1) in Hb2 as (Hinv2 & Ht2 & Hv2 & Hvi2).
  inv_bind Hrun as g3 Hb3.
  apply (tangents_block n [COLOR_INDICES; UV_INDICES] _ _
           ltac:(fresh_member) Hinv2) in Hb3 as (Hinv3 & Ht3 & Hv3 & Hvi3).
  inv_bind Hrun as g4 Hb4.
  apply (colors_block n [UV_INDICES] _ _
           ltac:(fresh_member) Hinv3) in Hb4 as (Hinv4 & Ht4 & Hv4 & Hvi4).
  inv_bind Hrun as g5 Hb5.
  apply (uvs_block n [] _ _ ltac:(fresh_member) Hinv4) in Hb5
    as (Hinv5 & Ht5 & Hv5 & Hvi5).
  inv_bind Hrun as tri Htri. injection Hrun as <-.
  change (all_referenced (length (vertices g5)) (vertex_indices g5)) in Hused_g.
  destruct Hinv5 as (Hn5 & Hshape5 & Hvalid5 & Hvsize5 & _ & Hcovered5).
  assert (length (vertices decoded) <= length (vertices g5))%nat as Hgrown5
    by (rewrite Hv5, Hv4, Hv3, Hv2; exact Hgrown).
  assert (indices_below (length (vertices decoded)) (triangles g5)) as Hold.
  { rewrite Ht5, Ht4, Ht3, Ht2, Ht1. apply Forall_lookup. intros k t Hk.
    apply Hcorners, list_elem_of_lookup in Hk as [pos Hpos].
    destruct (Hvalid VERTEX_INDICES) as [Hbelow _].
    apply (proj1 (Forall_lookup _ _) Hbelow _ _ Hpos). }
  assert (∀ f, member_size f g5 ≠ 0%nat →
            indices_below (member_size f g5) (vertex_indices g5)
            ∧ (length (vertices g5) <= member_size f g5)%nat) as Hcov.
  { intros f Hsize.
    assert (indices_below (member_size f g5) (vertex_indices g5)) as Hbelow.
    { apply Hcovered5; [by intros ?%elem_of_nil|done]. }
    split; [done|].
    destruct (decide (length (vertices g5) = 0%nat)) as [->|Hpos]; [lia|].
    pose proof (Hused_g (Z.of_nat (length (vertices g5)) - 1) ltac:(lia)) as Hin.
    apply list_elem_of_lookup in Hin as [i Hi].
    pose proof (proj1 (Forall_lookup _ _) Hbelow _ _ Hi) as Hr. simpl in Hr. lia. }
  split; [split; [|split]|].
  - intros f. destruct f;
      [exact (Hvalid5 VERTEX_INDICES)|exact (Hvalid5 NORMAL_INDICES)
      |exact (Hvalid5 TANGENT_INDICES)|exact (Hvalid5 COLOR_INDICES)
      |exact (Hvalid5 UV_INDICES)].
  - apply (rewrite_triangles_result to_old_indices (vertex_indices g5) (triangles g5)
             tri _ (int_turns (length (triangles g5))) (Hvalid5 VERTEX_INDICES));
      [|exact Htri].
    eapply Forall_impl; [|exact Hold]. simpl. intros e He. lia.
  - intros f Hsize.
    replace (member_size f (set_triangles tri g5)) with (member_size f g5) in *
      by (by destruct f).
    destruct (Hcov f Hsize) as [Hbelow Hroom].
    split; [done|].
    apply (rewrite_triangles_result to_old_indices (vertex_indices g5) (triangles g5)
             tri _ (int_turns (length (triangles g5))) Hbelow); [|exact Htri].
    eapply Forall_impl; [|exact Hold]. simpl. intros e He. lia.
  - intros f Hsize.
    replace (member_size f (set_triangles tri g5)) with (member_size f g5) in *
      by (by destruct f).
    by destruct (Hcov f Hsize).
Qed.

Lemma parseGeometryForRendering_valid_witness :
  @parseGeometryForRendering sample_collaborators flat_quad_memory flat_quad_geometry
  = Ok flat_quad_assembled
  ∧ rendering_valid flat_quad_assembled.
Proof.
  assert (@decodeGeometry sample_collaborators flat_quad_memory flat_quad_geometry
          = Ok (flat_quad_decoded.1, flat_quad_decoded.2)) as Hdecode
    by (vm_compute; reflexivity).
  assert (decoded_valid flat_quad_decoded.1) as Hvalid.
  { intros f. destruct f; (split; [repeat constructor; simpl; lia|simpl; lia]). }
  assert (all_referenced (length (vertices flat_quad_decoded.1))
            (vertex_indices flat_quad_decoded.1)) as Hused.
  { change (all_referenced 4 [0; 1; 2; 0; 2; 3]). intros e He.
    assert (e = 0 ∨ e = 1 ∨ e = 2 ∨ e = 3) as [-> | [-> | [-> | ->]]] by lia;
      rewrite !elem_of_cons; tauto. }
  assert (@parseGeometryForRendering sample_collaborators flat_quad_memory
            flat_quad_geometry
          = Ok flat_quad_assembled) as Hrun
    by (vm_compute; reflexivity).
  destruct (@parseGeometryForRendering_valid sample_collaborators flat_quad_memory
              flat_quad_geometry _ _ ltac:(by eexists) Hdecode Hvalid Hused)
    as (g & Hg & Hrendering & _).
  rewrite Hrun in Hg. injection Hg as <-.
  split; [exact Hrun|exact Hrendering].
Defined.

(** C1, as it is stated, fails: two triangles on four positions that share
    an edge, with one normal shared by their six corners, are assembled
    into a record with four positions and five normals (the corner that
    comes back to position 2 is split a second time), and the normal index
    4 is not below the number of positions. *)
Lemma parseGeometryForRendering_lengths_counterexample :
  @parseGeometryForRendering sample_collaborators flat_quad_memory flat_quad_geometry
  = Ok flat_quad_assembled
  ∧ length (vertices flat_quad_assembled) = 4%nat
  ∧ length (normals flat_quad_assembled) = 5%nat
  ∧ vertex_indices flat_quad_assembled = [0; 1; 2; 0; 2; 3]
  ∧ normal_indices flat_quad_assembled = [0; 1; 2; 0; 3; 4].
Proof. split; [vm_compute; reflexivity|]. repeat split. Qed.

(** X18.  What the assembled geometry shows at a triangle corner is what
    the file says of the loop position the corner came from.  When the
    decoded index arrays are valid for their data and every position is
    referred to by a vertex index, [parseGeometryForRendering] returns a
    record in which every triangle corner before the 2^31-th is the vertex
    index of its loop position, and the position, the normal, the tangent,
    the colour and the UV stored at that vertex index are the entries that
    the decoded indices of the loop position referred to in the decoded
    arrays.  The corners from the 2^31-th on are out of the reach of the
    [int] counter of the last loop: they are left as they were decoded. *)
Theorem parseGeometryForRendering_keeps_corners `{Collaborators} (m : memory)
    (element : Element) (decoded : GeometryImpl) (to_old_indices : list Z) :
  is_Some (first_property element) →
  decodeGeometry m element = Ok (decoded, to_old_indices) →
  decoded_valid decoded →
  all_referenced (length (vertices decoded)) (vertex_indices decoded) →
  ∃ g, parseGeometryForRendering m element = Ok g
    ∧ (∀ (k : nat) pos, Z.of_nat k < 2 ^ 31 → to_old_indices !! k = Some pos →
         ∃ t, triangles g !! k = Some t
           ∧ vertex_indices g !! Z.to_nat pos = Some t
           ∧ (∀ e, vertex_indices decoded !! Z.to_nat pos = Some e →
                vertices g !! Z.to_nat t = vertices decoded !! Z.to_nat e)
           ∧ (∀ e, normal_indices decoded !! Z.to_nat pos = Some e →
                normals g !! Z.to_nat t = normals decoded !! Z.to_nat e)
           ∧ (∀ e, tangent_indices decoded !! Z.to_nat pos = Some e →
                tangents g !! Z.to_nat t = tangents decoded !! Z.to_nat e)
           ∧ (∀ e, color_indices decoded !! Z.to_nat pos = Some e →
                colors g !! Z.to_nat t = colors decoded !! Z.to_nat e)
           ∧ (∀ e, uv_indices decoded !! Z.to_nat pos = Some e →
                uvs g !! Z.to_nat t = uvs decoded !! Z.to_nat e))
    ∧ (∀ k : nat, 2 ^ 31 <= Z.of_nat k → triangles g !! k = triangles decoded !! k).
Proof.
  intros Hfirst Hdecode Hvalid Hused.
  destruct (assembly_returns m element decoded to_old_indices Hfirst Hdecode Hvalid
              Hused) as (g & Hrun & _).
  exists g. split; [exact Hrun|].
  destruct (decodeGeometry_shape _ _ _ _ Hdecode) as (Hshape & Hne & Htri).
  remember (length (vertex_indices decoded)) as n eqn:En.
  assert (Z.of_nat n < 2 ^ 31) as Hn.
  { destruct (Hvalid VERTEX_INDICES) as [_ Hb]. simpl in Hb. lia. }
  destruct (Htri Hn) as (Hlen_tri & Hsize_tri & Hto_old). clear Htri.
  assert (n ≠ 0%nat) as Hn0 by (subst n; by destruct (vertex_indices decoded)).
  assert (assembly_invariant n
    [VERTEX_INDICES; NORMAL_INDICES; TANGENT_INDICES; COLOR_INDICES; UV_INDICES]
    decoded) as Hinv.
  { split; [done|]. split; [done|]. split; [intros f; apply Hvalid|].
    split; [destruct (Hvalid VERTEX_INDICES) as [_ Hb]; simpl in Hb |- *; lia|].
    split; [intros f _; apply Hvalid|].
    intros f Hnin. exfalso. apply Hnin. destruct f; repeat ((by left) || right). }
  unfold parseGeometryForRendering in Hrun.
  inv_bind Hrun as u Hassert. rewrite Hdecode in Hrun.
  cbn [mbind Outcome_bind fst snd] in Hrun.
  unfold expandForRendering in Hrun.
  inv_bind Hrun as r1 Hexp1. destruct r1 as [d1 g1]. cbn [fst snd] in Hrun.
  destruct (vertices_block_values n _ _ _ Hn0 Hinv Hexp1) as (Hg1 & Hpos & Hcons).
  apply (vertices_block n _ _ _ Hn0 Hinv) in Hexp1 as [Hinv1 Ht1].
  set (G1 := set_vertices d1 g1) in *.
  assert (G1 = set_vertices d1 (set_vertex_indices (vertex_indices g1) decoded)) as HG1
    by (unfold G1; by rewrite Hg1 at 1).
  inv_bind Hrun as G2 Hb2.
  destruct (normals_values n _ _ _ Hinv1 ltac:(
    intros i j e Hi Hj; rewrite HG1 in Hi, Hj |- *;
    exact (Hcons NORMAL_INDICES i j e ltac:(done) Hi Hj)) Hb2) as (HG2 & Hnrm).
  apply (normals_block n [TANGENT_INDICES; COLOR_INDICES; UV_INDICES] _ _
           ltac:(fresh_member) Hinv1) in Hb2 as (Hinv2 & Ht2 & _ & Hvi2).
  inv_bind Hrun as G3 Hb3.
  destruct (tangents_values n _ _ _ Hinv2 ltac:(
    intros i j e Hi Hj; rewrite HG2, HG1 in Hi, Hj |- *;
    exact (Hcons TANGENT_INDICES i j e ltac:(done) Hi Hj)) Hb3) as (HG3 & Htan).
  apply (tangents_block n [COLOR_INDICES; UV_INDICES] _ _
           ltac:(fresh_member) Hinv2) in Hb3 as (Hinv3 & Ht3 & _ & Hvi3).
  inv_bind Hrun as G4 Hb4.
  destruct (colors_values n _ _ _ Hinv3 ltac:(
    intros i j e Hi Hj; rewrite HG3, HG2, HG1 in Hi, Hj |- *;
    exact (Hcons COLOR_INDICES i j e ltac:(done) Hi Hj)) Hb4) as (HG4 & Hclr).
  apply (colors_block n [UV_INDICES] _ _
           ltac:(fresh_member) Hinv3) in Hb4 as (Hinv4 & Ht4 & _ & Hvi4).
  inv_bind Hrun as G5 Hb5.
  destruct (uvs_values n _ _ _ Hinv4 ltac:(
    intros i j e Hi Hj; rewrite HG4, HG3, HG2, HG1 in Hi, Hj |- *;
    exact (Hcons UV_INDICES i j e ltac:(done) Hi Hj)) Hb5) as (HG5 & Huv).
  apply (uvs_block n [] _ _ ltac:(fresh_member) Hinv4) in Hb5
    as (Hinv5 & Ht5 & _ & Hvi5).
  inv_bind Hrun as tri Htri. injection Hrun as <-.
  assert (triangles G5 = triangles decoded) as Ht
    by (rewrite Ht5, Ht4, Ht3, Ht2, Ht1; done).
  assert (length (triangles G5) = length to_old_indices) as Htl
    by (by rewrite Ht).
  destruct (rewrite_triangles_exact to_old_indices (vertex_indices G5)
              (triangles G5) tri (int_turns (length (triangles G5)))
              ltac:(unfold int_turns; lia) Htl ltac:(lia)
              ltac:(eapply Forall_impl; [|exact Hto_old]; simpl; intros; lia)
              Htri) as [Hcorner Hrest].
  split.
  2:{ intros k Hk. change (tri !! k = triangles decoded !! k).
      rewrite <- Ht. apply Hrest. unfold int_turns. lia. }
  intros k pos Hreach Hk.
  pose proof (lookup_lt_Some _ _ _ Hk) as Hklt.
  destruct (Hcorner k pos ltac:(unfold int_turns; lia) Hk) as (t & Htk & Hvt).
  assert (vertex_indices G5 = vertex_indices g1) as Hvi
    by (rewrite Hvi5, Hvi4, Hvi3, Hvi2; unfold G1; done).
  exists t. split; [done|]. split; [done|].
  rewrite Hvi in Hvt.
  split; [|split; [|split; [|split]]].
  - intros e He. destruct (Hpos _ _ He) as (e' & He' & Hval).
    assert (e' = t) as -> by congruence.
    rewrite <- Hval. rewrite HG5, HG4, HG3, HG2, HG1. reflexivity.
  - intros e He.
    assert (normals (set_triangles tri G5) = normals G2) as ->
      by (rewrite HG5, HG4, HG3; reflexivity).
    rewrite (Hnrm (Z.to_nat pos) e t);
      [|rewrite HG1; exact He|rewrite HG1; exact Hvt].
    rewrite HG1. reflexivity.
  - intros e He.
    assert (tangents (set_triangles tri G5) = tangents G3) as ->
      by (rewrite HG5, HG4; reflexivity).
    rewrite (Htan (Z.to_nat pos) e t);
      [|rewrite HG2, HG1; exact He|rewrite HG2, HG1; exact Hvt].
    rewrite HG2, HG1. reflexivity.
  - intros e He.
    assert (colors (set_triangles tri G5) = colors G4) as ->
      by (rewrite HG5; reflexivity).
    rewrite (Hclr (Z.to_nat pos) e t);
      [|rewrite HG3, HG2, HG1; exact He|rewrite HG3, HG2, HG1; exact Hvt].
    rewrite HG3, HG2, HG1. reflexivity.
  - intros e He.
    change (uvs (set_triangles tri G5)) with (uvs G5).
    rewrite (Huv (Z.to_nat pos) e t);
      [|rewrite HG4, HG3, HG2, HG1; exact He|rewrite HG4, HG3, HG2, HG1; exact Hvt].
    rewrite HG4, HG3, HG2, HG1. reflexivity.
Qed.

Lemma parseGeometryForRendering_keeps_corners_witness :
  ∃ t, triangles flat_quad_assembled !! 4%nat = Some t
       ∧ vertex_indices flat_quad_assembled !! 4%nat = Some t
       ∧ vertices flat_quad_assembled !! Z.to_nat t
         = vertices flat_quad_decoded.1 !! 2%nat
       ∧ normals flat_quad_assembled !! Z.to_nat t
         = normals flat_quad_decoded.1 !! 0%nat.
Proof.
  assert (@decodeGeometry sample_collaborators flat_quad_memory flat_quad_geometry
          = Ok (flat_quad_decoded.1, flat_quad_decoded.2)) as Hdecode
    by (vm_compute; reflexivity).
  assert (decoded_valid flat_quad_decoded.1) as Hvalid.
  { intros f. destruct f; (split; [repeat constructor; simpl; lia|simpl; lia]). }
  assert (all_referenced (length (vertices flat_quad_decoded.1))
            (vertex_indices flat_quad_decoded.1)) as Hused.
  { change (all_referenced 4 [0; 1; 2; 0; 2; 3]). intros e He.
    assert (e = 0 ∨ e = 1 ∨ e = 2 ∨ e = 3) as [-> | [-> | [-> | ->]]] by lia;
      rewrite !elem_of_cons; tauto. }
  assert (@parseGeometryForRendering sample_collaborators flat_quad_memory
            flat_quad_geometry
          = Ok flat_quad_assembled) as Hrun
    by (vm_compute; reflexivity).
  destruct (@parseGeometryForRendering_keeps_corners sample_collaborators
              flat_quad_memory flat_quad_geometry _ _ ltac:(by eexists) Hdecode
              Hvalid Hused) as (g & Hg & Hcorners & _).
  rewrite Hrun in Hg. injection Hg as <-.
  destruct (Hcorners 4%nat 4 ltac:(lia) eq_refl) as (t & Ht & Hv & Hpos & Hnrm & _).
  exists t. split; [exact Ht|]. split; [exact Hv|]. split.
  - apply (Hpos 2). reflexivity.
  - apply (Hnrm 0). reflexivity.
Defined.

(** ** Geometry assembly: a position that no polygon uses *)

(** X29.  The remap of the normals can leave their vector.  On a geometry
    that decodes with valid indices and normals, in which no loop position
    has to be split (neither for the positions nor for the normals) and
    one vertex index is not below the number of normals,
    [parseGeometryForRendering] stores a normal outside the vector of the
    normals (undefined behaviour): [remapForRendering] is handed the vertex
    indices as slots and does not resize. *)
Theorem parseGeometryForRendering_spare_position `{Collaborators} (m : memory)
    (element : Element) (decoded : GeometryImpl) (to_old_indices : list Z)
    (i : nat) (v : Z) :
  is_Some (first_property element) →
  decodeGeometry m element = Ok (decoded, to_old_indices) →
  decoded_valid decoded →
  conflict_free VERTEX_INDICES decoded EXCLUDE_VERTEX →
  conflict_free NORMAL_INDICES decoded EXCLUDE_NORMAL →
  normals decoded ≠ [] →
  vertex_indices decoded !! i = Some v →
  Z.of_nat (length (normals decoded)) <= v →
  parseGeometryForRendering m element = UndefinedBehaviour.
Proof.
  intros Hfirst Hdecode Hvalid Hfree_v Hfree_n Hnormals Hi Hv.
  destruct (decodeGeometry_shape _ _ _ _ Hdecode) as (Hshape & Hne & _).
  destruct (decodeGeometry_indexed _ _ _ _ Hdecode) as [_ Hidx].
  pose proof (Hidx NORMAL_INDICES ltac:(simpl; by destruct (normals decoded)))
    as Hni. simpl in Hni.
  assert (length (normal_indices decoded) = length (vertex_indices decoded)) as Hlen
    by (by destruct (Hshape NORMAL_INDICES)).
  assert (∀ f, Forall is_int (get_indices f decoded)) as Hint.
  { intros f. destruct (Hvalid f) as [Hbelow Hsize].
    eapply Forall_impl; [|exact Hbelow]. unfold is_int. simpl. intros e He. lia. }
  unfold parseGeometryForRendering.
  rewrite bool_decide_eq_true_2 by done. cbn [assert mbind Outcome_bind].
  rewrite Hdecode. cbn [mbind Outcome_bind fst snd].
  unfold expandForRendering.
  rewrite expand_without_conflict; [|done| |done].
  2:{ intros f'. destruct (Hshape f') as [->|Hl]; [by left|right; simpl; lia]. }
  cbn [mbind Outcome_bind fst snd].
  replace (set_vertices (vertices decoded) decoded) with decoded
    by (by destruct decoded).
  rewrite (bool_decide_eq_false_2 (length (normals decoded) = 0%nat))
    by (by destruct (normals decoded)).
  cbn [negb].
  rewrite expand_without_conflict; [|done| |done].
  2:{ intros f'. destruct (Hshape f') as [->|Hl]; [by left|right; simpl; lia]. }
  cbn [mbind Outcome_bind fst snd].
  replace (set_normals (normals decoded) decoded) with decoded
    by (by destruct decoded).
  destruct (remap_bounds (normals decoded) (normal_indices decoded)
              (vertex_indices decoded) (Hint NORMAL_INDICES) (Hint VERTEX_INDICES))
    as [_ Hbounds].
  { destruct (Hvalid NORMAL_INDICES) as [_ Hsize]. simpl in Hsize. lia. }
  destruct (Hbounds Hnormals) as [[_ Hub] _].
  rewrite Hub; [done|].
  intros (_ & _ & Hmap).
  pose proof (lookup_lt_Some _ _ _ Hi) as Hlt.
  assert (take (length (normal_indices decoded)) (vertex_indices decoded) !! i
          = Some v) as Htake by (rewrite lookup_take_lt by lia; done).
  pose proof (proj1 (Forall_lookup _ _) Hmap _ _ Htake) as Hr. simpl in Hr. lia.
Qed.

Lemma parseGeometryForRendering_spare_position_witness :
  @parseGeometryForRendering sample_collaborators spare_position_memory
    spare_position_geometry
  = UndefinedBehaviour.
Proof.
  assert (@decodeGeometry sample_collaborators spare_position_memory
            spare_position_geometry
          = Ok (spare_position_decoded.1, spare_position_decoded.2)) as Hdecode
    by (vm_compute; reflexivity).
  apply (@parseGeometryForRendering_spare_position sample_collaborators
           spare_position_memory spare_position_geometry _ _ 2%nat 4
           ltac:(by eexists) Hdecode).
  - intros f. destruct f; (split; [repeat constructor; simpl; lia|simpl; lia]).
  - intros i j e e' v v' Hji Hj Hi Hkey Hvj Hvi.
    destruct i as [|[|[|i]]]; try discriminate Hi;
      destruct j as [|[|[|j]]]; try discriminate Hj; try lia;
      simpl in Hi, Hj; injection Hi as <-; injection Hj as <-;
      discriminate Hkey.
  - intros i j e e' v v' Hji Hj Hi Hkey Hvj Hvi.
    destruct i as [|[|[|i]]]; try discriminate Hi;
      destruct j as [|[|[|j]]]; try discriminate Hj; try lia;
      simpl in Hi, Hj; injection Hi as <-; injection Hj as <-;
      discriminate Hkey.
  - discriminate.
  - reflexivity.
  - simpl. lia.
Defined.
